(** * RVTools extractor: the join-and-aggregate core

    A shallow embedding of [RVToolsComprehensiveExtractor]
    (rvtools_extractor.py): the unit normaliser [convert_mib_to_gb], the
    aggregator [aggregate_vm_data], the merger [merge_all_vm_data] and the
    output shaper [filter_output_columns] / [apply_power_filter].

    Modelling conventions.
    - A pandas [DataFrame] is an ordered list of named columns.  A column is
      either of a numeric dtype ([NumCol], int64/float64, NaN is [None]) or of
      dtype object ([ObjCol], cells are strings or numbers, NaN is [None]).
      Cells follow the data model of the specification (integer, floating
      point, string, null); boolean columns are not modelled.
    - The column names of a source table are unique, as [read_csv] makes
      them; a join can give a table with a name twice (see [merge_left]).
      [lookup] gives the first column of a name, which is [df[col]] when
      the name is unique; the lemmas that need unique names carry the
      hypothesis [NoDup (names df)].
    - A number is the rational it stands for, kept in lowest terms: every
      int64 and every finite float64 is one.  The unit conversion is carried
      out in binary64 arithmetic ([Float64], on the Standard Library's
      [SpecFloat]).  The sums and means of the aggregator are exact: neither
      the wrap-around of an int64 sum nor the rounding of a float64 sum is
      modelled, and no theorem below states the value of a sum or a mean.
    - [str.lower] acts on ASCII letters; [str.replace] replaces the
      non-overlapping occurrences from left to right.
    - An exception is a value [Raise]; [try ... except] is a match on it. *)

From Stdlib Require Import List String Ascii Bool Arith ZArith QArith Qround Lia.
From Stdlib Require Import SpecFloat.
From Stdlib Require Import Permutation.
Import ListNotations.
Close Scope Q_scope.
Open Scope string_scope.
Open Scope list_scope.
Open Scope nat_scope.

(* ================================================================= *)
(** ** Python strings *)

Module PyStr.

Definition lower_ascii (c : ascii) : ascii :=
  let n := nat_of_ascii c in
  if andb (65 <=? n) (n <=? 90) then ascii_of_nat (n + 32) else c.

(** [s.lower()] *)
Fixpoint lower (s : string) : string :=
  match s with
  | EmptyString => EmptyString
  | String c s' => String (lower_ascii c) (lower s')
  end.

(** [pat in s] *)
Fixpoint contains (pat s : string) : bool :=
  orb (prefix pat s)
      match s with
      | EmptyString => false
      | String _ s' => contains pat s'
      end.

(** The scan of [s.replace(old, new)]: [skip] counts the characters of a
    matched occurrence of [old] that are still to be passed over. *)
Fixpoint replace_from (old new : string) (skip : nat) (s : string) : string :=
  match s with
  | EmptyString => EmptyString
  | String a s' =>
      match skip with
      | S k => replace_from old new k s'
      | O =>
          if prefix old s
          then new ++ replace_from old new (String.length old - 1) s'
          else String a (replace_from old new 0 s')
      end
  end.

(** [s.replace(old, new)]; every call site passes a non-empty [old]. *)
Definition replace (old new s : string) : string :=
  match old with
  | EmptyString => s
  | _ => replace_from old new 0 s
  end.

(** [sep.join(parts)] *)
Definition join (sep : string) (parts : list string) : string :=
  String.concat sep parts.

(** Number of occurrences of the character [c]. *)
Fixpoint count_char (c : ascii) (s : string) : nat :=
  match s with
  | EmptyString => 0
  | String a s' => (if Ascii.eqb a c then 1 else 0) + count_char c s'
  end.

End PyStr.
Import PyStr.

(* ================================================================= *)
(** ** Numbers *)

Module Num.

Definition round_half_even (q : Q) : Z :=
  let f := Qfloor q in
  match Qcompare (q - inject_Z f) (1 # 2)%Q with
  | Lt => f
  | Gt => (f + 1)%Z
  | Eq => if Z.even f then f else (f + 1)%Z
  end.

(** IEEE 754 binary64, the float64 of numpy. *)
Module Float64.

Definition prec : Z := 53.
Definition emax : Z := 1024.

(** The float nearest to the rational [q], ties to even: the correctly
    rounded quotient of its numerator and denominator.  It is the float
    itself when [q] is the value of a float64, and the conversion
    int64 -> float64 when [q] is an integer. *)
Definition of_Q (q : Q) : spec_float :=
  match Qnum q with
  | Z0 => S754_zero false
  | Zpos m => SFdiv prec emax (S754_finite false m 0) (S754_finite false (Qden q) 0)
  | Zneg m => SFdiv prec emax (S754_finite true m 0) (S754_finite false (Qden q) 0)
  end.

Definition of_Z (n : Z) : spec_float := binary_normalize prec emax n 0 false.

(** The value of a finite float; infinities and NaN have none. *)
Definition to_Q (x : spec_float) : option Q :=
  match x with
  | S754_zero _ => Some 0%Q
  | S754_finite s m e =>
      Some (Qred (match e with
                  | Zneg p => cond_Zopp s (Zpos m) # (2 ^ p)
                  | _ => inject_Z (cond_Zopp s (Zpos m) * 2 ^ e)
                  end))
  | _ => None
  end.

(** [np.rint]: the nearest integer, ties to even. *)
Definition rint (x : spec_float) : spec_float :=
  match x with
  | S754_finite s m (Zneg p) =>
      binary_normalize prec emax (cond_Zopp s (round_half_even (Zpos m # 2 ^ p))) 0 s
  | _ => x
  end.

(** The value of the float nearest to [q]: what a decimal literal denotes. *)
Definition nearest (q : Q) : option Q := to_Q (of_Q q).

Definition div (x y : spec_float) : spec_float := SFdiv prec emax x y.
Definition mul (x y : spec_float) : spec_float := SFmul prec emax x y.

(** [x.round(2)] of numpy: [rint(x * 100.0) / 100.0]. *)
Definition round2 (x : spec_float) : spec_float :=
  div (rint (mul x (of_Z 100))) (of_Z 100).

End Float64.

(** [(x / d).round(2)] on a float64, or on an int64 that the division turns
    into a float64.  The result is finite for every int64 and every finite
    float64 [q]; [None] stands for a result without a value. *)
Definition div_round (d : Z) (q : Q) : option Q :=
  Float64.to_Q (Float64.round2 (Float64.div (Float64.of_Q q) (Float64.of_Z d))).

Definition qsum (l : list Q) : Q := Qred (fold_left Qplus l 0%Q).

Definition qmean (l : list Q) : option Q :=
  match l with
  | [] => None
  | _ => Some (Qred (fold_left Qplus l 0%Q / inject_Z (Z.of_nat (List.length l)))%Q)
  end.

Definition q_eq_dec (x y : Q) : {x = y} + {x <> y}.
Proof. decide equality; [apply Pos.eq_dec | apply Z.eq_dec]. Defined.

End Num.
Import Num.

(* ================================================================= *)
(** ** Tables *)

Inductive value : Type :=
| VNum (q : Q)
| VStr (s : string).

Definition cell : Type := option value.

Inductive coldata : Type :=
| NumCol (l : list (option Q))
| ObjCol (l : list cell).

Record column : Type := mkcol { cname : string; cdata : coldata }.

Definition DataFrame : Type := list column.

Definition value_eq_dec (x y : value) : {x = y} + {x <> y}.
Proof. decide equality; [apply q_eq_dec | apply string_dec]. Defined.

Definition cell_eq_dec (x y : cell) : {x = y} + {x <> y}.
Proof. decide equality; apply value_eq_dec. Defined.

Definition value_eqb (x y : value) : bool :=
  if value_eq_dec x y then true else false.

Definition cell_eqb (x y : cell) : bool :=
  if cell_eq_dec x y then true else false.

(** The cells of a column, whatever its dtype. *)
Definition cells_of (d : coldata) : list cell :=
  match d with
  | NumCol l => map (option_map VNum) l
  | ObjCol l => l
  end.

(** [pd.api.types.is_numeric_dtype] *)
Definition is_numeric_dtype (d : coldata) : bool :=
  match d with NumCol _ => true | ObjCol _ => false end.

(** [df.columns] *)
Definition names (df : DataFrame) : list string := map cname df.

(** [df[col]] *)
Fixpoint lookup (n : string) (df : DataFrame) : option coldata :=
  match df with
  | [] => None
  | c :: df' => if String.eqb (cname c) n then Some (cdata c) else lookup n df'
  end.

(** [col in df.columns] *)
Definition has_column (n : string) (df : DataFrame) : bool :=
  existsb (String.eqb n) (names df).

(** [df[n] = d]: an existing column keeps its place, a new one goes last. *)
Definition set_column (n : string) (d : coldata) (df : DataFrame) : DataFrame :=
  if has_column n df
  then map (fun c => if String.eqb (cname c) n then mkcol n d else c) df
  else df ++ [mkcol n d].

(** [df.drop(columns=[n])] *)
Definition drop (n : string) (df : DataFrame) : DataFrame :=
  filter (fun c => negb (String.eqb (cname c) n)) df.

(** [df.empty]: no column, or columns without a row (the columns of a frame
    have the same length). *)
Definition empty (df : DataFrame) : bool :=
  forallb (fun c => Nat.eqb (List.length (cells_of (cdata c))) 0) df.

Definition vm_uuid : string := "VM UUID".

(** The cells of the Entity Key column ([[]] when the column is absent). *)
Definition key_cells (df : DataFrame) : list cell :=
  match lookup vm_uuid df with
  | Some d => cells_of d
  | None => []
  end.

(* ================================================================= *)
(** ** Unit normaliser: [convert_mib_to_gb] *)

Definition rename_mib (col : string) : string :=
  replace "MiB" "_GB" (replace "_MiB" "_GB" (replace " MiB" " GB" col)).

Definition rename_mb (col : string) : string :=
  replace "MB" "_GB" (replace "_MB" "_GB" (replace " MB" " GB" col)).

Definition is_mib_name (col : string) : bool := contains "mib" (lower col).

Definition is_mb_name (col : string) : bool :=
  andb (contains "mb" (lower col)) (negb (contains "mbps" (lower col))).

(** The columns a loop of the normaliser runs over:
    [[col for col in df.columns if sel(col) and is_numeric_dtype(df[col])]] *)
Definition unit_columns (sel : string -> bool) (df : DataFrame) : list string :=
  map cname (filter (fun c => andb (sel (cname c)) (is_numeric_dtype (cdata c))) df).

Definition mib_columns : DataFrame -> list string := unit_columns is_mib_name.
Definition mb_columns : DataFrame -> list string := unit_columns is_mb_name.

(** [(df[col] / d).round(2)]: a null stays a null. *)
Definition convert_values (d : Z) (vs : list (option Q)) : coldata :=
  NumCol (map (fun v => match v with
                        | Some q => div_round d q
                        | None => None
                        end) vs).

(** One iteration of a loop: write the converted values under the derived
    name, then drop [col].  A listed column is numeric when its turn comes;
    the other branches are not reached on frames with unique names. *)
Definition convert_column (rename : string -> string) (d : Z)
    (df : DataFrame) (col : string) : DataFrame :=
  match lookup col df with
  | Some (NumCol vs) =>
      drop col (set_column (rename col) (convert_values d vs) df)
  | _ => df
  end.

Definition convert_pass (sel : string -> bool) (rename : string -> string)
    (d : Z) (df : DataFrame) : DataFrame :=
  fold_left (convert_column rename d) (unit_columns sel df) df.

Definition mib_pass : DataFrame -> DataFrame := convert_pass is_mib_name rename_mib 1024.
Definition mb_pass : DataFrame -> DataFrame := convert_pass is_mb_name rename_mb 1000.

Definition convert_mib_to_gb (df : DataFrame) : DataFrame := mb_pass (mib_pass df).

(* ================================================================= *)
(** ** Exceptions *)

Inductive result (A : Type) : Type :=
| Ok (a : A)
| Raise.
Arguments Ok {A} a.
Arguments Raise {A}.

Definition bind {A B : Type} (r : result A) (k : A -> result B) : result B :=
  match r with
  | Ok a => k a
  | Raise => Raise
  end.

Notation "x <- r ;; k" := (bind r (fun x => k))
  (at level 61, r at next level, right associativity).

(** Run [f] over a list, stopping at the first exception. *)
Fixpoint map_result {A B : Type} (f : A -> result B) (l : list A) : result (list B) :=
  match l with
  | [] => Ok []
  | a :: l' => b <- f a ;; bs <- map_result f l' ;; Ok (b :: bs)
  end.

(* ================================================================= *)
(** ** Series helpers *)

(** [x.dropna()] *)
Fixpoint dropna (l : list cell) : list value :=
  match l with
  | [] => []
  | Some v :: l' => v :: dropna l'
  | None :: l' => dropna l'
  end.

(** [x.unique()]: the distinct values in first-seen order. *)
Fixpoint unique (l : list value) : list value :=
  match l with
  | [] => []
  | v :: l' => v :: filter (fun w => negb (value_eqb v w)) (unique l')
  end.

(** Order of the group keys: numbers before strings. *)
Definition value_leb (a b : value) : bool :=
  match a, b with
  | VNum x, VNum y => Qle_bool x y
  | VNum _, VStr _ => true
  | VStr _, VNum _ => false
  | VStr x, VStr y => String.leb x y
  end.

Fixpoint insert_sorted (v : value) (l : list value) : list value :=
  match l with
  | [] => [v]
  | w :: l' => if value_leb v w then v :: l else w :: insert_sorted v l'
  end.

Fixpoint sort_values (l : list value) : list value :=
  match l with
  | [] => []
  | v :: l' => insert_sorted v (sort_values l')
  end.

(** The group keys of [df.groupby(key)]: null keys are left out, the
    distinct ones are sorted. *)
Definition group_keys (keys : list cell) : list value :=
  sort_values (unique (dropna keys)).

(** The cells of one column that belong to the group of key [g]. *)
Definition group_cells (g : value) (keys cells : list cell) : list cell :=
  map snd (filter (fun kc => cell_eqb (fst kc) (Some g)) (combine keys cells)).

Definition count_key (g : value) (keys : list cell) : nat :=
  count_occ cell_eq_dec keys (Some g).

(** [df[key].value_counts()] (nulls are not counted). *)
Definition value_counts (keys : list cell) : list (value * nat) :=
  map (fun g => (g, count_key g keys)) (unique (dropna keys)).

(** [vm_counts.max() == 1]; the maximum of an empty series is NaN. *)
Definition max_count_is_one (vm_counts : list (value * nat)) : bool :=
  match vm_counts with
  | [] => false
  | _ => Nat.eqb (list_max (map snd vm_counts)) 1
  end.

(** A column of dtype [numeric] built from result cells; a numeric result
    holds no string. *)
Definition num_of_cell (c : cell) : option Q :=
  match c with
  | Some (VNum q) => Some q
  | _ => None
  end.

Definition make_column (numeric : bool) (cells : list cell) : coldata :=
  if numeric then NumCol (map num_of_cell cells) else ObjCol cells.

Definition is_num_cell (c : cell) : bool :=
  match c with
  | Some (VStr _) => false
  | _ => true
  end.

(** dtype inference on the results of a Python function; without a result
    (no group) the column stays of dtype object. *)
Definition infer_column (cells : list cell) : coldata :=
  match cells with
  | [] => ObjCol []
  | _ => make_column (forallb is_num_cell cells) cells
  end.

(** Key column of a grouped result, in the dtype of the key. *)
Definition key_column (d : coldata) (gkeys : list value) : coldata :=
  make_column (is_numeric_dtype d) (map Some gkeys).

(* ================================================================= *)
(** ** Aggregation rules *)

Inductive agg_op : Type :=
| AggSum
| AggMean
| AggCount
| AggFirst
| AggJoinUnique    (* the lambda of the rule table *)
| AggJoinDefault.  (* the lambda for text columns without a rule *)

(** [self.aggregation_rules] ('Size MiB' is listed twice in the literal,
    with the same operation). *)
Definition aggregation_rules : list (string * agg_op) :=
  [ ("Capacity MiB", AggSum); ("In Use MiB", AggSum); ("Free MiB", AggSum);
    ("Provisioned MiB", AggSum); ("VMDK Size MiB", AggSum); ("Size MiB", AggSum);
    ("Speed Mbps", AggSum);
    ("Capacity MB", AggSum); ("Consumed MB", AggSum); ("Free MB", AggSum);
    ("Num Disks", AggSum); ("Num NICs", AggSum); ("Num Snapshots", AggCount);
    ("Network", AggJoinUnique); ("MAC Address", AggJoinUnique);
    ("IP Address", AggJoinUnique); ("Disk Path", AggJoinUnique);
    ("Datastore", AggJoinUnique) ].

Fixpoint assoc {A : Type} (k : string) (l : list (string * A)) : option A :=
  match l with
  | [] => None
  | (k', a) :: l' => if String.eqb k' k then Some a else assoc k l'
  end.

Definition sum_words : list string :=
  ["size"; "capacity"; "mib"; "gb"; "mb"; "count"; "num"].

Definition first_names : list string :=
  ["vm"; "name"; "powerstate"; "os"; "cluster"; "host"; "datacenter"].

Definition numeric_rule (col : string) : agg_op :=
  match assoc col aggregation_rules with
  | Some op => op
  | None =>
      if existsb (fun word => contains word (lower col)) sum_words
      then AggSum else AggMean
  end.

Definition text_rule (col : string) : agg_op :=
  match assoc col aggregation_rules with
  | Some op => op
  | None =>
      if existsb (String.eqb (lower col)) first_names
      then AggFirst else AggJoinDefault
  end.

(* ================================================================= *)
(** ** Aggregation of one group *)

Definition add_value (a b : value) : result value :=
  match a, b with
  | VNum x, VNum y => Ok (VNum (Qred (x + y)%Q))
  | VStr x, VStr y => Ok (VStr (x ++ y))
  | _, _ => Raise
  end.

Fixpoint sum_from (acc : value) (l : list value) : result value :=
  match l with
  | [] => Ok acc
  | v :: l' => a <- add_value acc v ;; sum_from a l'
  end.

(** ['sum']: the non-null values added up (strings are concatenated); an
    all-null group gives 0. *)
Definition sum_values (l : list value) : result value :=
  match l with
  | [] => Ok (VNum 0%Q)
  | VNum q :: l' => sum_from (VNum (Qred q)) l'
  | v :: l' => sum_from v l'
  end.

Fixpoint all_numbers (l : list value) : result (list Q) :=
  match l with
  | [] => Ok []
  | VNum q :: l' => qs <- all_numbers l' ;; Ok (q :: qs)
  | VStr _ :: _ => Raise
  end.

Fixpoint all_strings (l : list value) : result (list string) :=
  match l with
  | [] => Ok []
  | VStr s :: l' => ss <- all_strings l' ;; Ok (s :: ss)
  | VNum _ :: _ => Raise
  end.

(** [' | '.join(values)]: a [TypeError] on an item that is not a string. *)
Definition join_values (l : list value) : result cell :=
  ss <- all_strings l ;; Ok (Some (VStr (join " | " ss))).

(** The operation [op] on the cells [x] of one group. *)
Definition agg_group (op : agg_op) (x : list cell) : result cell :=
  match op with
  | AggSum => v <- sum_values (dropna x) ;; Ok (Some v)
  | AggMean => qs <- all_numbers (dropna x) ;; Ok (option_map VNum (qmean qs))
  | AggCount => Ok (Some (VNum (inject_Z (Z.of_nat (List.length (dropna x))))))
  | AggFirst => Ok (hd_error (dropna x))
  | AggJoinUnique =>
      (* ' | '.join(x.dropna().unique()) if len(x.dropna()) > 0 else '' *)
      if 0 <? List.length (dropna x)
      then join_values (unique (dropna x))
      else Ok (Some (VStr ""))
  | AggJoinDefault =>
      (* ' | '.join(x.dropna().unique()) if len(x.dropna()) > 1
         else x.iloc[0] if len(x.dropna()) > 0 else '' *)
      if 1 <? List.length (dropna x)
      then join_values (unique (dropna x))
      else if 0 <? List.length (dropna x)
      then Ok (hd None x)
      else Ok (Some (VStr ""))
  end.

(** dtype of an aggregated column. *)
Definition shape_column (op : agg_op) (d : coldata) (cells : list cell) : coldata :=
  match op with
  | AggSum | AggFirst => make_column (is_numeric_dtype d) cells
  | AggMean | AggCount => make_column true cells
  | AggJoinUnique | AggJoinDefault => infer_column cells
  end.

Definition agg_column (op : agg_op) (keys : list cell) (gkeys : list value)
    (d : coldata) : result coldata :=
  cells <- map_result (fun g => agg_group op (group_cells g keys (cells_of d))) gkeys ;;
  Ok (shape_column op d cells).

(* ================================================================= *)
(** ** Aggregator: [aggregate_vm_data] *)

(** [list.remove(x)] guarded by [if x in list]. *)
Fixpoint remove_first (x : string) (l : list string) : list string :=
  match l with
  | [] => []
  | y :: l' => if String.eqb y x then l' else y :: remove_first x l'
  end.

(** [df.select_dtypes(include=[np.number]).columns.tolist()] *)
Definition numeric_cols (df : DataFrame) : list string :=
  map cname (filter (fun c => is_numeric_dtype (cdata c)) df).

(** [df.select_dtypes(include=['object']).columns.tolist()] *)
Definition text_cols (df : DataFrame) : list string :=
  map cname (filter (fun c => negb (is_numeric_dtype (cdata c))) df).

(** [agg_dict], in insertion order. *)
Definition agg_dict (df : DataFrame) (vm_uuid_col : string) : list (string * agg_op) :=
  map (fun col => (col, numeric_rule col)) (remove_first vm_uuid_col (numeric_cols df))
  ++ map (fun col => (col, text_rule col)) (remove_first vm_uuid_col (text_cols df)).

(** [df.groupby(key).agg(agg_dict).reset_index()] *)
Definition groupby_agg (df : DataFrame) (key : string)
    (dict : list (string * agg_op)) : result DataFrame :=
  match lookup key df with
  | None => Raise
  | Some kd =>
      let keys := cells_of kd in
      let gkeys := group_keys keys in
      cols <- map_result
                (fun co =>
                   match lookup (fst co) df with
                   | None => Raise
                   | Some d => c <- agg_column (snd co) keys gkeys d ;;
                               Ok (mkcol (fst co) c)
                   end) dict ;;
      Ok (mkcol key (key_column kd gkeys) :: cols)
  end.

(** [df.groupby(key).first().reset_index()]: per group and column the
    first value that is not null. *)
Definition groupby_first (df : DataFrame) (key : string) : result DataFrame :=
  match lookup key df with
  | None => Raise
  | Some kd =>
      let keys := cells_of kd in
      let gkeys := group_keys keys in
      Ok (mkcol key (key_column kd gkeys)
          :: map (fun c =>
                    mkcol (cname c)
                      (make_column (is_numeric_dtype (cdata c))
                         (map (fun g => hd_error (dropna (group_cells g keys (cells_of (cdata c)))))
                              gkeys)))
                 (drop key df))
  end.

(** The body of the [try] block. *)
Definition aggregate_grouped (df : DataFrame) (vm_uuid_col : string) : result DataFrame :=
  let dict := agg_dict df vm_uuid_col in
  match dict with
  | _ :: _ => aggregated <- groupby_agg df vm_uuid_col dict ;;
              Ok (convert_mib_to_gb aggregated)
  | [] => first_records <- groupby_first df vm_uuid_col ;;
          Ok (convert_mib_to_gb first_records)
  end.

Definition aggregate_vm_data_on (df : DataFrame) (vm_uuid_col : string) : DataFrame :=
  if orb (negb (has_column vm_uuid_col df)) (empty df) then df
  else
    let vm_counts :=
      value_counts (match lookup vm_uuid_col df with Some d => cells_of d | None => [] end) in
    if max_count_is_one vm_counts then convert_mib_to_gb df
    else
      match aggregate_grouped df vm_uuid_col with
      | Ok r => r
      | Raise =>
          match groupby_first df vm_uuid_col with
          | Ok first_records => convert_mib_to_gb first_records
          | Raise => convert_mib_to_gb df
          end
      end.

(** [aggregate_vm_data(df)] with the default [vm_uuid_col='VM UUID']. *)
Definition aggregate_vm_data (df : DataFrame) : DataFrame :=
  aggregate_vm_data_on df vm_uuid.

(* ================================================================= *)
(** ** Left join: [left.merge(right, on=key, how='left')] *)

(** The rows [idx] of a column, in that order; [None] is a row of nulls. *)
Definition take_rows (idx : list (option nat)) (d : coldata) : coldata :=
  match d with
  | NumCol l =>
      NumCol (map (fun oi => match oi with Some i => nth i l None | None => None end) idx)
  | ObjCol l =>
      ObjCol (map (fun oi => match oi with Some i => nth i l None | None => None end) idx)
  end.

(** Indices of the rows of [keys] whose key equals [k]; a null key matches a
    null key. *)
Definition matching_rows (k : cell) (keys : list cell) : list nat :=
  map fst (filter (fun ik => cell_eqb (snd ik) k) (combine (seq 0 (List.length keys)) keys)).

(** The pairs (left row, right row) of the join, in the order of the left
    rows; a left row without a match is kept once, with no right row. *)
Definition join_rows (lkeys rkeys : list cell) : list (nat * option nat) :=
  flat_map
    (fun ik =>
       match matching_rows (snd ik) rkeys with
       | [] => [(fst ik, None)]
       | js => map (fun j => (fst ik, Some j)) js
       end)
    (combine (seq 0 (List.length lkeys)) lkeys).

(** Name of a column in the result: a name other than the key that both
    sides carry gets the side's suffix (the key column of the right table is
    dropped before the names are compared). *)
Definition suffixed (key suffix : string) (other : list string) (col : string) : string :=
  if andb (negb (String.eqb col key)) (existsb (String.eqb col) other)
  then col ++ suffix else col.

(** No name occurs twice. *)
Fixpoint distinct (l : list string) : bool :=
  match l with
  | [] => true
  | x :: l' => andb (negb (existsb (String.eqb x) l')) (distinct l')
  end.

(** [Index.duplicated()]: marks every label that occurred before. *)
Fixpoint duplicated_from (seen l : list string) : list bool :=
  match l with
  | [] => []
  | x :: l' => existsb (String.eqb x) seen :: duplicated_from (x :: seen) l'
  end.

Definition duplicated (l : list string) : list bool := duplicated_from [] l.

(** [labels[labels.duplicated() & ~old.duplicated()]] is not empty: on one
    side of the join, a suffix made a label equal to an earlier one.  Labels
    that were equal before the renaming do not count, and the two sides are
    not compared with each other. *)
Definition suffix_duplicates (old labels : list string) : bool :=
  existsb (fun p => andb (fst p) (negb (snd p)))
          (combine (duplicated labels) (duplicated old)).

Definition merge_left (left right : DataFrame) (key : string) : result DataFrame :=
  match lookup key left, lookup key right with
  | Some lk, Some rk =>
      if negb (Bool.eqb (is_numeric_dtype lk) (is_numeric_dtype rk)) then Raise
      else
        let rows := join_rows (cells_of lk) (cells_of rk) in
        let lcols :=
          map (fun c => mkcol (suffixed key "_x" (names right) (cname c))
                              (take_rows (map (fun p => Some (fst p)) rows) (cdata c)))
              left in
        let rcols :=
          map (fun c => mkcol (suffixed key "_y" (names left) (cname c))
                              (take_rows (map snd rows) (cdata c)))
              (drop key right) in
        (* duplicate columns caused by the suffixes are a MergeError *)
        if orb (suffix_duplicates (names left) (names lcols))
               (suffix_duplicates (names (drop key right)) (names rcols))
        then Raise
        else Ok (lcols ++ rcols)
  | _, _ => Raise
  end.

(* ================================================================= *)
(** ** Merger: [merge_all_vm_data] *)

Definition base_options : list string :=
  ["cpu"; "info"; "memory"; "disk"; "network"; "tools"].

(** The renaming [f"{cat}_{col}" if col != 'VM UUID' else col]. *)
Definition prefix_columns (cat : string) (df : DataFrame) : DataFrame :=
  map (fun c => if String.eqb (cname c) vm_uuid then c
                else mkcol (cat ++ "_" ++ cname c) (cdata c))
      df.

(** [opt in csv_data and not csv_data[opt].empty and 'VM UUID' in
    csv_data[opt].columns] *)
Definition qualifies (csv_data : list (string * DataFrame)) (opt : string) : bool :=
  match assoc opt csv_data with
  | Some df => andb (negb (empty df)) (has_column vm_uuid df)
  | None => false
  end.

Definition find_base (csv_data : list (string * DataFrame)) : option string :=
  find (qualifies csv_data) base_options.

(** One iteration of the loop over [csv_data.items()]; the state is
    [(result_df, merged_count)]. *)
Definition merge_one (base_key : string) (st : DataFrame * nat)
    (item : string * DataFrame) : DataFrame * nat :=
  let '(result_df, merged_count) := st in
  let '(data_type, df) := item in
  if orb (String.eqb data_type base_key)
         (orb (empty df) (negb (has_column vm_uuid df)))
  then st
  else
    let aggregated_df := aggregate_vm_data df in
    if empty aggregated_df then st
    else
      match merge_left result_df (prefix_columns data_type aggregated_df) vm_uuid with
      | Ok merged => (merged, S merged_count)
      | Raise => st
      end.

(** The base table after aggregation ([None]: no base qualifies). *)
Definition base_table (csv_data : list (string * DataFrame)) : option DataFrame :=
  match find_base csv_data with
  | Some base_key =>
      match assoc base_key csv_data with
      | Some df => Some (aggregate_vm_data df)
      | None => None
      end
  | None => None
  end.

Definition merge_all_vm_data (csv_data : list (string * DataFrame)) : DataFrame :=
  match csv_data with
  | [] => []
  | _ =>
      match find_base csv_data with
      | None => []
      | Some base_key =>
          match assoc base_key csv_data with
          | None => []
          | Some base =>
              let result_df := aggregate_vm_data base in
              if empty result_df then []
              else
                fst (fold_left (merge_one base_key) csv_data
                       (prefix_columns base_key result_df, 1))
          end
      end
  end.

(* ================================================================= *)
(** ** Output shaper *)

Definition priority_patterns : list string :=
  ["cpu_vm"; "cpu_cpus"; "memory_size gb"; "disk_capacity gb";
   "cpu_os according to the configuration file"].

Definition secondary_patterns : list string := ["cpu_powerstate"; "cpu_annotation"].

Definition fallback_patterns : list string :=
  ["vm"; "cpu"; "memory"; "disk"; "powerstate"].

(** [list(dict.fromkeys(l))] *)
Fixpoint dedup (l : list string) : list string :=
  match l with
  | [] => []
  | x :: l' => x :: filter (fun y => negb (String.eqb x y)) (dedup l')
  end.

Definition exact_matches (cols patterns : list string) : list string :=
  flat_map (fun pattern =>
              filter (fun col => String.eqb (lower col) (lower pattern)) cols)
           patterns.

Definition add_fallback (cols : list string) (essential : list string)
    (pattern : string) : list string :=
  essential
  ++ firstn 2 (filter (fun col => andb (contains pattern (lower col))
                                       (negb (existsb (String.eqb col) essential)))
                      cols).

Definition essential_columns (cols : list string) : list string :=
  let found :=
    dedup ((if existsb (String.eqb vm_uuid) cols then [vm_uuid] else [])
           ++ exact_matches cols priority_patterns
           ++ exact_matches cols secondary_patterns) in
  if List.length found <? 5
  then fold_left (add_fallback cols) fallback_patterns found
  else found.

(** [df[cols]] *)
Definition select_columns (cols : list string) (df : DataFrame) : DataFrame :=
  flat_map (fun col => match lookup col df with
                       | Some d => [mkcol col d]
                       | None => []
                       end) cols.

Definition filter_output_columns (comprehensive_output : bool) (df : DataFrame) : DataFrame :=
  if comprehensive_output then df
  else
    let available :=
      filter (fun col => has_column col df) (essential_columns (names df)) in
    select_columns available df.

(** [df[mask]] *)
Fixpoint keep_rows {A : Type} (mask : list bool) (l : list A) : list A :=
  match mask, l with
  | b :: mask', x :: l' => if b then x :: keep_rows mask' l' else keep_rows mask' l'
  | _, _ => []
  end.

Definition keep_data (mask : list bool) (d : coldata) : coldata :=
  match d with
  | NumCol l => NumCol (keep_rows mask l)
  | ObjCol l => ObjCol (keep_rows mask l)
  end.

Definition filter_rows (mask : list bool) (df : DataFrame) : DataFrame :=
  map (fun c => mkcol (cname c) (keep_data mask (cdata c))) df.

(** [df[power_col].str.lower() == 'poweredon'], on a column of strings. *)
Definition powered_on (c : cell) : bool :=
  match c with
  | Some (VStr s) => String.eqb (lower s) "poweredon"
  | _ => false
  end.

Definition is_string (c : cell) : bool :=
  match c with Some (VStr _) => true | _ => false end.

Definition is_null (c : cell) : bool :=
  match c with None => true | _ => false end.

(** The values the [.str] accessor takes: a column of dtype object that
    holds a string, or nothing but nulls. *)
Definition string_values (l : list cell) : bool :=
  orb (existsb is_string l) (forallb is_null l).

(** The [.str] accessor raises on a numeric column, and on a column of dtype
    object that holds numbers and no string. *)
Definition apply_power_filter (include_all : bool) (df : DataFrame) : result DataFrame :=
  if orb include_all (empty df) then Ok df
  else
    match find (fun col => contains "powerstate" (lower col)) (names df) with
    | Some power_col =>
        match lookup power_col df with
        | Some (ObjCol l) =>
            if string_values l then Ok (filter_rows (map powered_on l) df) else Raise
        | _ => Raise
        end
    | None => Ok df
    end.

(** The table [process] writes out; [None] when the run fails. *)
Definition process (include_all comprehensive_output : bool)
    (csv_data : list (string * DataFrame)) : option DataFrame :=
  match csv_data with
  | [] => None
  | _ =>
      let merged_df := merge_all_vm_data csv_data in
      if empty merged_df then None
      else
        match apply_power_filter include_all merged_df with
        | Ok filtered_df => Some (filter_output_columns comprehensive_output filtered_df)
        | Raise => None
        end
  end.

(* ================================================================= *)
(** ** Source loader: the loop of [extract_and_read_all_csvs] *)

(** [s.endswith(suffix)] *)
Fixpoint endswith (suffix s : string) : bool :=
  orb (String.eqb s suffix)
      match s with
      | EmptyString => false
      | String _ s' => endswith suffix s'
      end.

(** White space of [str.strip()], among the ASCII characters. *)
Definition is_space (c : ascii) : bool :=
  let n := nat_of_ascii c in
  orb (andb (9 <=? n) (n <=? 13)) (andb (28 <=? n) (n <=? 32)).

Fixpoint lstrip (s : string) : string :=
  match s with
  | EmptyString => EmptyString
  | String a s' => if is_space a then lstrip s' else s
  end.

Fixpoint rstrip (s : string) : string :=
  match s with
  | EmptyString => EmptyString
  | String a s' =>
      match rstrip s' with
      | EmptyString => if is_space a then EmptyString else String a EmptyString
      | r => String a r
      end
  end.

(** [s.strip()] *)
Definition strip (s : string) : string := rstrip (lstrip s).

(** [df.columns = df.columns.str.strip()] *)
Definition strip_columns (df : DataFrame) : DataFrame :=
  map (fun c => mkcol (strip (cname c)) (cdata c)) df.

(** [self.vm_data_files], in insertion order. *)
Definition vm_data_files : list (string * string) :=
  [ ("cpu", "tabvcpu"); ("memory", "tabvmemory"); ("disk", "tabvdisk");
    ("network", "tabvnetwork"); ("nic", "tabvnic"); ("snapshot", "tabvsnapshot");
    ("partition", "tabvpartition"); ("info", "tabvinfo"); ("tools", "tabvtools");
    ("cd", "tabvcd"); ("multipath", "tabvmultipath"); ("sc_vmk", "tabvsc_vmk");
    ("rp", "tabvrp"); ("fileinfo", "tabvfileinfo") ].

(** The first category whose pattern occurs in the file name. *)
Definition file_key (filename : string) : option string :=
  option_map fst (find (fun kp => contains (snd kp) filename) vm_data_files).

Definition clean_name (filename : string) : string :=
  replace ".csv" "" (replace "rvtools_" "" filename).

(** [d[k] = v] on a dict in insertion order: a key that is present keeps its
    place. *)
Fixpoint dict_set {A : Type} (k : string) (v : A) (d : list (string * A))
  : list (string * A) :=
  match d with
  | [] => [(k, v)]
  | (k', v') :: d' =>
      if String.eqb k' k then (k, v) :: d' else (k', v') :: dict_set k v d'
  end.

(** One file of the walk: its name and what [pd.read_csv] made of it
    ([Raise]: the file could not be read). *)
Definition load_file (csv_data : list (string * DataFrame))
    (file : string * result DataFrame) : list (string * DataFrame) :=
  if endswith ".csv" (fst file) then
    let filename := lower (fst file) in
    match snd file with
    | Raise => csv_data
    | Ok parsed =>
        let df := strip_columns parsed in
        if negb (has_column vm_uuid df) then csv_data
        else if empty df then csv_data
        else
          match file_key filename with
          | Some key => dict_set key df csv_data
          | None => dict_set (clean_name filename) df csv_data
          end
    end
  else csv_data.

Definition load_files (files : list (string * result DataFrame))
  : list (string * DataFrame) :=
  fold_left load_file files [].

(* ================================================================= *)
(** ** Cost report (vm_bom.py): [VMBOMGenerator] *)

Module Bom.

(** [detect_os_type] *)
Definition linux_names : list string :=
  ["ubuntu"; "centos"; "oracle linux"; "debian"; "suse"; "linux"].

Definition detect_os_type (os_config : string) : string :=
  let os_lower := lower os_config in
  if orb (contains "windows" os_lower) (contains "microsoft" os_lower)
  then "windows"
  else if existsb (fun linux => contains linux os_lower) linux_names
  then "linux"
  else "other".

(** [calculate_ocpu_count]; [//] is the division that rounds down. *)
Definition calculate_ocpu_count (cpu_cpus : Z) : Z :=
  if (cpu_cpus <=? 0)%Z then 0%Z
  else if (cpu_cpus =? 1)%Z then 1%Z
  else ((cpu_cpus + 1) / 2)%Z.

(** The [if]/[elif] chain of [read_vm_csv] that maps a column of the CSV
    file to a field of [VMSpec]. *)
Definition field_target (field : string) : option string :=
  let field_lower := lower field in
  if orb (contains "cpu_vm" field_lower)
         (orb (String.eqb field_lower "vm name") (String.eqb field_lower "vm_name"))
  then Some "vm_name"
  else if orb (contains "cpu_os" field_lower) (contains "os according" field_lower)
  then Some "os_config"
  else if orb (contains "cpu_cpus" field_lower)
              (orb (String.eqb field_lower "vcpu") (String.eqb field_lower "cpus"))
  then Some "cpu_cpus"
  else if orb (contains "memory_size" field_lower)
              (orb (contains "mem_size" field_lower) (String.eqb field_lower "memory gb"))
  then Some "mem_size_gb"
  else if orb (contains "disk_capacity" field_lower)
              (orb (contains "disk_total" field_lower) (String.eqb field_lower "disk gb"))
  then Some "disk_total_capacity_gb"
  else if orb (contains "annotation" field_lower) (contains "notes" field_lower)
  then Some "annotation"
  else if orb (contains "powerstate" field_lower) (contains "power_state" field_lower)
  then Some "powerstate"
  else None.

(** [column_mapping], built over the stripped field names. *)
Definition column_mapping (fieldnames : list string) : list (string * string) :=
  fold_left (fun mapping field =>
               match field_target field with
               | Some target => dict_set target field mapping
               | None => mapping
               end)
            (map strip fieldnames) [].

Definition required : list string :=
  ["vm_name"; "os_config"; "cpu_cpus"; "mem_size_gb"; "disk_total_capacity_gb"].

(** [missing = [col for col in required if col not in column_mapping]] *)
Definition missing (mapping : list (string * string)) : list string :=
  filter (fun col => negb (existsb (String.eqb col) (map fst mapping))) required.

End Bom.

(* ================================================================= *)
(** ** Notions of the specification *)

(** "The first row observed per Entity Key": for each group key the cells
    of the first row of the group, nulls included.  This definition follows
    the specification; the code's fallback is [groupby_first]. *)
Definition spec_first_row_per_key (df : DataFrame) (key : string) : DataFrame :=
  match lookup key df with
  | None => df
  | Some kd =>
      let keys := cells_of kd in
      let gkeys := group_keys keys in
      mkcol key (key_column kd gkeys)
      :: map (fun c =>
                mkcol (cname c)
                  (make_column (is_numeric_dtype (cdata c))
                     (map (fun g => hd None (group_cells g keys (cells_of (cdata c)))) gkeys)))
             (drop key df)
  end.




(** The table without the rows whose Entity Key is null. *)
Definition is_some (c : cell) : bool :=
  match c with Some _ => true | None => false end.

Definition dropna_key_rows (df : DataFrame) : DataFrame :=
  filter_rows (map is_some (key_cells df)) df.

(** A category that can serve as base: present, not empty, with the key. *)
Definition usable (csv_data : list (string * DataFrame)) (cat : string) : Prop :=
  exists df, assoc cat csv_data = Some df
             /\ empty df = false /\ has_column vm_uuid df = true.

(* ================================================================= *)
(** ** Example tables *)

Module Examples.

Definition nums (l : list Z) : coldata := NumCol (map (fun z => Some (inject_Z z)) l).
Definition strs (l : list string) : coldata := ObjCol (map (fun s => Some (VStr s)) l).

(** One VM with a column in megabytes whose name has [mb] twice. *)
Definition number_mb : DataFrame :=
  [mkcol "VM UUID" (strs ["u1"]); mkcol "Number MB" (nums [1500%Z])].

(** A column whose name has the marker in lower case only, followed by one
    whose derived name is that name. *)
Definition mib_twice : DataFrame :=
  [mkcol "VM UUID" (strs ["u1"]); mkcol "mib GB" (nums [1%Z]);
   mkcol "mib MiB" (nums [2048%Z])].

(** Sizes in mebibytes and megabytes, written the three ways. *)
Definition sizes : DataFrame :=
  [mkcol "VM UUID" (strs ["u1"; "u2"]);
   mkcol "Size MiB" (nums [2048%Z; 100%Z]);
   mkcol "Free_MiB" (nums [512%Z; 0%Z]);
   mkcol "UsedMiB" (nums [1024%Z; 1%Z]);
   mkcol "Capacity MB" (nums [1500%Z; 10%Z]);
   mkcol "Speed Mbps" (nums [1000%Z; 100%Z]);
   mkcol "Low mib" (nums [7%Z; 8%Z])].

(** Two records of one VM; the column 'Network' holds numbers, and the
    name of the VM is missing in the first record. *)
Definition numeric_network : DataFrame :=
  [mkcol "VM UUID" (strs ["u1"; "u1"]);
   mkcol "Network" (nums [1%Z; 2%Z]);
   mkcol "VM" (ObjCol [None; Some (VStr "web")]);
   mkcol "Size MiB" (nums [1024%Z; 2048%Z])].

(** A NIC table alone: it has the key, but 'nic' is no base category. *)
Definition only_nic : list (string * DataFrame) :=
  [("nic", [mkcol "VM UUID" (strs ["u1"]); mkcol "Adapter" (strs ["vmxnet3"])])].

(** One keyed row and two rows without a key. *)
Definition null_keys : DataFrame :=
  [mkcol "VM UUID" (ObjCol [Some (VStr "u1"); None; None]);
   mkcol "CPUs" (nums [2%Z; 4%Z; 8%Z])].

(** A table whose only row has no key. *)
Definition all_null_keys : DataFrame :=
  [mkcol "VM UUID" (NumCol [None]); mkcol "CPUs" (nums [2%Z])].

(** Tables of an export: the key is the last column of the CPU table. *)
Definition cpu : DataFrame :=
  [mkcol "VM" (strs ["web"; "db"]); mkcol "CPUs" (nums [2%Z; 4%Z]);
   mkcol "Powerstate" (strs ["poweredOn"; "poweredOff"]);
   mkcol "VM UUID" (strs ["u1"; "u2"])].

Definition memory : DataFrame :=
  [mkcol "VM UUID" (strs ["u1"; "u3"]); mkcol "Size MiB" (nums [2048%Z; 4096%Z])].

Definition disk : DataFrame :=
  [mkcol "VM UUID" (strs ["u1"; "u1"; "u2"]);
   mkcol "Capacity MiB" (nums [1024%Z; 1024%Z; 512%Z])].

Definition export : list (string * DataFrame) :=
  [("memory", memory); ("cpu", cpu); ("disk", disk)].

End Examples.

(* ================================================================= *)
(** * Properties *)

(* ================================================================= *)
(** ** Strings *)

Section StringFacts.

Lemma count_char_append (c : ascii) (s t : string) :
  count_char c (s ++ t)%string = count_char c s + count_char c t.
Proof.
  induction s as [|a s IH]; simpl; [reflexivity|].
  rewrite IH. lia.
Qed.

Lemma replace_from_cons (old new : string) (a : ascii) (s : string) :
  replace_from old new 0 (String a s) =
  if prefix old (String a s)
  then (new ++ replace_from old new (String.length old - 1) s)%string
  else String a (replace_from old new 0 s).
Proof. reflexivity. Qed.

(** A replacement that fires inserts [new]: when [new] carries a character
    that the result lacks, nothing was replaced. *)
Lemma replace_from_without (c : ascii) (old new s : string) :
  0 < count_char c new ->
  count_char c (replace_from old new 0 s) = 0 ->
  replace_from old new 0 s = s.
Proof.
  intros Hnew. induction s as [|a s IH]; [reflexivity|].
  rewrite replace_from_cons.
  destruct (prefix old (String a s)).
  - rewrite count_char_append. lia.
  - simpl. intros H. f_equal. apply IH.
    destruct (Ascii.eqb a c); simpl in H; [discriminate | exact H].
Qed.

Lemma replace_without (c : ascii) (old new s : string) :
  0 < count_char c new ->
  count_char c (replace old new s) = 0 ->
  replace old new s = s.
Proof.
  unfold replace. destruct old; [reflexivity|].
  apply replace_from_without.
Qed.

(** Without an occurrence of [old] the string is returned as it is. *)
Lemma replace_from_absent (old new s : string) :
  contains old s = false -> replace_from old new 0 s = s.
Proof.
  induction s as [|a s IH]; [reflexivity|].
  rewrite replace_from_cons. intros H.
  change (contains old (String a s))
    with (orb (prefix old (String a s)) (contains old s)) in H.
  apply orb_false_iff in H. destruct H as [Hp Hc].
  rewrite Hp. f_equal. apply IH. exact Hc.
Qed.

Lemma replace_absent (old new s : string) :
  contains old s = false -> replace old new s = s.
Proof.
  unfold replace. destruct old; [reflexivity|].
  apply replace_from_absent.
Qed.

(** The key column's name has no underscore and no ['G']. *)
Lemma underscore_not_key (a b : string) : (a ++ "_" ++ b)%string <> vm_uuid.
Proof.
  intros H. apply (f_equal (count_char "_"%char)) in H.
  rewrite !count_char_append in H. simpl in H. lia.
Qed.

Lemma rename_mib_key (c : string) : rename_mib c = vm_uuid -> c = vm_uuid.
Proof.
  unfold rename_mib. intros H.
  pose proof (replace_without "G"%char "MiB" "_GB" _ ltac:(simpl; lia)
                ltac:(rewrite H; reflexivity)) as H3.
  rewrite H3 in H.
  pose proof (replace_without "G"%char "_MiB" "_GB" _ ltac:(simpl; lia)
                ltac:(rewrite H; reflexivity)) as H2.
  rewrite H2 in H.
  pose proof (replace_without "G"%char " MiB" " GB" _ ltac:(simpl; lia)
                ltac:(rewrite H; reflexivity)) as H1.
  rewrite H1 in H. exact H.
Qed.

Lemma rename_mb_key (c : string) : rename_mb c = vm_uuid -> c = vm_uuid.
Proof.
  unfold rename_mb. intros H.
  pose proof (replace_without "G"%char "MB" "_GB" _ ltac:(simpl; lia)
                ltac:(rewrite H; reflexivity)) as H3.
  rewrite H3 in H.
  pose proof (replace_without "G"%char "_MB" "_GB" _ ltac:(simpl; lia)
                ltac:(rewrite H; reflexivity)) as H2.
  rewrite H2 in H.
  pose proof (replace_without "G"%char " MB" " GB" _ ltac:(simpl; lia)
                ltac:(rewrite H; reflexivity)) as H1.
  rewrite H1 in H. exact H.
Qed.

End StringFacts.

(* ================================================================= *)
(** ** Frames *)

Section FrameFacts.

Lemma has_column_lookup (n : string) (df : DataFrame) :
  has_column n df = true <-> lookup n df <> None.
Proof.
  unfold has_column, names. induction df as [|c df IH]; simpl.
  - split; [discriminate | congruence].
  - rewrite (String.eqb_sym n (cname c)).
    destruct (String.eqb (cname c) n); simpl; [split; [discriminate | reflexivity]|].
    exact IH.
Qed.

Lemma has_column_false (n : string) (df : DataFrame) :
  has_column n df = false <-> lookup n df = None.
Proof.
  pose proof (has_column_lookup n df) as [H1 H2].
  destruct (has_column n df), (lookup n df); split; intros; try congruence.
  - exfalso. apply H1; reflexivity.
  - assert (false = true) by (apply H2; discriminate). discriminate.
Qed.

Lemma lookup_In (n : string) (df : DataFrame) (d : coldata) :
  lookup n df = Some d -> In (mkcol n d) df.
Proof.
  induction df as [|c df IH]; simpl; [discriminate|].
  destruct (String.eqb (cname c) n) eqn:E.
  - intros [= <-]. apply String.eqb_eq in E. subst n. left. destruct c; reflexivity.
  - intros H. right. apply IH. exact H.
Qed.

Lemma lookup_names (n : string) (df : DataFrame) :
  lookup n df <> None <-> In n (names df).
Proof.
  unfold names. induction df as [|c df IH]; simpl.
  - split; [congruence | tauto].
  - destruct (String.eqb (cname c) n) eqn:E.
    + apply String.eqb_eq in E. split; [auto | discriminate].
    + apply String.eqb_neq in E. rewrite IH. split; [auto | intros [?|?]; congruence].
Qed.

Lemma lookup_app (n : string) (df1 df2 : DataFrame) :
  lookup n (df1 ++ df2) =
  match lookup n df1 with Some d => Some d | None => lookup n df2 end.
Proof.
  induction df1 as [|c df1 IH]; simpl; [reflexivity|].
  destruct (String.eqb (cname c) n); [reflexivity | exact IH].
Qed.

Lemma lookup_set_column_same (n : string) (d : coldata) (df : DataFrame) :
  lookup n (set_column n d df) = Some d.
Proof.
  unfold set_column. destruct (has_column n df) eqn:E.
  - apply has_column_lookup in E.
    induction df as [|c df IH]; simpl in *; [congruence|].
    destruct (String.eqb (cname c) n) eqn:En; simpl.
    + rewrite String.eqb_refl. reflexivity.
    + rewrite En. apply IH. exact E.
  - apply has_column_false in E. rewrite lookup_app, E. simpl.
    rewrite String.eqb_refl. reflexivity.
Qed.

Lemma lookup_set_column_other (x n : string) (d : coldata) (df : DataFrame) :
  x <> n -> lookup x (set_column n d df) = lookup x df.
Proof.
  intros Hx. unfold set_column. destruct (has_column n df).
  - induction df as [|c df IH]; simpl; [reflexivity|].
    destruct (String.eqb (cname c) n) eqn:En; simpl.
    + apply String.eqb_eq in En. subst n.
      destruct (String.eqb (cname c) x) eqn:Ex.
      * apply String.eqb_eq in Ex. congruence.
      * exact IH.
    + destruct (String.eqb (cname c) x); [reflexivity | exact IH].
  - rewrite lookup_app. destruct (lookup x df); [reflexivity|]. simpl.
    destruct (String.eqb n x) eqn:E; [|reflexivity].
    apply String.eqb_eq in E. congruence.
Qed.

Lemma lookup_drop_same (n : string) (df : DataFrame) : lookup n (drop n df) = None.
Proof.
  unfold drop. induction df as [|c df IH]; simpl; [reflexivity|].
  destruct (String.eqb (cname c) n) eqn:E; simpl; [exact IH|].
  rewrite E. exact IH.
Qed.

Lemma lookup_drop_other (x n : string) (df : DataFrame) :
  x <> n -> lookup x (drop n df) = lookup x df.
Proof.
  intros Hx. unfold drop. induction df as [|c df IH]; simpl; [reflexivity|].
  destruct (String.eqb (cname c) n) eqn:E; simpl.
  - apply String.eqb_eq in E.
    destruct (String.eqb (cname c) x) eqn:Ex; [|exact IH].
    apply String.eqb_eq in Ex. congruence.
  - destruct (String.eqb (cname c) x); [reflexivity | exact IH].
Qed.

Lemma drop_set_column (n : string) (d : coldata) (df : DataFrame) :
  drop n (set_column n d df) = drop n df.
Proof.
  unfold set_column, drop. destruct (has_column n df).
  - induction df as [|c df IH]; simpl; [reflexivity|].
    destruct (String.eqb (cname c) n) eqn:E; simpl.
    + rewrite String.eqb_refl. simpl. exact IH.
    + rewrite E. simpl. f_equal. exact IH.
  - rewrite filter_app. simpl. rewrite String.eqb_refl. simpl. apply app_nil_r.
Qed.

(** Renaming the columns by a map that fixes [key] and sends no other name
    to it leaves [df[key]] in place. *)
Lemma lookup_map_rename (key : string) (g : string -> string)
    (h : coldata -> coldata) (df : DataFrame) :
  g key = key -> (forall n, g n = key -> n = key) ->
  lookup key (map (fun c => mkcol (g (cname c)) (h (cdata c))) df) =
  option_map h (lookup key df).
Proof.
  intros Hk Hg. induction df as [|c df IH]; simpl; [reflexivity|].
  destruct (String.eqb (cname c) key) eqn:E.
  - apply String.eqb_eq in E. rewrite E, Hk, String.eqb_refl. reflexivity.
  - destruct (String.eqb (g (cname c)) key) eqn:E'; [|exact IH].
    apply String.eqb_eq in E'. apply Hg in E'. apply String.eqb_neq in E. congruence.
Qed.

Lemma names_set_column (n : string) (d : coldata) (df : DataFrame) :
  names (set_column n d df) = if has_column n df then names df else names df ++ [n].
Proof.
  unfold set_column, names. destruct (has_column n df).
  - induction df as [|c df IH]; simpl; [reflexivity|].
    destruct (String.eqb (cname c) n) eqn:E; simpl; rewrite IH; [|reflexivity].
    apply String.eqb_eq in E. congruence.
  - rewrite map_app. reflexivity.
Qed.

Lemma names_drop (n : string) (df : DataFrame) :
  names (drop n df) = filter (fun x => negb (String.eqb x n)) (names df).
Proof.
  unfold drop, names. induction df as [|c df IH]; simpl; [reflexivity|].
  destruct (String.eqb (cname c) n); simpl; rewrite IH; reflexivity.
Qed.

Lemma distinct_NoDup (l : list string) : distinct l = true <-> NoDup l.
Proof.
  induction l as [|x l IH]; simpl.
  - split; [constructor | reflexivity].
  - rewrite andb_true_iff, negb_true_iff, IH. split.
    + intros [Hx Hl]. constructor; [|exact Hl].
      intros Hin. assert (existsb (String.eqb x) l = true); [|congruence].
      apply existsb_exists. exists x. split; [exact Hin | apply String.eqb_refl].
    + intros H. inversion H as [|? ? Hx Hl]; subst. split; [|exact Hl].
      destruct (existsb (String.eqb x) l) eqn:E; [|reflexivity].
      apply existsb_exists in E. destruct E as [y [Hy E]].
      apply String.eqb_eq in E. subst y. contradiction.
Qed.

Lemma NoDup_filter {A : Type} (f : A -> bool) (l : list A) :
  NoDup l -> NoDup (filter f l).
Proof.
  induction 1 as [|x l Hx Hl IH]; simpl; [constructor|].
  destruct (f x); [|exact IH].
  constructor; [|exact IH]. rewrite filter_In. tauto.
Qed.

Lemma empty_key_cells (df : DataFrame) : empty df = true -> key_cells df = [].
Proof.
  unfold empty, key_cells. intros H.
  destruct (lookup vm_uuid df) as [d|] eqn:E; [|reflexivity].
  apply lookup_In in E. rewrite forallb_forall in H.
  specialize (H _ E). simpl in H. apply Nat.eqb_eq in H.
  destruct (cells_of d); [reflexivity | discriminate].
Qed.

End FrameFacts.

(* ================================================================= *)
(** ** Unit normaliser *)

Section UnitColumns.

Variable sel : string -> bool.

Lemma unit_columns_In (c : string) (df : DataFrame) :
  In c (unit_columns sel df) -> sel c = true /\ In c (names df).
Proof.
  unfold unit_columns, names. intros H. apply in_map_iff in H.
  destruct H as [col [<- H]]. apply filter_In in H. destruct H as [Hin H].
  apply andb_true_iff in H. split; [tauto | apply in_map, Hin].
Qed.

Lemma unit_columns_lookup (c : string) (df : DataFrame) (vs : list (option Q)) :
  lookup c df = Some (NumCol vs) -> sel c = true -> In c (unit_columns sel df).
Proof.
  intros H Hs. apply lookup_In in H. unfold unit_columns.
  apply in_map_iff. exists (mkcol c (NumCol vs)). split; [reflexivity|].
  apply filter_In. split; [exact H|]. simpl. rewrite Hs. reflexivity.
Qed.

Lemma unit_columns_NoDup (df : DataFrame) :
  NoDup (names df) -> NoDup (unit_columns sel df).
Proof.
  unfold unit_columns, names. induction df as [|c df IH]; simpl; intros H; [constructor|].
  inversion H as [|? ? Hc Hdf]; subst.
  destruct (sel (cname c) && is_numeric_dtype (cdata c))%bool; simpl; [|apply IH, Hdf].
  constructor; [|apply IH, Hdf].
  intros Hin. apply Hc. apply in_map_iff in Hin. destruct Hin as [c' [E Hin]].
  apply filter_In in Hin. apply in_map_iff. exists c'. tauto.
Qed.

End UnitColumns.

Section PassFacts.

Variable rename : string -> string.
Variable d : Z.

Let step := convert_column rename d.
Let converted (vs : list (option Q)) := convert_values d vs.

Lemma convert_column_frame (x col : string) (df : DataFrame) :
  x <> col -> x <> rename col -> lookup x (step df col) = lookup x df.
Proof.
  intros H1 H2. unfold step, convert_column.
  destruct (lookup col df) as [[vs|l]|]; try reflexivity.
  rewrite lookup_drop_other, lookup_set_column_other; auto.
Qed.

Lemma convert_column_absent (x col : string) (df : DataFrame) :
  lookup x df = None -> rename col <> x -> lookup x (step df col) = None.
Proof.
  intros H1 H2. destruct (string_dec x col) as [->|Hne].
  - unfold step, convert_column. rewrite H1. exact H1.
  - rewrite convert_column_frame; auto.
Qed.

Lemma convert_column_dropped (col : string) (df : DataFrame) (vs : list (option Q)) :
  lookup col df = Some (NumCol vs) -> lookup col (step df col) = None.
Proof.
  intros H. unfold step, convert_column. rewrite H. apply lookup_drop_same.
Qed.

Lemma convert_column_written (col : string) (df : DataFrame) (vs : list (option Q)) :
  lookup col df = Some (NumCol vs) -> rename col <> col ->
  lookup (rename col) (step df col) = Some (converted vs).
Proof.
  intros H Hne. unfold step, convert_column. rewrite H.
  rewrite lookup_drop_other by exact Hne. apply lookup_set_column_same.
Qed.

(** With an unchanged name the iteration writes the column back and drops
    it: nothing of it is left. *)
Lemma convert_column_unrenamed (col : string) (df : DataFrame) (vs : list (option Q)) :
  lookup col df = Some (NumCol vs) -> rename col = col -> step df col = drop col df.
Proof.
  intros H Hr. unfold step, convert_column. rewrite H, Hr. apply drop_set_column.
Qed.

Lemma convert_column_NoDup (col : string) (df : DataFrame) :
  NoDup (names df) -> NoDup (names (step df col)).
Proof.
  intros H. unfold step, convert_column.
  destruct (lookup col df) as [[vs|l]|]; try exact H.
  rewrite names_drop. apply NoDup_filter. rewrite names_set_column.
  destruct (has_column (rename col) df) eqn:E; [exact H|].
  apply NoDup_app; [exact H | repeat constructor; simpl; tauto|].
  intros x Hx [<-|[]]. apply has_column_false in E.
  apply lookup_names in Hx. contradiction.
Qed.

Lemma fold_frame (cs : list string) (x : string) (df : DataFrame) :
  (forall c, In c cs -> c <> x /\ rename c <> x) ->
  lookup x (fold_left step cs df) = lookup x df.
Proof.
  revert df. induction cs as [|c cs IH]; intros df H; simpl; [reflexivity|].
  rewrite IH by (intros; apply H; right; assumption).
  destruct (H c (or_introl eq_refl)). apply convert_column_frame; auto.
Qed.

Lemma fold_absent (cs : list string) (x : string) (df : DataFrame) :
  lookup x df = None -> (forall c, In c cs -> rename c <> x) ->
  lookup x (fold_left step cs df) = None.
Proof.
  revert df. induction cs as [|c cs IH]; intros df H0 H; simpl; [exact H0|].
  apply IH; [|intros; apply H; right; assumption].
  apply convert_column_absent; [exact H0 | apply H; left; reflexivity].
Qed.

Lemma fold_NoDup (cs : list string) (df : DataFrame) :
  NoDup (names df) -> NoDup (names (fold_left step cs df)).
Proof.
  revert df. induction cs as [|c cs IH]; intros df H; simpl; [exact H|].
  apply IH, convert_column_NoDup, H.
Qed.

(** The column [c] of a loop over [pre ++ c :: post]. *)
Lemma fold_target (pre post : list string) (c : string) (vs : list (option Q))
    (df : DataFrame) :
  ~ In c pre -> ~ In c post ->
  lookup c df = Some (NumCol vs) ->
  (forall c', In c' (pre ++ post) -> rename c' <> c) ->
  lookup c (fold_left step (pre ++ c :: post) df) = None
  /\ (rename c <> c -> ~ In (rename c) post ->
      (forall c', In c' post -> rename c' <> rename c) ->
      lookup (rename c) (fold_left step (pre ++ c :: post) df) = Some (converted vs)).
Proof.
  intros Hpre Hpost Hc Hr. rewrite fold_left_app. simpl.
  assert (H1 : lookup c (fold_left step pre df) = Some (NumCol vs)).
  { rewrite fold_frame; [exact Hc|]. intros c' Hc'. split.
    - intros ->. contradiction.
    - apply Hr, in_or_app. left. exact Hc'. }
  split.
  - apply fold_absent.
    + eapply convert_column_dropped, H1.
    + intros c' Hc'. apply Hr, in_or_app. right. exact Hc'.
  - intros Hne Hn Hpost'. rewrite fold_frame.
    + apply convert_column_written; assumption.
    + intros c' Hc'. split; [intros ->; contradiction | apply Hpost', Hc'].
Qed.

Variable sel : string -> bool.

(** A column of the loop is gone after it, unless another column of the loop
    is renamed to its name. *)
Lemma pass_removed (df : DataFrame) (c : string) (vs : list (option Q)) :
  NoDup (names df) ->
  lookup c df = Some (NumCol vs) -> sel c = true ->
  (forall c', In c' (unit_columns sel df) -> c' <> c -> rename c' <> c) ->
  lookup c (convert_pass sel rename d df) = None.
Proof.
  intros Hnd Hc Hs Hr. unfold convert_pass.
  pose proof (unit_columns_lookup sel c df vs Hc Hs) as Hin.
  pose proof (unit_columns_NoDup sel df Hnd) as Hnd'.
  apply in_split in Hin. destruct Hin as [pre [post E]].
  rewrite E in *. pose proof (NoDup_remove_2 _ _ _ Hnd') as Hn.
  apply (fold_target pre post c vs df); try assumption.
  - intros H. apply Hn, in_or_app. left. exact H.
  - intros H. apply Hn, in_or_app. right. exact H.
  - intros c' Hc'. apply Hr.
    + apply in_app_iff in Hc'. apply in_app_iff. simpl. tauto.
    + intros ->. contradiction.
Qed.

(** The converted values stand under the derived name after the loop, unless
    that name is itself a column of the loop or derived from another one. *)
Lemma pass_written (df : DataFrame) (c : string) (vs : list (option Q)) :
  NoDup (names df) ->
  lookup c df = Some (NumCol vs) -> sel c = true ->
  rename c <> c ->
  ~ In (rename c) (unit_columns sel df) ->
  (forall c', In c' (unit_columns sel df) -> c' <> c ->
              rename c' <> c /\ rename c' <> rename c) ->
  lookup (rename c) (convert_pass sel rename d df) = Some (converted vs).
Proof.
  intros Hnd Hc Hs Hne Hfresh Hr. unfold convert_pass.
  pose proof (unit_columns_lookup sel c df vs Hc Hs) as Hin.
  pose proof (unit_columns_NoDup sel df Hnd) as Hnd'.
  apply in_split in Hin. destruct Hin as [pre [post E]].
  rewrite E in *. pose proof (NoDup_remove_2 _ _ _ Hnd') as Hn.
  assert (Hmem : forall c', In c' (pre ++ post) -> In c' (pre ++ c :: post) /\ c' <> c).
  { intros c' Hc'. split.
    - apply in_app_iff in Hc'. apply in_app_iff. simpl. tauto.
    - intros ->. contradiction. }
  apply (fold_target pre post c vs df); try assumption.
  - intros H. apply Hn, in_or_app. left. exact H.
  - intros H. apply Hn, in_or_app. right. exact H.
  - intros c' Hc'. destruct (Hmem c' Hc') as [H1 H2]. apply (Hr c' H1 H2).
  - intros H. apply Hfresh, in_or_app. right. right. exact H.
  - intros c' Hc'.
    destruct (Hmem c' (in_or_app _ _ _ (or_intror Hc'))) as [H1 H2].
    apply (Hr c' H1 H2).
Qed.

Lemma pass_frame (df : DataFrame) (x : string) :
  (forall c, In c (unit_columns sel df) -> c <> x /\ rename c <> x) ->
  lookup x (convert_pass sel rename d df) = lookup x df.
Proof. apply fold_frame. Qed.

Lemma pass_absent (df : DataFrame) (x : string) :
  lookup x df = None ->
  (forall c, In c (unit_columns sel df) -> rename c <> x) ->
  lookup x (convert_pass sel rename d df) = None.
Proof. apply fold_absent. Qed.

Lemma pass_NoDup (df : DataFrame) :
  NoDup (names df) -> NoDup (names (convert_pass sel rename d df)).
Proof. apply fold_NoDup. Qed.

Lemma pass_nothing (df : DataFrame) :
  unit_columns sel df = [] -> convert_pass sel rename d df = df.
Proof. unfold convert_pass. intros ->. reflexivity. Qed.

End PassFacts.

Section NormalizerFacts.

(** The Entity Key column goes through the normaliser untouched. *)
Lemma convert_keeps_key (df : DataFrame) :
  lookup vm_uuid (convert_mib_to_gb df) = lookup vm_uuid df.
Proof.
  unfold convert_mib_to_gb, mb_pass, mib_pass.
  rewrite pass_frame; [rewrite pass_frame; [reflexivity|]|].
  - intros c Hc. apply unit_columns_In in Hc. destruct Hc as [Hs _]. split.
    + intros ->. discriminate.
    + intros H. apply rename_mib_key in H. subst c. discriminate.
  - intros c Hc. apply unit_columns_In in Hc. destruct Hc as [Hs _]. split.
    + intros ->. discriminate.
    + intros H. apply rename_mb_key in H. subst c. discriminate.
Qed.

Lemma convert_key_cells (df : DataFrame) :
  key_cells (convert_mib_to_gb df) = key_cells df.
Proof. unfold key_cells. rewrite convert_keeps_key. reflexivity. Qed.


(** A table without a column to convert passes through unchanged. *)
Lemma convert_nothing (df : DataFrame) :
  mib_columns df = [] -> mb_columns df = [] -> convert_mib_to_gb df = df.
Proof.
  intros H1 H2. unfold convert_mib_to_gb, mib_pass, mb_pass.
  rewrite (pass_nothing _ _ _ df H1). apply pass_nothing, H2.
Qed.

Lemma rename_mib_unmarked (c : string) :
  contains " MiB" c = false -> contains "_MiB" c = false -> contains "MiB" c = false ->
  rename_mib c = c.
Proof.
  intros H1 H2 H3. unfold rename_mib.
  rewrite (replace_absent " MiB" " GB" c H1), (replace_absent "_MiB" "_GB" c H2).
  apply replace_absent, H3.
Qed.

Lemma rename_mb_unmarked (c : string) :
  contains " MB" c = false -> contains "_MB" c = false -> contains "MB" c = false ->
  rename_mb c = c.
Proof.
  intros H1 H2 H3. unfold rename_mb.
  rewrite (replace_absent " MB" " GB" c H1), (replace_absent "_MB" "_GB" c H2).
  apply replace_absent, H3.
Qed.

End NormalizerFacts.

(** The float model on known values: 0.1 is [0x1.999999999999ap-4], 1.5 is
    exact, and the integer [2^53 + 1] is rounded to the even neighbour. *)
Lemma float64_known_values :
  Float64.nearest (1 # 10)%Q = Some (3602879701896397 # 36028797018963968)%Q
  /\ Float64.nearest (3 # 2)%Q = Some (3 # 2)%Q
  /\ Float64.to_Q (Float64.of_Z 9007199254740993) = Some (9007199254740992 # 1)%Q
  /\ Float64.to_Q (Float64.rint (Float64.of_Q (5 # 2)%Q)) = Some (2 # 1)%Q
  /\ Float64.to_Q (Float64.rint (Float64.of_Q (7 # 2)%Q)) = Some (4 # 1)%Q.
Proof. vm_compute. repeat split; reflexivity. Qed.

(** C5, as stated, fails: the derived name depends on the separator of the
    source name.  ['Size MiB'] becomes ['Size GB'], but ['Size_MiB'] and
    ['SizeMiB'] become ['Size_GB']. *)
Lemma normalizer_separator_counterexample :
  let table (col : string) :=
    [mkcol "VM UUID" (Examples.strs ["u1"]); mkcol col (Examples.nums [2048%Z])] in
  names (convert_mib_to_gb (table "Size MiB")) = ["VM UUID"; "Size GB"]
  /\ names (convert_mib_to_gb (table "Size_MiB")) = ["VM UUID"; "Size_GB"]
  /\ names (convert_mib_to_gb (table "SizeMiB")) = ["VM UUID"; "Size_GB"]
  /\ ~ (names (convert_mib_to_gb (table "Size MiB"))
        = names (convert_mib_to_gb (table "Size_MiB"))).
Proof. vm_compute. repeat split; discriminate. Qed.

(** C5 (amended).  On a table with unique column names:
    - a numeric column [c] whose name has the marker ['mib'] (any case) and
      is changed by the case-sensitive renaming [' MiB' -> ' GB'],
      ['_MiB' -> '_GB'], ['MiB' -> '_GB'] is absent from the output, and the
      output holds under the derived name the values divided by 1024 and
      rounded to two decimals, provided no other converted column is renamed
      to the old or to the derived name and the derived name is not itself
      the name of a column that is converted;
    - the same for the marker ['mb'] without ['mbps'], the renaming
      [' MB' -> ' GB'], ['_MB' -> '_GB'], ['MB' -> '_GB'] and the divisor
      1000, on the table as the first loop leaves it;
    - the derived name keeps a space, and has an underscore for an underscore
      or for no separator;
    - the division and the rounding are those of float64: the quotient is
      rounded to the nearest float, and [round(2)] is [rint(x * 100) / 100]
      on floats.  So 2048 MiB are 2 GB and 1500 MB are 1.5 GB, but 1015 MB
      are 1.01 GB, not 1.02, and 1035 MB are 1.03 GB, not 1.04: the floats
      nearest to 1.015 and 1.035 lie below them. *)
Theorem normalizer_converts_marked_columns (df : DataFrame) :
  NoDup (names df) ->
  (forall c vs,
      lookup c df = Some (NumCol vs) ->
      is_mib_name c = true ->
      rename_mib c <> c ->
      ~ In (rename_mib c) (mib_columns df) ->
      (forall c', In c' (mib_columns df) -> c' <> c ->
                  rename_mib c' <> c /\ rename_mib c' <> rename_mib c) ->
      (forall c', In c' (mb_columns (mib_pass df)) ->
                  c' <> rename_mib c /\ rename_mb c' <> c
                  /\ rename_mb c' <> rename_mib c) ->
      lookup (rename_mib c) (convert_mib_to_gb df)
      = Some (convert_values 1024 vs)
      /\ lookup c (convert_mib_to_gb df) = None)
  /\ (forall c vs,
         lookup c (mib_pass df) = Some (NumCol vs) ->
         is_mb_name c = true ->
         rename_mb c <> c ->
         ~ In (rename_mb c) (mb_columns (mib_pass df)) ->
         (forall c', In c' (mb_columns (mib_pass df)) -> c' <> c ->
                     rename_mb c' <> c /\ rename_mb c' <> rename_mb c) ->
         lookup (rename_mb c) (convert_mib_to_gb df)
         = Some (convert_values 1000 vs)
         /\ lookup c (convert_mib_to_gb df) = None)
  /\ (rename_mib "Size MiB" = "Size GB" /\ rename_mib "Size_MiB" = "Size_GB"
      /\ rename_mib "SizeMiB" = "Size_GB")
  /\ (rename_mb "Size MB" = "Size GB" /\ rename_mb "Size_MB" = "Size_GB"
      /\ rename_mb "SizeMB" = "Size_GB")
  /\ (forall d q,
         div_round d q
         = Float64.to_Q
             (Float64.div
                (Float64.rint
                   (Float64.mul (Float64.div (Float64.of_Q q) (Float64.of_Z d))
                                (Float64.of_Z 100)))
                (Float64.of_Z 100)))
  /\ (div_round 1024 (2048 # 1)%Q = Some (2 # 1)%Q
      /\ div_round 1000 (1500 # 1)%Q = Some (3 # 2)%Q
      /\ div_round 1000 (1015 # 1)%Q = Float64.nearest (101 # 100)%Q
      /\ div_round 1000 (1035 # 1)%Q = Float64.nearest (103 # 100)%Q
      /\ Float64.nearest (101 # 100)%Q <> Float64.nearest (102 # 100)%Q
      /\ Float64.nearest (103 # 100)%Q <> Float64.nearest (104 # 100)%Q).
Proof.
  intros Hnd.
  split; [|split; [|split; [|split; [|split]]]];
    [| |repeat split; reflexivity|repeat split; reflexivity|reflexivity|
     repeat split; try reflexivity; vm_compute; discriminate].
  - intros c vs Hc Hs Hne Hfresh Hmib Hmb.
    unfold convert_mib_to_gb, mb_pass. split.
    + rewrite pass_frame.
      * apply (pass_written rename_mib 1024 is_mib_name df c vs); assumption.
      * intros c' Hc'. destruct (Hmb c' Hc') as [H1 [H2 H3]]. split; assumption.
    + apply pass_absent.
      * apply (pass_removed rename_mib 1024 is_mib_name df c vs); try assumption.
        intros c' H1 H2. apply (Hmib c' H1 H2).
      * intros c' Hc'. destruct (Hmb c' Hc') as [H1 [H2 H3]]. exact H2.
  - intros c vs Hc Hs Hne Hfresh Hmb.
    pose proof (pass_NoDup rename_mib 1024 is_mib_name df Hnd) as Hnd'.
    unfold convert_mib_to_gb, mb_pass. split.
    + apply (pass_written rename_mb 1000 is_mb_name _ c vs); assumption.
    + apply (pass_removed rename_mb 1000 is_mb_name _ c vs); try assumption.
      intros c' H1 H2. apply (Hmb c' H1 H2).
Qed.

Lemma normalizer_converts_marked_columns_witness :
  lookup "Size GB" (convert_mib_to_gb Examples.sizes)
  = Some (convert_values 1024 [Some (2048 # 1)%Q; Some (100 # 1)%Q])
  /\ lookup "Capacity GB" (convert_mib_to_gb Examples.sizes)
     = Some (convert_values 1000 [Some (1500 # 1)%Q; Some (10 # 1)%Q])
  /\ convert_values 1024 [Some (2048 # 1)%Q; Some (100 # 1)%Q]
     = NumCol [Some (2 # 1)%Q; Float64.nearest (1 # 10)%Q]
  /\ convert_values 1000 [Some (1500 # 1)%Q; Some (10 # 1)%Q]
     = NumCol [Some (3 # 2)%Q; Float64.nearest (1 # 100)%Q].
Proof.
  assert (Hnd : NoDup (names Examples.sizes)).
  { apply distinct_NoDup. reflexivity. }
  destruct (normalizer_converts_marked_columns Examples.sizes Hnd) as [Hmib [Hmb _]].
  split; [|split; [|split; reflexivity]].
  - refine (proj1 (Hmib "Size MiB" _ eq_refl eq_refl _ _ _ _)).
    + vm_compute. discriminate.
    + vm_compute. intuition discriminate.
    + vm_compute. intros c' H Hne. intuition (subst; try discriminate; try congruence).
    + vm_compute. intros c' H. intuition (subst; discriminate).
  - refine (proj1 (Hmb "Capacity MB" _ eq_refl eq_refl _ _ _)).
    + vm_compute. discriminate.
    + vm_compute. intuition discriminate.
    + vm_compute. intros c' H Hne. intuition (subst; try discriminate; try congruence).
Defined.

(** C6: a second run of the normaliser is not a no-op on every table.  The
    column ['Number MB'] becomes ['Number GB'] in the first run; the lower
    case of that name still has ['mb'] (in "number"), so the second run
    selects it, writes it back under its own name and drops it. *)
Theorem normalizer_second_run_drops_column :
  convert_mib_to_gb Examples.number_mb
  = [mkcol "VM UUID" (Examples.strs ["u1"]); mkcol "Number GB" (NumCol [Some (3 # 2)%Q])]
  /\ convert_mib_to_gb (convert_mib_to_gb Examples.number_mb)
     = [mkcol "VM UUID" (Examples.strs ["u1"])]
  /\ convert_mib_to_gb (convert_mib_to_gb Examples.number_mb)
     <> convert_mib_to_gb Examples.number_mb.
Proof. vm_compute. repeat split; discriminate. Qed.

(** C9, as stated, fails: ['mib GB'] has the marker in lower case only and
    is dropped, but the later column ['mib MiB'] is renamed to that very
    name, so the output has a column ['mib GB'] again. *)
Lemma normalizer_unrenamed_counterexample :
  lookup "mib GB" Examples.mib_twice = Some (Examples.nums [1%Z])
  /\ is_mib_name "mib GB" = true
  /\ contains " MiB" "mib GB" = false
  /\ contains "_MiB" "mib GB" = false
  /\ contains "MiB" "mib GB" = false
  /\ convert_mib_to_gb Examples.mib_twice
     = [mkcol "VM UUID" (Examples.strs ["u1"]); mkcol "mib GB" (NumCol [Some (2 # 1)%Q])]
  /\ has_column "mib GB" (convert_mib_to_gb Examples.mib_twice) = true.
Proof. vm_compute. repeat split; reflexivity. Qed.

(** C9 (amended).  On a table with unique column names, a numeric column [c]
    whose lower-case name has ['mib'] but whose name has none of [' MiB'],
    ['_MiB'], ['MiB'] (respectively ['mb'] without ['mbps'], and none of
    [' MB'], ['_MB'], ['MB']) is absent from the output, provided no other
    converted column is renamed to the name of [c].  Its derived name is its
    own name, and its iteration of the loop is exactly the removal of the
    column: no gigabyte column is produced for it. *)
Theorem normalizer_drops_unrenamed_column (df : DataFrame) (c : string)
    (vs : list (option Q)) :
  NoDup (names df) ->
  lookup c df = Some (NumCol vs) ->
  (is_mib_name c = true /\ contains " MiB" c = false
   /\ contains "_MiB" c = false /\ contains "MiB" c = false)
  \/ (is_mb_name c = true /\ contains " MB" c = false
      /\ contains "_MB" c = false /\ contains "MB" c = false) ->
  (forall c', In c' (mib_columns df) -> c' <> c -> rename_mib c' <> c) ->
  (forall c', In c' (mb_columns (mib_pass df)) -> c' <> c -> rename_mb c' <> c) ->
  lookup c (convert_mib_to_gb df) = None
  /\ (is_mib_name c = true -> contains " MiB" c = false ->
      contains "_MiB" c = false -> contains "MiB" c = false ->
      rename_mib c = c
      /\ forall df' vs', lookup c df' = Some (NumCol vs') ->
                         convert_column rename_mib 1024 df' c = drop c df')
  /\ (is_mb_name c = true -> contains " MB" c = false ->
      contains "_MB" c = false -> contains "MB" c = false ->
      rename_mb c = c
      /\ forall df' vs', lookup c df' = Some (NumCol vs') ->
                         convert_column rename_mb 1000 df' c = drop c df').
Proof.
  intros Hnd Hc Hmark Hmib Hmb. split; [|split].
  - unfold convert_mib_to_gb, mb_pass.
    destruct (is_mib_name c) eqn:Emib.
    + apply pass_absent.
      * apply (pass_removed rename_mib 1024 is_mib_name df c vs); assumption.
      * intros c' Hc'. apply Hmb; [exact Hc'|].
        intros ->. apply unit_columns_In in Hc'. destruct Hc' as [_ Hin].
        apply lookup_names in Hin. apply Hin.
        apply (pass_removed rename_mib 1024 is_mib_name df c vs); assumption.
    + destruct Hmark as [[H _]|[Hs _]]; [discriminate|].
      assert (Hc1 : lookup c (mib_pass df) = Some (NumCol vs)).
      { unfold mib_pass. rewrite pass_frame; [exact Hc|].
        intros c' Hc'. assert (Hne : c' <> c).
        { intros ->. apply unit_columns_In in Hc'. destruct Hc' as [E _]. congruence. }
        split; [exact Hne | apply Hmib; assumption]. }
      apply (pass_removed rename_mb 1000 is_mb_name _ c vs); try assumption.
      apply pass_NoDup, Hnd.
  - intros _ H1 H2 H3. pose proof (rename_mib_unmarked c H1 H2 H3) as Hr.
    split; [exact Hr|]. intros df' vs' Hc'.
    apply (convert_column_unrenamed rename_mib 1024 c df' vs' Hc' Hr).
  - intros _ H1 H2 H3. pose proof (rename_mb_unmarked c H1 H2 H3) as Hr.
    split; [exact Hr|]. intros df' vs' Hc'.
    apply (convert_column_unrenamed rename_mb 1000 c df' vs' Hc' Hr).
Qed.

Lemma normalizer_drops_unrenamed_column_witness :
  lookup "Low mib" (convert_mib_to_gb Examples.sizes) = None
  /\ rename_mib "Low mib" = "Low mib".
Proof.
  assert (Hnd : NoDup (names Examples.sizes)).
  { apply distinct_NoDup. reflexivity. }
  assert (H : lookup "Low mib" Examples.sizes = Some (NumCol [Some (7 # 1)%Q; Some (8 # 1)%Q])).
  { reflexivity. }
  destruct (normalizer_drops_unrenamed_column Examples.sizes "Low mib" _ Hnd H)
    as [H1 [H2 _]].
  - left. vm_compute. repeat split; reflexivity.
  - vm_compute. intros c' Hc' Hne. intuition (subst; try discriminate; congruence).
  - vm_compute. intros c' Hc' Hne. intuition (subst; try discriminate; congruence).
  - split; [exact H1|]. apply H2; reflexivity.
Defined.

(* ================================================================= *)
(** ** Aggregation operations *)

Section ConcatUnique.

Lemma all_strings_map (l : list string) : all_strings (map VStr l) = Ok l.
Proof.
  induction l as [|s l IH]; simpl; [reflexivity|]. rewrite IH. reflexivity.
Qed.

Lemma unique_NoDup (l : list value) : NoDup (unique l).
Proof.
  induction l as [|v l IH]; simpl; constructor.
  - rewrite filter_In. intros [_ H]. unfold value_eqb in H.
    destruct (value_eq_dec v v); [discriminate | congruence].
  - apply NoDup_filter, IH.
Qed.

Lemma unique_In (l : list value) (v : value) : In v (unique l) <-> In v l.
Proof.
  induction l as [|w l IH]; simpl; [tauto|].
  rewrite filter_In, IH. unfold value_eqb.
  destruct (value_eq_dec w v) as [->|Hne]; simpl.
  - tauto.
  - split; [tauto|]. intros [H|H]; [congruence | right; split; [exact H | reflexivity]].
Qed.

Lemma dropna_In (l : list cell) (v : value) : In v (dropna l) <-> In (Some v) l.
Proof.
  induction l as [|[w|] l IH]; simpl.
  - tauto.
  - rewrite IH. split; intros [H|H]; auto; left; congruence.
  - rewrite IH. split; [auto | intros [H|H]; [discriminate | exact H]].
Qed.

(** The lambda of the rule table on a group of strings and nulls: the
    distinct strings in first-seen order, joined by [' | ']; the empty string
    for a group without a string. *)
Lemma join_unique_strings (x : list (option string)) :
  agg_group AggJoinUnique (map (option_map VStr) x)
  = Ok (Some (VStr (join " | "
                      (flat_map (fun v => match v with VStr s => [s] | VNum _ => [] end)
                                (unique (dropna (map (option_map VStr) x))))))).
Proof.
  unfold agg_group. set (vs := dropna (map (option_map VStr) x)).
  assert (Hvs : forall v, In v (unique vs) -> exists s, v = VStr s).
  { intros v Hv. apply unique_In, dropna_In, in_map_iff in Hv.
    destruct Hv as [[s|] [E _]]; [|discriminate]. injection E as <-. eauto. }
  destruct (0 <? List.length vs) eqn:E.
  - unfold join_values. revert Hvs. generalize (unique vs) as u.
    intros u Hu.
    assert (Hs : all_strings u
                 = Ok (flat_map (fun v => match v with VStr s => [s] | VNum _ => [] end) u)).
    { induction u as [|v u IH]; [reflexivity|]. simpl.
      destruct (Hu v (or_introl eq_refl)) as [s ->].
      rewrite IH by (intros; apply Hu; right; assumption). reflexivity. }
    rewrite Hs. reflexivity.
  - apply Nat.ltb_ge in E. destruct vs; [reflexivity | simpl in E; lia].
Qed.

End ConcatUnique.

(** C7: the concat-unique operation of a text column without a rule returns
    null, not ["a"], on the group [[null, "a"]]: with a single non-null value
    it returns [x.iloc[0]], the first cell of the group.  The operation of
    the rule table returns ["a"] on this group, and both return ["x | y"] on
    [["x", "x", "y", null]] and the empty string on a group of nulls. *)
Theorem default_concat_returns_leading_null :
  text_rule "Notes" = AggJoinDefault
  /\ agg_group AggJoinDefault [None; Some (VStr "a")] = Ok None
  /\ text_rule "Network" = AggJoinUnique
  /\ agg_group AggJoinUnique [None; Some (VStr "a")] = Ok (Some (VStr "a"))
  /\ agg_group AggJoinDefault [Some (VStr "x"); Some (VStr "x"); Some (VStr "y"); None]
     = Ok (Some (VStr "x | y"))
  /\ agg_group AggJoinUnique [Some (VStr "x"); Some (VStr "x"); Some (VStr "y"); None]
     = Ok (Some (VStr "x | y"))
  /\ agg_group AggJoinDefault [None; None] = Ok (Some (VStr ""))
  /\ agg_group AggJoinUnique [None; None] = Ok (Some (VStr ""))
  /\ aggregate_vm_data
       [mkcol "VM UUID" (Examples.strs ["u1"; "u1"]);
        mkcol "Notes" (ObjCol [None; Some (VStr "a")]);
        mkcol "Network" (ObjCol [None; Some (VStr "a")])]
     = [mkcol "VM UUID" (Examples.strs ["u1"]);
        mkcol "Notes" (NumCol [None]);
        mkcol "Network" (ObjCol [Some (VStr "a")])].
Proof.
  repeat split; reflexivity.
Qed.

(* ================================================================= *)
(** ** Aggregator *)

(** C3: when the grouped aggregation raises, the result is not the first
    row observed per key.  On [numeric_network] the rule of 'Network' joins
    strings and raises on the numbers; the fallback [groupby(...).first()]
    then takes, column by column, the first value that is not null: the
    result has the name ["web"] of the second record next to the network
    [1] of the first.  The first row observed has no name.  Unit
    normalisation is applied, and no exception leaves the aggregator. *)
Theorem fallback_mixes_rows :
  aggregate_grouped Examples.numeric_network vm_uuid = Raise
  /\ aggregate_vm_data Examples.numeric_network
     = [mkcol "VM UUID" (Examples.strs ["u1"]);
        mkcol "Network" (NumCol [Some (1 # 1)%Q]);
        mkcol "VM" (ObjCol [Some (VStr "web")]);
        mkcol "Size GB" (NumCol [Some (1 # 1)%Q])]
  /\ convert_mib_to_gb (spec_first_row_per_key Examples.numeric_network vm_uuid)
     = [mkcol "VM UUID" (Examples.strs ["u1"]);
        mkcol "Network" (NumCol [Some (1 # 1)%Q]);
        mkcol "VM" (ObjCol [None]);
        mkcol "Size GB" (NumCol [Some (1 # 1)%Q])]
  /\ aggregate_vm_data Examples.numeric_network
     <> convert_mib_to_gb (spec_first_row_per_key Examples.numeric_network vm_uuid).
Proof. vm_compute. repeat split; discriminate. Qed.

Section Sorting.

Lemma insert_sorted_perm (v : value) (l : list value) :
  Permutation (insert_sorted v l) (v :: l).
Proof.
  induction l as [|w l IH]; simpl; [reflexivity|].
  destruct (value_leb v w); [reflexivity|].
  rewrite IH. apply perm_swap.
Qed.

Lemma sort_values_perm (l : list value) : Permutation (sort_values l) l.
Proof.
  induction l as [|v l IH]; simpl; [reflexivity|].
  rewrite insert_sorted_perm. constructor. exact IH.
Qed.

Lemma group_keys_NoDup (keys : list cell) : NoDup (group_keys keys).
Proof.
  unfold group_keys.
  apply (Permutation_NoDup (Permutation_sym (sort_values_perm _))), unique_NoDup.
Qed.

Lemma group_keys_In (keys : list cell) (v : value) :
  In v (group_keys keys) <-> In (Some v) keys.
Proof.
  unfold group_keys. split; intros H.
  - apply dropna_In, unique_In.
    apply (Permutation_in _ (sort_values_perm _) H).
  - apply dropna_In, unique_In in H.
    apply (Permutation_in _ (Permutation_sym (sort_values_perm _)) H).
Qed.

End Sorting.

Section AggregatorKeys.

Lemma cells_key_column (kd : coldata) :
  cells_of (key_column kd (group_keys (cells_of kd)))
  = map Some (group_keys (cells_of kd)).
Proof.
  unfold key_column, make_column. destruct kd as [l|l]; simpl; [|reflexivity].
  rewrite !map_map.
  apply map_ext_in. intros v Hv. apply group_keys_In in Hv.
  simpl in Hv. apply in_map_iff in Hv. destruct Hv as [[q|] [E _]]; [|discriminate].
  injection E as <-. reflexivity.
Qed.

Lemma groupby_first_key (df r : DataFrame) (key : string) :
  groupby_first df key = Ok r ->
  exists kd, lookup key df = Some kd
             /\ lookup key r = Some (key_column kd (group_keys (cells_of kd))).
Proof.
  unfold groupby_first. destruct (lookup key df) as [kd|]; [|discriminate].
  intros [= <-]. exists kd. split; [reflexivity|].
  simpl. rewrite String.eqb_refl. reflexivity.
Qed.

Lemma groupby_agg_key (df r : DataFrame) (key : string) (dict : list (string * agg_op)) :
  groupby_agg df key dict = Ok r ->
  exists kd, lookup key df = Some kd
             /\ lookup key r = Some (key_column kd (group_keys (cells_of kd))).
Proof.
  unfold groupby_agg. destruct (lookup key df) as [kd|]; [|discriminate].
  destruct (map_result _ dict) as [cols|]; [|discriminate].
  intros [= <-]. exists kd. split; [reflexivity|].
  simpl. rewrite String.eqb_refl. reflexivity.
Qed.

Lemma groupby_first_total (df : DataFrame) (key : string) :
  has_column key df = true -> exists r, groupby_first df key = Ok r.
Proof.
  intros H. apply has_column_lookup in H. unfold groupby_first.
  destruct (lookup key df); [eauto | congruence].
Qed.

Lemma grouped_key_cells (df r : DataFrame) :
  aggregate_grouped df vm_uuid = Ok r \/
  (exists r', groupby_first df vm_uuid = Ok r' /\ r = convert_mib_to_gb r') ->
  key_cells r = map Some (group_keys (key_cells df)).
Proof.
  assert (Hk : forall r' kd, lookup vm_uuid df = Some kd ->
                 lookup vm_uuid r' = Some (key_column kd (group_keys (cells_of kd))) ->
                 key_cells (convert_mib_to_gb r') = map Some (group_keys (key_cells df))).
  { intros r' kd H1 H2. rewrite convert_key_cells. unfold key_cells.
    rewrite H1, H2. apply cells_key_column. }
  intros [H | [r' [H ->]]].
  - unfold aggregate_grouped in H. destruct (agg_dict df vm_uuid).
    + destruct (groupby_first df vm_uuid) as [r'|] eqn:E; [|discriminate].
      injection H as <-. apply groupby_first_key in E. destruct E as [kd [H1 H2]].
      eapply Hk; eassumption.
    + destruct (groupby_agg df vm_uuid (p :: l)) as [r'|] eqn:E; [|discriminate].
      injection H as <-. apply groupby_agg_key in E. destruct E as [kd [H1 H2]].
      eapply Hk; eassumption.
  - apply groupby_first_key in H. destruct H as [kd [H1 H2]].
    eapply Hk; eassumption.
Qed.

(** The key column of the aggregator's output. *)
Lemma aggregate_key_cells (df : DataFrame) :
  has_column vm_uuid df = true ->
  key_cells (aggregate_vm_data df)
  = if orb (empty df) (max_count_is_one (value_counts (key_cells df)))
    then key_cells df
    else map Some (group_keys (key_cells df)).
Proof.
  intros Hk. unfold aggregate_vm_data, aggregate_vm_data_on. rewrite Hk. simpl.
  destruct (empty df); [reflexivity|]. simpl.
  change (match lookup vm_uuid df with Some d => cells_of d | None => [] end)
    with (key_cells df).
  destruct (max_count_is_one (value_counts (key_cells df))); [apply convert_key_cells|].
  destruct (aggregate_grouped df vm_uuid) as [r|] eqn:E.
  - apply grouped_key_cells. left. exact E.
  - destruct (groupby_first_total df vm_uuid Hk) as [r' E'].
    rewrite E'. apply grouped_key_cells. right. eauto.
Qed.

Lemma max_count_bound (keys : list cell) (v : value) :
  max_count_is_one (value_counts keys) = true -> count_key v keys <= 1.
Proof.
  unfold max_count_is_one. intros H.
  destruct (in_dec value_eq_dec v (unique (dropna keys))) as [Hin|Hout].
  - destruct (value_counts keys) eqn:E; [discriminate|]. rewrite <- E in H.
    apply Nat.eqb_eq in H.
    assert (Hle : list_max (map snd (value_counts keys)) <= 1) by lia.
    apply list_max_le in Hle. rewrite Forall_forall in Hle. apply Hle.
    unfold value_counts. rewrite map_map. simpl.
    apply in_map_iff. exists v. split; [reflexivity | exact Hin].
  - unfold count_key. rewrite unique_In, dropna_In in Hout.
    rewrite (proj1 (count_occ_not_In cell_eq_dec keys (Some v)) Hout). lia.
Qed.

End AggregatorKeys.

(** C1, as stated, fails for the null key: with a single record per keyed
    VM the aggregator takes the path without grouping, and the two rows
    without a key are both in its output.  The Entity Key is not unique per
    row of the output ([Series.is_unique] is false for it). *)
Lemma aggregator_null_key_counterexample :
  has_column vm_uuid Examples.null_keys = true
  /\ key_cells (aggregate_vm_data Examples.null_keys) = [Some (VStr "u1"); None; None]
  /\ count_occ cell_eq_dec (key_cells (aggregate_vm_data Examples.null_keys)) None = 2
  /\ ~ NoDup (key_cells (aggregate_vm_data Examples.null_keys)).
Proof.
  repeat split; try reflexivity.
  intros H. apply (NoDup_count_occ cell_eq_dec) with (x := None) in H.
  vm_compute in H. lia.
Qed.

(* ================================================================= *)
(** ** Merger *)

Section BaseSelection.

Variable csv_data : list (string * DataFrame).

Lemma qualifies_usable (cat : string) : qualifies csv_data cat = true <-> usable csv_data cat.
Proof.
  unfold qualifies, usable. split.
  - destruct (assoc cat csv_data) as [df|]; [|discriminate].
    intros H. apply andb_true_iff in H. destruct H as [H1 H2].
    apply negb_true_iff in H1. eauto.
  - intros [df [-> [H1 H2]]]. rewrite H1, H2. reflexivity.
Qed.

Lemma find_first (options : list string) (b : string) :
  find (qualifies csv_data) options = Some b <->
  exists pre post, options = pre ++ b :: post
                   /\ usable csv_data b
                   /\ forall x, In x pre -> ~ usable csv_data x.
Proof.
  induction options as [|o options IH]; simpl.
  - split; [discriminate|]. intros [pre [post [E _]]]. destruct pre; discriminate.
  - destruct (qualifies csv_data o) eqn:Eo.
    + split.
      * intros [= <-]. exists [], options. apply qualifies_usable in Eo.
        repeat split; [exact Eo | intros x []].
      * intros [pre [post [E [Hb Hpre]]]]. destruct pre as [|p pre].
        -- injection E as -> _. reflexivity.
        -- injection E as -> _. exfalso. apply (Hpre p (or_introl eq_refl)).
           apply qualifies_usable, Eo.
    + rewrite IH. split.
      * intros [pre [post [-> [Hb Hpre]]]]. exists (o :: pre), post.
        repeat split; [exact Hb|]. intros x [<-|Hx]; [|apply Hpre, Hx].
        intros H. apply qualifies_usable in H. congruence.
      * intros [pre [post [E [Hb Hpre]]]]. destruct pre as [|p pre].
        -- injection E as <- _. apply qualifies_usable in Hb. congruence.
        -- injection E as _ ->. exists pre, post.
           repeat split; [exact Hb|]. intros x Hx. apply Hpre. right. exact Hx.
Qed.

Lemma find_none (options : list string) :
  (forall x, In x options -> ~ usable csv_data x) ->
  find (qualifies csv_data) options = None.
Proof.
  intros H. destruct (find (qualifies csv_data) options) as [b|] eqn:E; [|reflexivity].
  apply find_some in E. destruct E as [Hin Hq]. apply qualifies_usable in Hq.
  exfalso. apply (H b Hin Hq).
Qed.

End BaseSelection.

(** C4.  The base is the first category of the list ['cpu', 'info',
    'memory', 'disk', 'network', 'tools'] that is present, not empty and has
    the Entity Key column; the merge starts from its aggregated table.  When
    no category of the list qualifies, the merger returns the empty frame,
    whatever other tables the mapping holds. *)
Theorem merger_base_selection (csv_data : list (string * DataFrame)) :
  base_options = ["cpu"; "info"; "memory"; "disk"; "network"; "tools"]
  /\ (forall b, find_base csv_data = Some b <->
                exists pre post, base_options = pre ++ b :: post
                                 /\ usable csv_data b
                                 /\ forall x, In x pre -> ~ usable csv_data x)
  /\ (forall b base, find_base csv_data = Some b -> assoc b csv_data = Some base ->
                     merge_all_vm_data csv_data
                     = if empty (aggregate_vm_data base) then []
                       else fst (fold_left (merge_one b) csv_data
                                   (prefix_columns b (aggregate_vm_data base), 1)))
  /\ ((forall x, In x base_options -> ~ usable csv_data x) ->
      find_base csv_data = None /\ merge_all_vm_data csv_data = []).
Proof.
  split; [reflexivity|]. split; [|split].
  - intros b. apply find_first.
  - intros b base Hb Ha. unfold merge_all_vm_data.
    destruct csv_data; [discriminate|]. rewrite Hb, Ha. reflexivity.
  - intros H. pose proof (find_none csv_data base_options H) as Hn.
    split; [exact Hn|]. unfold merge_all_vm_data. unfold find_base in Hn.
    unfold find_base. rewrite Hn. destruct csv_data; reflexivity.
Qed.

Lemma merger_base_selection_witness :
  find_base Examples.export = Some "cpu"
  /\ find_base Examples.only_nic = None
  /\ merge_all_vm_data Examples.only_nic = [].
Proof.
  split.
  - apply (proj1 (proj2 (merger_base_selection Examples.export))).
    exists [], ["info"; "memory"; "disk"; "network"; "tools"].
    repeat split.
    + exists Examples.cpu. repeat split; reflexivity.
    + intros x [].
  - apply (proj2 (proj2 (proj2 (merger_base_selection Examples.only_nic)))).
    intros x Hx [df [Ha _]]. simpl in Hx.
    repeat (destruct Hx as [<-|Hx]; [discriminate Ha|]). exact Hx.
Defined.

Section MergeKeys.

Lemma key_cells_prefix (cat : string) (df : DataFrame) :
  lookup vm_uuid (prefix_columns cat df) = lookup vm_uuid df.
Proof.
  pose (g := fun n => if String.eqb n vm_uuid then n else (cat ++ "_" ++ n)%string).
  pose (h := fun d : coldata => d).
  assert (E : prefix_columns cat df = map (fun c => mkcol (g (cname c)) (h (cdata c))) df).
  { apply map_ext. intros [n d]. unfold g, h. simpl.
    destruct (String.eqb n vm_uuid); reflexivity. }
  rewrite E, (lookup_map_rename vm_uuid g h).
  - destruct (lookup vm_uuid df); reflexivity.
  - reflexivity.
  - intros n. unfold g. destruct (String.eqb n vm_uuid) eqn:En; [tauto|].
    intros H. exfalso. apply (underscore_not_key _ _ H).
Qed.

Lemma cells_of_take_rows (idx : list (option nat)) (d : coldata) :
  cells_of (take_rows idx d)
  = map (fun oi => match oi with Some i => nth i (cells_of d) None | None => None end) idx.
Proof.
  destruct d as [l|l]; simpl; [|reflexivity].
  rewrite map_map. apply map_ext. intros [i|]; [|reflexivity].
  symmetry. apply (map_nth (option_map VNum) l None i).
Qed.

Lemma combine_seq_nth (l : list cell) (s i : nat) (k : cell) :
  In (i, k) (combine (seq s (List.length l)) l) ->
  s <= i /\ nth (i - s) l None = k.
Proof.
  revert s. induction l as [|c l IH]; intros s; simpl; [tauto|].
  intros [[= <- <-]|H].
  - rewrite Nat.sub_diag. split; [lia | reflexivity].
  - apply IH in H. destruct H as [H1 H2]. split; [lia|].
    replace (i - s) with (S (i - S s)) by lia. exact H2.
Qed.

Lemma combine_seq_In (l : list cell) (s : nat) (k : cell) :
  In k l -> exists i, In (i, k) (combine (seq s (List.length l)) l).
Proof.
  revert s. induction l as [|c l IH]; intros s; simpl; [tauto|].
  intros [->|H].
  - exists s. left. reflexivity.
  - destruct (IH (S s) H) as [i Hi]. exists i. right. exact Hi.
Qed.

(** The left rows of a left join: each one at least once, and no other. *)
Lemma join_rows_keys (lkeys rkeys : list cell) (k : cell) :
  In k (map (fun p => nth (fst p) lkeys None) (join_rows lkeys rkeys)) <-> In k lkeys.
Proof.
  unfold join_rows. rewrite in_map_iff. split.
  - intros [p [<- Hp]]. apply in_flat_map in Hp. destruct Hp as [[i c] [Hic Hp]].
    assert (E : fst p = i).
    { cbn [fst snd] in Hp. destruct (matching_rows c rkeys) as [|j0 js].
      - destruct Hp as [<-|[]]. reflexivity.
      - apply (in_map_iff (fun j => (i, Some j))) in Hp.
        destruct Hp as [j [<- _]]. reflexivity. }
    rewrite E. pose proof (in_combine_r _ _ _ _ Hic) as Hc.
    apply combine_seq_nth in Hic. destruct Hic as [_ Hn].
    rewrite Nat.sub_0_r in Hn. rewrite Hn. exact Hc.
  - intros Hk. destruct (combine_seq_In lkeys 0 k Hk) as [i Hi].
    pose proof (combine_seq_nth _ _ _ _ Hi) as [_ Hn]. rewrite Nat.sub_0_r in Hn.
    exists (i, match matching_rows k rkeys with [] => None | j :: _ => Some j end).
    split; [exact Hn|]. apply in_flat_map. exists (i, k). split; [exact Hi|].
    simpl. destruct (matching_rows k rkeys); simpl; auto.
Qed.

Lemma suffixed_key (suffix : string) (other : list string) :
  suffixed vm_uuid suffix other vm_uuid = vm_uuid.
Proof. unfold suffixed. rewrite String.eqb_refl. reflexivity. Qed.

Lemma suffixed_x_key (other : list string) (n : string) :
  suffixed vm_uuid "_x" other n = vm_uuid -> n = vm_uuid.
Proof.
  unfold suffixed. destruct (_ && _)%bool; [|auto].
  intros H. exfalso. apply (underscore_not_key n "x" H).
Qed.

Lemma merge_left_key (left right merged : DataFrame) :
  merge_left left right vm_uuid = Ok merged ->
  exists lk rk,
    lookup vm_uuid left = Some lk /\ lookup vm_uuid right = Some rk
    /\ key_cells merged
       = map (fun p => nth (fst p) (cells_of lk) None)
             (join_rows (cells_of lk) (cells_of rk)).
Proof.
  unfold merge_left.
  destruct (lookup vm_uuid left) as [lk|] eqn:El; [|discriminate].
  destruct (lookup vm_uuid right) as [rk|] eqn:Er; [|discriminate].
  destruct (negb _); [discriminate|].
  destruct (orb _ _); [discriminate|].
  intros [= <-]. exists lk, rk. repeat split.
  unfold key_cells. rewrite lookup_app.
  rewrite (lookup_map_rename vm_uuid (suffixed vm_uuid "_x" (names right))
             (take_rows (map (fun p => Some (fst p)) (join_rows (cells_of lk) (cells_of rk))))).
  - rewrite El. simpl. rewrite cells_of_take_rows, map_map. reflexivity.
  - apply suffixed_key.
  - apply suffixed_x_key.
Qed.

Lemma merge_left_keys (left right merged : DataFrame) (k : cell) :
  merge_left left right vm_uuid = Ok merged ->
  In k (key_cells merged) <-> In k (key_cells left).
Proof.
  intros H. apply merge_left_key in H. destruct H as [lk [rk [El [_ ->]]]].
  unfold key_cells. rewrite El. apply join_rows_keys.
Qed.

Lemma merge_one_keys (base_key : string) (st : DataFrame * nat)
    (item : string * DataFrame) (k : cell) :
  In k (key_cells (fst (merge_one base_key st item))) <-> In k (key_cells (fst st)).
Proof.
  unfold merge_one. destruct st as [result_df merged_count], item as [data_type df].
  destruct (_ || _)%bool; [reflexivity|].
  destruct (empty (aggregate_vm_data df)); [reflexivity|].
  destruct (merge_left _ _ _) as [merged|] eqn:E; [|reflexivity].
  simpl. apply (merge_left_keys _ _ _ k E).
Qed.

Lemma merge_fold_keys (base_key : string) (items : list (string * DataFrame))
    (st : DataFrame * nat) (k : cell) :
  In k (key_cells (fst (fold_left (merge_one base_key) items st)))
  <-> In k (key_cells (fst st)).
Proof.
  revert st. induction items as [|item items IH]; intros st; simpl; [reflexivity|].
  rewrite IH. apply merge_one_keys.
Qed.

End MergeKeys.

(** C2.  When a base qualifies, the Entity Key values of the merged table
    are exactly those of the base table after aggregation: a left join adds
    no key of another category, and a category that is empty, fails to
    aggregate or fails to join is skipped without touching the rows. *)
Theorem merge_key_conservation (csv_data : list (string * DataFrame))
    (base : DataFrame) (k : cell) :
  base_table csv_data = Some base ->
  In k (key_cells (merge_all_vm_data csv_data)) <-> In k (key_cells base).
Proof.
  unfold base_table, merge_all_vm_data.
  destruct csv_data as [|item items] eqn:Ecsv; [discriminate|]. rewrite <- Ecsv.
  destruct (find_base csv_data) as [base_key|]; [|discriminate].
  destruct (assoc base_key csv_data) as [df|]; [|discriminate].
  intros [= <-].
  destruct (empty (aggregate_vm_data df)) eqn:Ee.
  - rewrite (empty_key_cells _ Ee). reflexivity.
  - rewrite merge_fold_keys. simpl. unfold key_cells.
    rewrite key_cells_prefix. reflexivity.
Qed.

Lemma merge_key_conservation_witness :
  (In (Some (VStr "u2")) (key_cells (merge_all_vm_data Examples.export)))
  /\ ~ In (Some (VStr "u3")) (key_cells (merge_all_vm_data Examples.export)).
Proof.
  assert (H : base_table Examples.export = Some (aggregate_vm_data Examples.cpu)).
  { reflexivity. }
  split.
  - apply (merge_key_conservation Examples.export _ (Some (VStr "u2")) H).
    vm_compute. auto.
  - intros Hin.
    apply (merge_key_conservation Examples.export _ (Some (VStr "u3")) H) in Hin.
    vm_compute in Hin. intuition discriminate.
Defined.

(* ================================================================= *)
(** ** Column order *)


Section ColumnOrder.







Lemma aggregate_skip (df : DataFrame) :
  has_column vm_uuid df = true -> empty df = false ->
  max_count_is_one (value_counts (key_cells df)) = true ->
  aggregate_vm_data df = convert_mib_to_gb df.
Proof.
  intros Hk He Hm. unfold aggregate_vm_data, aggregate_vm_data_on.
  rewrite Hk, He. simpl.
  change (match lookup vm_uuid df with Some d => cells_of d | None => [] end)
    with (key_cells df).
  rewrite Hm. reflexivity.
Qed.



Lemma merge_left_names (left right merged : DataFrame) :
  merge_left left right vm_uuid = Ok merged ->
  names merged
  = map (suffixed vm_uuid "_x" (names right)) (names left)
    ++ map (suffixed vm_uuid "_y" (names left)) (names (drop vm_uuid right)).
Proof.
  unfold merge_left.
  destruct (lookup vm_uuid left); [|discriminate].
  destruct (lookup vm_uuid right); [|discriminate].
  destruct (negb _); [discriminate|].
  destruct (orb _ _); [discriminate|].
  intros [= <-]. unfold names. rewrite map_app, !map_map. reflexivity.
Qed.


End ColumnOrder.

Section Shaper.



Lemma names_filter_rows (mask : list bool) (df : DataFrame) :
  names (filter_rows mask df) = names df.
Proof. unfold names, filter_rows. rewrite map_map. reflexivity. Qed.

Lemma power_filter_names (include_all : bool) (df filtered : DataFrame) :
  apply_power_filter include_all df = Ok filtered -> names filtered = names df.
Proof.
  unfold apply_power_filter. destruct (_ || _)%bool; [intros [= <-]; reflexivity|].
  destruct (find _ _) as [power_col|]; [|intros [= <-]; reflexivity].
  destruct (lookup power_col df) as [[l|l]|]; try discriminate.
  destruct (string_values l); [|discriminate].
  intros [= <-]. apply names_filter_rows.
Qed.

Lemma names_select_columns (cols : list string) (df : DataFrame) :
  names (select_columns cols df) = filter (fun col => has_column col df) cols.
Proof.
  unfold select_columns, names. induction cols as [|c cols IH]; simpl; [reflexivity|].
  rewrite map_app, IH.
  destruct (lookup c df) as [d|] eqn:E.
  - assert (H : has_column c df = true) by (apply has_column_lookup; congruence).
    rewrite H. reflexivity.
  - apply has_column_false in E. rewrite E. reflexivity.
Qed.

Lemma dedup_In (l : list string) (x : string) : In x (dedup l) -> In x l.
Proof.
  induction l as [|y l IH]; simpl; [tauto|].
  intros [H|H]; [auto|]. apply filter_In in H. right. apply IH, H.
Qed.

Lemma exact_matches_In (cols patterns : list string) (x : string) :
  In x (exact_matches cols patterns) -> In x cols.
Proof.
  unfold exact_matches. intros H. apply in_flat_map in H.
  destruct H as [p [_ H]]. apply filter_In in H. tauto.
Qed.

Lemma firstn_subset {A : Type} (n : nat) (l : list A) (x : A) :
  In x (firstn n l) -> In x l.
Proof.
  intros H. rewrite <- (firstn_skipn n l). apply in_or_app. left. exact H.
Qed.

Lemma fallback_In (cols patterns : list string) (acc : list string) (x : string) :
  (forall y, In y acc -> In y cols) ->
  In x (fold_left (add_fallback cols) patterns acc) -> In x cols.
Proof.
  revert acc. induction patterns as [|p patterns IH]; intros acc Hacc; simpl; [apply Hacc|].
  apply IH. intros y Hy. unfold add_fallback in Hy. apply in_app_iff in Hy.
  destruct Hy as [Hy|Hy]; [apply Hacc, Hy|].
  apply firstn_subset, filter_In in Hy. tauto.
Qed.

Lemma fallback_head (cols patterns : list string) (x : string) (acc : list string) :
  exists rest, fold_left (add_fallback cols) patterns (x :: acc) = x :: rest.
Proof.
  revert acc. induction patterns as [|p patterns IH]; intros acc; simpl; [eauto|].
  unfold add_fallback at 2. rewrite <- app_comm_cons. apply IH.
Qed.

Lemma essential_In (cols : list string) (x : string) :
  In x (essential_columns cols) -> In x cols.
Proof.
  unfold essential_columns.
  set (found := dedup _).
  assert (Hf : forall y, In y found -> In y cols).
  { intros y Hy. apply dedup_In in Hy. rewrite !in_app_iff in Hy.
    destruct Hy as [Hy|[Hy|Hy]]; try (eapply exact_matches_In; eassumption).
    destruct (existsb (String.eqb vm_uuid) cols) eqn:E; [|destruct Hy].
    destruct Hy as [<-|[]]. apply existsb_exists in E. destruct E as [z [Hz E]].
    apply String.eqb_eq in E. congruence. }
  destruct (List.length found <? 5); [|apply Hf].
  apply fallback_In, Hf.
Qed.

Lemma essential_head (cols : list string) :
  In vm_uuid cols -> exists rest, essential_columns cols = vm_uuid :: rest.
Proof.
  intros Hin. unfold essential_columns.
  assert (E : existsb (String.eqb vm_uuid) cols = true).
  { apply existsb_exists. exists vm_uuid. split; [exact Hin | apply String.eqb_refl]. }
  rewrite E. rewrite <- app_comm_cons.
  change (dedup (vm_uuid :: ?l))
    with (vm_uuid :: filter (fun y => negb (String.eqb vm_uuid y)) (dedup l)).
  destruct (_ <? 5); [apply fallback_head | eauto].
Qed.

Lemma filter_all {A : Type} (f : A -> bool) (l : list A) :
  (forall x, In x l -> f x = true) -> filter f l = l.
Proof.
  induction l as [|x l IH]; intros H; simpl; [reflexivity|].
  rewrite (H x (or_introl eq_refl)), IH; [reflexivity|].
  intros y Hy. apply H. right. exact Hy.
Qed.

(** In the filtered mode the output has the columns of the shaper's list,
    in its order. *)
Lemma filter_output_names (df : DataFrame) :
  names (filter_output_columns false df) = essential_columns (names df).
Proof.
  unfold filter_output_columns. rewrite names_select_columns.
  assert (H : forall x, In x (essential_columns (names df)) -> has_column x df = true).
  { intros x Hx. apply essential_In in Hx. apply has_column_lookup, lookup_names, Hx. }
  rewrite (filter_all _ _ H). apply filter_all.
  exact H.
Qed.

End Shaper.


(* ================================================================= *)
(** ** Rows without a key *)

Section NullKeys.

Lemma keep_rows_map {A B : Type} (f : A -> B) (mask : list bool) (l : list A) :
  keep_rows mask (map f l) = map f (keep_rows mask l).
Proof.
  revert l. induction mask as [|b mask IH]; intros [|x l]; simpl; try reflexivity.
  destruct b; simpl; rewrite IH; reflexivity.
Qed.

Lemma cells_of_keep_data (mask : list bool) (d : coldata) :
  cells_of (keep_data mask d) = keep_rows mask (cells_of d).
Proof.
  destruct d as [l|l]; simpl; [|reflexivity]. symmetry. apply keep_rows_map.
Qed.

Lemma numeric_keep_data (mask : list bool) (d : coldata) :
  is_numeric_dtype (keep_data mask d) = is_numeric_dtype d.
Proof. destruct d; reflexivity. Qed.

Lemma lookup_filter_rows (mask : list bool) (n : string) (df : DataFrame) :
  lookup n (filter_rows mask df) = option_map (keep_data mask) (lookup n df).
Proof.
  unfold filter_rows. induction df as [|c df IH]; simpl; [reflexivity|].
  destruct (String.eqb (cname c) n); [reflexivity | exact IH].
Qed.

Lemma dropna_keep (keys : list cell) :
  dropna (keep_rows (map is_some keys) keys) = dropna keys.
Proof.
  induction keys as [|[v|] keys IH]; simpl; [reflexivity | rewrite IH; reflexivity | exact IH].
Qed.

Lemma count_key_keep (keys : list cell) (v : value) :
  count_key v (keep_rows (map is_some keys) keys) = count_key v keys.
Proof.
  unfold count_key. induction keys as [|[w|] keys IH]; simpl; [reflexivity | |].
  - destruct (cell_eq_dec (Some w) (Some v)); rewrite IH; reflexivity.
  - destruct (cell_eq_dec None (Some v)); [discriminate | exact IH].
Qed.

Lemma group_cells_keep (g : value) (keys cells : list cell) :
  group_cells g (keep_rows (map is_some keys) keys) (keep_rows (map is_some keys) cells)
  = group_cells g keys cells.
Proof.
  unfold group_cells. revert cells.
  induction keys as [|k keys IH]; intros [|c cells]; simpl; try reflexivity.
  - rewrite combine_nil. reflexivity.
  - specialize (IH cells). destruct k as [w|]; simpl.
    + destruct (cell_eqb (Some w) (Some g)); simpl; rewrite IH; reflexivity.
    + exact IH.
Qed.

Lemma map_result_ext {A B : Type} (f g : A -> result B) (l : list A) :
  (forall x, In x l -> f x = g x) -> map_result f l = map_result g l.
Proof.
  induction l as [|x l IH]; intros H; simpl; [reflexivity|].
  rewrite (H x (or_introl eq_refl)), IH; [reflexivity|].
  intros y Hy. apply H. right. exact Hy.
Qed.

Lemma shape_keep_data (op : agg_op) (mask : list bool) (d : coldata) (cells : list cell) :
  shape_column op (keep_data mask d) cells = shape_column op d cells.
Proof. destruct op; simpl; rewrite ?numeric_keep_data; reflexivity. Qed.

Lemma agg_column_keep (op : agg_op) (keys : list cell) (gkeys : list value) (d : coldata) :
  agg_column op (keep_rows (map is_some keys) keys) gkeys
    (keep_data (map is_some keys) d)
  = agg_column op keys gkeys d.
Proof.
  unfold agg_column. rewrite cells_of_keep_data.
  rewrite (map_result_ext _ (fun g => agg_group op (group_cells g keys (cells_of d)))).
  - destruct (map_result _ gkeys); simpl; [|reflexivity].
    rewrite shape_keep_data. reflexivity.
  - intros g _. rewrite group_cells_keep. reflexivity.
Qed.

Lemma filter_names_filter_rows (p : coldata -> bool) (mask : list bool) (df : DataFrame) :
  (forall d, p (keep_data mask d) = p d) ->
  map cname (filter (fun c => p (cdata c)) (filter_rows mask df))
  = map cname (filter (fun c => p (cdata c)) df).
Proof.
  intros Hp. unfold filter_rows. induction df as [|c df IH]; simpl; [reflexivity|].
  rewrite Hp. destruct (p (cdata c)); simpl; rewrite IH; reflexivity.
Qed.

Lemma agg_dict_filter_rows (mask : list bool) (df : DataFrame) (key : string) :
  agg_dict (filter_rows mask df) key = agg_dict df key.
Proof.
  unfold agg_dict, numeric_cols, text_cols.
  rewrite (filter_names_filter_rows is_numeric_dtype mask df (numeric_keep_data mask)).
  rewrite (filter_names_filter_rows (fun d => negb (is_numeric_dtype d)) mask df).
  - reflexivity.
  - intros d. rewrite numeric_keep_data. reflexivity.
Qed.

Lemma drop_filter_rows (mask : list bool) (key : string) (df : DataFrame) :
  drop key (filter_rows mask df) = filter_rows mask (drop key df).
Proof.
  unfold drop, filter_rows. induction df as [|c df IH]; simpl; [reflexivity|].
  destruct (String.eqb (cname c) key); simpl; rewrite IH; reflexivity.
Qed.

Variable df : DataFrame.
Variable kd : coldata.
Hypothesis Hkd : lookup vm_uuid df = Some kd.

Let keys := cells_of kd.
Let mask := map is_some keys.

Lemma key_cells_eq : key_cells df = keys.
Proof. unfold key_cells. rewrite Hkd. reflexivity. Qed.

Lemma dropna_rows_lookup_key :
  lookup vm_uuid (dropna_key_rows df) = Some (keep_data mask kd).
Proof.
  unfold dropna_key_rows. rewrite lookup_filter_rows, Hkd, key_cells_eq. reflexivity.
Qed.

Lemma dropna_rows_group_keys :
  group_keys (cells_of (keep_data mask kd)) = group_keys keys.
Proof.
  unfold group_keys. rewrite cells_of_keep_data. unfold mask. rewrite dropna_keep.
  reflexivity.
Qed.

Lemma dropna_rows_key_column :
  key_column (keep_data mask kd) (group_keys (cells_of (keep_data mask kd)))
  = key_column kd (group_keys keys).
Proof.
  rewrite dropna_rows_group_keys. unfold key_column.
  rewrite numeric_keep_data. reflexivity.
Qed.

Lemma dropna_rows_value_counts :
  value_counts (cells_of (keep_data mask kd)) = value_counts keys.
Proof.
  unfold value_counts. rewrite cells_of_keep_data. unfold mask.
  rewrite dropna_keep. apply map_ext. intros v. rewrite count_key_keep. reflexivity.
Qed.

Lemma dropna_rows_groupby_first :
  groupby_first (dropna_key_rows df) vm_uuid = groupby_first df vm_uuid.
Proof.
  unfold groupby_first. rewrite dropna_rows_lookup_key, Hkd.
  fold keys. rewrite dropna_rows_key_column, dropna_rows_group_keys.
  do 2 f_equal. unfold dropna_key_rows. rewrite key_cells_eq. fold mask.
  rewrite drop_filter_rows. unfold filter_rows. rewrite map_map.
  apply map_ext. intros c. simpl. rewrite numeric_keep_data. f_equal. f_equal.
  apply map_ext. intros g. rewrite !cells_of_keep_data. unfold mask.
  rewrite group_cells_keep. reflexivity.
Qed.

Lemma dropna_rows_groupby_agg (dict : list (string * agg_op)) :
  groupby_agg (dropna_key_rows df) vm_uuid dict = groupby_agg df vm_uuid dict.
Proof.
  unfold groupby_agg. rewrite dropna_rows_lookup_key, Hkd.
  fold keys. rewrite dropna_rows_key_column, dropna_rows_group_keys.
  rewrite (map_result_ext _
             (fun co => match lookup (fst co) df with
                        | None => Raise
                        | Some d => c <- agg_column (snd co) keys (group_keys keys) d ;;
                                    Ok (mkcol (fst co) c)
                        end)); [reflexivity|].
  intros co _. unfold dropna_key_rows. rewrite lookup_filter_rows, key_cells_eq.
  destruct (lookup (fst co) df) as [d|]; simpl; [|reflexivity].
  rewrite cells_of_keep_data. fold mask. unfold mask.
  rewrite agg_column_keep. reflexivity.
Qed.

Lemma dropna_rows_aggregate_grouped :
  aggregate_grouped (dropna_key_rows df) vm_uuid = aggregate_grouped df vm_uuid.
Proof.
  unfold aggregate_grouped.
  assert (E : agg_dict (dropna_key_rows df) vm_uuid = agg_dict df vm_uuid).
  { apply agg_dict_filter_rows. }
  rewrite E, dropna_rows_groupby_first, dropna_rows_groupby_agg. reflexivity.
Qed.

End NullKeys.

Section GroupingCondition.

Lemma list_max_In (l : list nat) (x : nat) : In x l -> x <= list_max l.
Proof.
  intros H. pose proof (proj1 (list_max_le l (list_max l)) (Nat.le_refl _)) as Hf.
  rewrite Forall_forall in Hf. apply Hf, H.
Qed.

(** Every keyed VM has one record: the path without grouping. *)
Lemma max_count_single (keys : list cell) :
  (exists v, In (Some v) keys) -> (forall v, count_key v keys <= 1) ->
  max_count_is_one (value_counts keys) = true.
Proof.
  intros [v Hv] Hle. unfold max_count_is_one.
  assert (Hin : In (v, count_key v keys) (value_counts keys)).
  { unfold value_counts. apply in_map_iff. exists v. split; [reflexivity|].
    apply unique_In, dropna_In, Hv. }
  destruct (value_counts keys) as [|p vc] eqn:E; [destruct Hin|]. rewrite <- E in *.
  apply Nat.eqb_eq. apply Nat.le_antisymm.
  - apply list_max_le, Forall_forall. intros n Hn. apply in_map_iff in Hn.
    destruct Hn as [[w c] [<- Hn]]. unfold value_counts in Hn.
    apply in_map_iff in Hn. destruct Hn as [w' [[= <- <-] _]]. apply Hle.
  - assert (H1 : 1 <= count_key v keys).
    { unfold count_key. apply (count_occ_In cell_eq_dec). exact Hv. }
    apply (Nat.le_trans _ _ _ H1). apply list_max_In.
    apply in_map_iff. exists (v, count_key v keys). split; [reflexivity | exact Hin].
Qed.

(** A VM with several records: the grouping path. *)
Lemma max_count_repeated (keys : list cell) (v : value) :
  2 <= count_key v keys -> max_count_is_one (value_counts keys) = false.
Proof.
  intros H. destruct (max_count_is_one (value_counts keys)) eqn:E; [|reflexivity].
  pose proof (max_count_bound keys v E). lia.
Qed.

Lemma dropna_all_null (keys : list cell) :
  (forall v, ~ In (Some v) keys) -> dropna keys = [].
Proof.
  induction keys as [|[w|] keys IH]; intros H; simpl; [reflexivity | |].
  - exfalso. apply (H w). left. reflexivity.
  - apply IH. intros v Hv. apply (H v). right. exact Hv.
Qed.

Lemma nonempty_column (df : DataFrame) (n : string) (d : coldata) :
  lookup n df = Some d -> cells_of d <> [] -> empty df = false.
Proof.
  intros Hl Hc. destruct (empty df) eqn:E; [|reflexivity].
  unfold empty in E. rewrite forallb_forall in E.
  specialize (E _ (lookup_In _ _ _ Hl)). simpl in E. apply Nat.eqb_eq in E.
  destruct (cells_of d); [congruence | discriminate].
Qed.

Lemma aggregate_without_null_rows (df : DataFrame) (v : value) :
  has_column vm_uuid df = true -> empty df = false ->
  2 <= count_key v (key_cells df) ->
  aggregate_vm_data df = aggregate_vm_data (dropna_key_rows df).
Proof.
  intros Hk He Hv.
  destruct (lookup vm_uuid df) as [kd|] eqn:Hkd;
    [|apply has_column_lookup in Hk; congruence].
  pose proof (dropna_rows_lookup_key df kd Hkd) as Hkd'.
  pose proof (max_count_repeated _ v Hv) as Hm.
  rewrite (key_cells_eq df kd Hkd) in Hm, Hv.
  assert (Hk' : has_column vm_uuid (dropna_key_rows df) = true).
  { apply has_column_lookup. congruence. }
  assert (He' : empty (dropna_key_rows df) = false).
  { apply (nonempty_column _ _ _ Hkd'). rewrite cells_of_keep_data.
    intros E. apply (f_equal dropna) in E. rewrite dropna_keep in E.
    assert (Hin : In v (dropna (cells_of kd))).
    { apply dropna_In. apply (count_occ_In cell_eq_dec). unfold count_key in Hv. lia. }
    rewrite E in Hin. destruct Hin. }
  unfold aggregate_vm_data, aggregate_vm_data_on.
  rewrite Hk, Hk', He, He', Hkd, Hkd'. simpl.
  rewrite (dropna_rows_value_counts kd), Hm.
  rewrite (dropna_rows_aggregate_grouped df kd Hkd).
  rewrite (dropna_rows_groupby_first df kd Hkd).
  destruct (groupby_first_total df vm_uuid Hk) as [r ->]. reflexivity.
Qed.

End GroupingCondition.

(** C10, as stated, fails when no row has a key: the non-null key values are
    then all unique, but [value_counts()] is empty, its maximum is NaN and
    not 1, and the aggregator groups; the row without a key does not pass
    through, the output has no row. *)
Lemma all_null_keys_counterexample :
  has_column vm_uuid Examples.all_null_keys = true
  /\ empty Examples.all_null_keys = false
  /\ key_cells Examples.all_null_keys = [None]
  /\ (forall v, count_key v (key_cells Examples.all_null_keys) <= 1)
  /\ key_cells (aggregate_vm_data Examples.all_null_keys) = []
  /\ aggregate_vm_data Examples.all_null_keys
     <> convert_mib_to_gb Examples.all_null_keys.
Proof.
  repeat split; try reflexivity.
  - intros v. vm_compute. lia.
  - vm_compute. discriminate.
Qed.

(** C10 (amended).  For a table with the Entity Key column and at least one
    row:
    - when some key value occurs more than once, the aggregator groups: its
      output has no row with a null key, and it is the output for the table
      without the null-key rows, which thus contribute to no aggregate;
    - when no row has a key, the aggregator groups as well and the output
      has no row;
    - when some row has a key and every key value occurs once, the
      aggregator only normalises the units: all rows, the null-key rows
      among them, are in the output. *)
Theorem aggregator_null_keys (df : DataFrame) :
  has_column vm_uuid df = true -> empty df = false ->
  ((exists v, 2 <= count_key v (key_cells df)) ->
   ~ In None (key_cells (aggregate_vm_data df))
   /\ aggregate_vm_data df = aggregate_vm_data (dropna_key_rows df))
  /\ ((forall v, ~ In (Some v) (key_cells df)) ->
      key_cells (aggregate_vm_data df) = [])
  /\ ((exists v, In (Some v) (key_cells df)) ->
      (forall v, count_key v (key_cells df) <= 1) ->
      aggregate_vm_data df = convert_mib_to_gb df
      /\ key_cells (aggregate_vm_data df) = key_cells df).
Proof.
  intros Hk He. split; [|split].
  - intros [v Hv]. split.
    + rewrite (aggregate_key_cells df Hk), He, (max_count_repeated _ v Hv). simpl.
      intros H. apply in_map_iff in H. destruct H as [w [E _]]. discriminate.
    + apply (aggregate_without_null_rows df v Hk He Hv).
  - intros Hnone. rewrite (aggregate_key_cells df Hk), He. simpl.
    unfold value_counts, group_keys. rewrite (dropna_all_null _ Hnone). reflexivity.
  - intros Hsome Hle. pose proof (max_count_single _ Hsome Hle) as Hm.
    rewrite (aggregate_skip df Hk He Hm). split; [reflexivity|].
    apply convert_key_cells.
Qed.

Lemma aggregator_null_keys_witness :
  key_cells (aggregate_vm_data Examples.null_keys) = [Some (VStr "u1"); None; None]
  /\ ~ In None (key_cells (aggregate_vm_data Examples.disk)).
Proof.
  split.
  - destruct (aggregator_null_keys Examples.null_keys eq_refl eq_refl) as [_ [_ H]].
    apply H.
    + exists (VStr "u1"). left. reflexivity.
    + intros v. destruct (value_eq_dec v (VStr "u1")) as [->|Hne].
      * apply Nat.leb_le. reflexivity.
      * unfold count_key.
        rewrite (proj1 (count_occ_not_In cell_eq_dec _ (Some v))); [lia|].
        intros [E|[E|[E|[]]]]; congruence.
  - destruct (aggregator_null_keys Examples.disk eq_refl eq_refl) as [H _].
    apply H. exists (VStr "u1"). apply Nat.leb_le. reflexivity.
Defined.

(** C1 (amended).  For every table with the Entity Key column:
    - the output of the aggregator has at most one row for each Entity Key
      value that is not null, on every path: without grouping, grouped, and
      on the fallback after an exception;
    - rows whose Entity Key is null are not made unique: when some row has
      a key and every key value occurs once, the key column of the output
      is the key column of the input, with all its null-key rows;
    - in every other case (some key value occurs more than once, or no row
      has a key) the output has no row with a null key. *)
Theorem aggregator_unique_keys (df : DataFrame) :
  has_column vm_uuid df = true ->
  (forall v, count_occ cell_eq_dec (key_cells (aggregate_vm_data df)) (Some v) <= 1)
  /\ ((exists v, In (Some v) (key_cells df)) ->
      (forall v, count_key v (key_cells df) <= 1) ->
      key_cells (aggregate_vm_data df) = key_cells df
      /\ count_occ cell_eq_dec (key_cells (aggregate_vm_data df)) None
         = count_occ cell_eq_dec (key_cells df) None)
  /\ ((exists v, 2 <= count_key v (key_cells df))
      \/ (forall v, ~ In (Some v) (key_cells df)) ->
      ~ In None (key_cells (aggregate_vm_data df))).
Proof.
  intros Hk. rewrite (aggregate_key_cells df Hk). split; [|split].
  - intros v. destruct (empty df) eqn:Ee; simpl.
    + rewrite (empty_key_cells df Ee). simpl. lia.
    + destruct (max_count_is_one (value_counts (key_cells df))) eqn:Em.
      * apply (max_count_bound _ v Em).
      * apply NoDup_count_occ. apply Finite.Injective_map_NoDup.
        -- intros x y [= ->]. reflexivity.
        -- apply group_keys_NoDup.
  - intros Hsome Hle. rewrite (max_count_single _ Hsome Hle), orb_true_r.
    split; reflexivity.
  - intros Hcase. destruct (empty df) eqn:Ee; simpl.
    + rewrite (empty_key_cells df Ee). intros [].
    + assert (Hm : max_count_is_one (value_counts (key_cells df)) = false).
      { destruct Hcase as [[v Hv]|Hnone]; [apply (max_count_repeated _ v Hv)|].
        unfold value_counts. rewrite (dropna_all_null _ Hnone). reflexivity. }
      rewrite Hm. intros H. apply in_map_iff in H. destruct H as [w [E _]].
      discriminate.
Qed.

Lemma aggregator_unique_keys_witness :
  count_occ cell_eq_dec (key_cells (aggregate_vm_data Examples.disk))
            (Some (VStr "u1")) <= 1
  /\ key_cells (aggregate_vm_data Examples.null_keys) = key_cells Examples.null_keys
  /\ ~ In None (key_cells (aggregate_vm_data Examples.all_null_keys)).
Proof.
  split; [|split].
  - apply (aggregator_unique_keys Examples.disk). reflexivity.
  - apply (aggregator_unique_keys Examples.null_keys); [reflexivity| |].
    + exists (VStr "u1"). left. reflexivity.
    + intros v. destruct (value_eq_dec v (VStr "u1")) as [->|Hne].
      * apply Nat.leb_le. reflexivity.
      * unfold count_key.
        rewrite (proj1 (count_occ_not_In cell_eq_dec _ (Some v))); [lia|].
        intros [E|[E|[E|[]]]]; congruence.
  - apply (aggregator_unique_keys Examples.all_null_keys); [reflexivity|].
    right. intros v [E|[]]. discriminate.
Defined.

(* ================================================================= *)
(** * Further properties of the code *)

(* ================================================================= *)
(** ** Aggregator: keys and rows *)

Section AggregatorRows.

Lemma unique_length (l : list value) : List.length (unique l) <= List.length l.
Proof.
  induction l as [|v l IH]; simpl; [lia|].
  pose proof (filter_length_le (fun w => negb (value_eqb v w)) (unique l)). lia.
Qed.

Lemma dropna_length (l : list cell) : List.length (dropna l) <= List.length l.
Proof.
  induction l as [|[v|] l IH]; simpl; lia.
Qed.

Lemma group_keys_length (keys : list cell) :
  List.length (group_keys keys) <= List.length keys.
Proof.
  unfold group_keys. rewrite (Permutation_length (sort_values_perm _)).
  pose proof (unique_length (dropna keys)). pose proof (dropna_length keys). lia.
Qed.

Lemma aggregate_without_key (df : DataFrame) :
  has_column vm_uuid df = false -> aggregate_vm_data df = df.
Proof.
  intros H. unfold aggregate_vm_data, aggregate_vm_data_on. rewrite H. reflexivity.
Qed.

Lemma make_column_numeric (b : bool) (cells : list cell) :
  is_numeric_dtype (make_column b cells) = b.
Proof. destruct b; reflexivity. Qed.

End AggregatorRows.

(** X1.  The aggregator neither loses nor invents a VM: a key value that is
    not null is in its output exactly when it is in its input. *)
Theorem aggregator_keeps_key_values (df : DataFrame) (v : value) :
  has_column vm_uuid df = true ->
  In (Some v) (key_cells (aggregate_vm_data df)) <-> In (Some v) (key_cells df).
Proof.
  intros Hk. rewrite (aggregate_key_cells df Hk).
  destruct (_ || _)%bool; [reflexivity|].
  split.
  - intros H. apply in_map_iff in H. destruct H as [w [[= ->] Hw]].
    apply group_keys_In, Hw.
  - intros H. apply in_map, group_keys_In, H.
Qed.

Lemma aggregator_keeps_key_values_witness :
  In (Some (VStr "u2")) (key_cells (aggregate_vm_data Examples.disk)).
Proof.
  apply (aggregator_keeps_key_values Examples.disk (VStr "u2")); [reflexivity|].
  vm_compute. auto.
Defined.

(** X2.  The aggregator never returns more rows than it was given, with or
    without the key column. *)
Theorem aggregator_no_more_rows (df : DataFrame) :
  List.length (key_cells (aggregate_vm_data df)) <= List.length (key_cells df).
Proof.
  destruct (has_column vm_uuid df) eqn:Hk.
  - rewrite (aggregate_key_cells df Hk). destruct (_ || _)%bool; [lia|].
    rewrite length_map. apply group_keys_length.
  - rewrite (aggregate_without_key df Hk). lia.
Qed.

(** X3.  The output of the aggregator has the key column in the dtype of the
    input's key column, on every path; the dtype check of the later join
    thus depends on the source tables only. *)
Theorem aggregator_keeps_key_dtype (df : DataFrame) (kd : coldata) :
  lookup vm_uuid df = Some kd ->
  exists kd', lookup vm_uuid (aggregate_vm_data df) = Some kd'
              /\ is_numeric_dtype kd' = is_numeric_dtype kd.
Proof.
  intros Hkd.
  assert (Hk : has_column vm_uuid df = true) by (apply has_column_lookup; congruence).
  assert (Hg : forall r, groupby_first df vm_uuid = Ok r \/
                         (exists dict, groupby_agg df vm_uuid dict = Ok r) ->
                         exists kd', lookup vm_uuid (convert_mib_to_gb r) = Some kd'
                                     /\ is_numeric_dtype kd' = is_numeric_dtype kd).
  { intros r Hr.
    assert (H : exists kd0, lookup vm_uuid df = Some kd0
                /\ lookup vm_uuid r = Some (key_column kd0 (group_keys (cells_of kd0)))).
    { destruct Hr as [Hr|[dict Hr]];
        [apply (groupby_first_key _ _ _ Hr) | apply (groupby_agg_key _ _ _ _ Hr)]. }
    destruct H as [kd0 [H1 H2]]. rewrite Hkd in H1. injection H1 as <-.
    rewrite convert_keeps_key, H2. eexists. split; [reflexivity|].
    apply make_column_numeric. }
  unfold aggregate_vm_data, aggregate_vm_data_on. rewrite Hk. simpl.
  destruct (empty df); [eauto|].
  destruct (max_count_is_one _).
  - rewrite convert_keeps_key. eauto.
  - destruct (aggregate_grouped df vm_uuid) as [r|] eqn:E.
    + unfold aggregate_grouped in E. destruct (agg_dict df vm_uuid) as [|p l].
      * destruct (groupby_first df vm_uuid) as [r'|] eqn:E'; [|discriminate].
        injection E as <-. apply Hg. left. reflexivity.
      * destruct (groupby_agg df vm_uuid (p :: l)) as [r'|] eqn:E'; [|discriminate].
        injection E as <-. apply Hg. right. eauto.
    + destruct (groupby_first_total df vm_uuid Hk) as [r' E'].
      rewrite E'. apply Hg. left. exact E'.
Qed.

Lemma aggregator_keeps_key_dtype_witness :
  exists kd', lookup vm_uuid (aggregate_vm_data Examples.disk) = Some kd'
              /\ is_numeric_dtype kd' = false.
Proof.
  apply (aggregator_keeps_key_dtype Examples.disk
           (Examples.strs ["u1"; "u1"; "u2"])).
  reflexivity.
Defined.

(* ================================================================= *)
(** ** Unit normaliser: what it leaves alone *)

Section NormalizerFrame.

Lemma filter_out_shorter (x : string) (l : list string) :
  In x l ->
  List.length (filter (fun y => negb (String.eqb y x)) l) < List.length l.
Proof.
  induction l as [|y l IH]; simpl; [tauto|].
  pose proof (filter_length_le (fun y => negb (String.eqb y x)) l) as Hle.
  destruct (String.eqb y x) eqn:E; simpl.
  - intros _. lia.
  - intros [->|H]; [rewrite String.eqb_refl in E; discriminate|].
    specialize (IH H). lia.
Qed.

Lemma convert_column_count (rename : string -> string) (d : Z)
    (df : DataFrame) (col : string) :
  List.length (names (convert_column rename d df col)) <= List.length (names df).
Proof.
  unfold convert_column. destruct (lookup col df) as [[vs|l]|] eqn:E; try lia.
  rewrite names_drop, names_set_column.
  assert (Hin : In col (names df)) by (apply lookup_names; congruence).
  destruct (has_column (rename col) df).
  - apply filter_length_le.
  - rewrite filter_app, length_app.
    pose proof (filter_out_shorter col (names df) Hin).
    pose proof (filter_length_le (fun y => negb (String.eqb y col)) [rename col]).
    simpl in *. lia.
Qed.

Lemma pass_count (sel : string -> bool) (rename : string -> string) (d : Z)
    (df : DataFrame) :
  List.length (names (convert_pass sel rename d df)) <= List.length (names df).
Proof.
  unfold convert_pass. generalize (unit_columns sel df) as cs. intros cs. revert df.
  induction cs as [|c cs IH]; intros df; simpl; [lia|].
  pose proof (IH (convert_column rename d df c)).
  pose proof (convert_column_count rename d df c). lia.
Qed.

Lemma rename_mib_without_G (c : string) :
  count_char "G"%char (rename_mib c) = 0 -> rename_mib c = c.
Proof.
  unfold rename_mib. intros H.
  pose proof (replace_without "G"%char "MiB" "_GB" _ ltac:(simpl; lia) H) as H3.
  rewrite H3 in H |- *.
  pose proof (replace_without "G"%char "_MiB" "_GB" _ ltac:(simpl; lia) H) as H2.
  rewrite H2 in H |- *.
  apply (replace_without "G"%char " MiB" " GB" _ ltac:(simpl; lia) H).
Qed.

Lemma rename_mb_without_G (c : string) :
  count_char "G"%char (rename_mb c) = 0 -> rename_mb c = c.
Proof.
  unfold rename_mb. intros H.
  pose proof (replace_without "G"%char "MB" "_GB" _ ltac:(simpl; lia) H) as H3.
  rewrite H3 in H |- *.
  pose proof (replace_without "G"%char "_MB" "_GB" _ ltac:(simpl; lia) H) as H2.
  rewrite H2 in H |- *.
  apply (replace_without "G"%char " MB" " GB" _ ltac:(simpl; lia) H).
Qed.

End NormalizerFrame.

(** X4.  The normaliser keeps column names unique. *)
Theorem normalizer_keeps_names_unique (df : DataFrame) :
  NoDup (names df) -> NoDup (names (convert_mib_to_gb df)).
Proof. intros H. unfold convert_mib_to_gb. apply pass_NoDup, pass_NoDup, H. Qed.

Lemma normalizer_keeps_names_unique_witness :
  NoDup (names (convert_mib_to_gb Examples.sizes)).
Proof.
  apply (normalizer_keeps_names_unique Examples.sizes).
  apply distinct_NoDup. reflexivity.
Defined.

(** X5.  The normaliser never adds a column: each conversion drops the
    source column and writes at most one. *)
Theorem normalizer_no_more_columns (df : DataFrame) :
  List.length (names (convert_mib_to_gb df)) <= List.length (names df).
Proof.
  unfold convert_mib_to_gb, mb_pass, mib_pass.
  pose proof (pass_count is_mb_name rename_mb 1000
                (convert_pass is_mib_name rename_mib 1024 df)).
  pose proof (pass_count is_mib_name rename_mib 1024 df). lia.
Qed.

(** X6.  A table without a numeric column whose lower-case name has ['mib'],
    or ['mb'] without ['mbps'], is returned unchanged. *)
Theorem normalizer_identity_without_markers (df : DataFrame) :
  (forall c, In c df ->
             is_numeric_dtype (cdata c) = true ->
             is_mib_name (cname c) = false /\ is_mb_name (cname c) = false) ->
  convert_mib_to_gb df = df.
Proof.
  intros H.
  assert (Hn : forall sel, (forall c, In c df -> is_numeric_dtype (cdata c) = true ->
                                      sel (cname c) = false) ->
                           unit_columns sel df = []).
  { intros sel Hs. unfold unit_columns.
    replace (filter _ df) with (@nil column); [reflexivity|]. symmetry.
    induction df as [|c df' IH]; simpl; [reflexivity|].
    destruct (is_numeric_dtype (cdata c)) eqn:En.
    - rewrite (Hs c (or_introl eq_refl) En). simpl. apply IH.
      + intros c' Hc'. apply H. right. exact Hc'.
      + intros c' Hc'. apply Hs. right. exact Hc'.
    - rewrite andb_false_r. apply IH.
      + intros c' Hc'. apply H. right. exact Hc'.
      + intros c' Hc'. apply Hs. right. exact Hc'. }
  apply convert_nothing.
  - apply Hn. intros c Hc En. apply (H c Hc En).
  - apply Hn. intros c Hc En. apply (H c Hc En).
Qed.

Lemma normalizer_identity_without_markers_witness :
  convert_mib_to_gb Examples.cpu = Examples.cpu.
Proof.
  apply (normalizer_identity_without_markers Examples.cpu).
  intros c Hc. simpl in Hc.
  repeat (destruct Hc as [<-|Hc]; [intros _; split; reflexivity|]). destruct Hc.
Defined.

(** X7.  A column whose name has no unit marker and no letter ['G'] is
    returned as it is, whatever the other columns are: it is not converted,
    and no derived name can be its name.  The Entity Key column and the
    throughput column ['Speed Mbps'] are such columns. *)
Theorem normalizer_leaves_unmarked_column (df : DataFrame) (x : string) :
  is_mib_name x = false -> is_mb_name x = false ->
  count_char "G"%char x = 0 ->
  lookup x (convert_mib_to_gb df) = lookup x df.
Proof.
  intros Hmib Hmb HG. unfold convert_mib_to_gb, mb_pass, mib_pass.
  rewrite pass_frame; [rewrite pass_frame; [reflexivity|]|].
  - intros c Hc. apply unit_columns_In in Hc. destruct Hc as [Hs _]. split.
    + intros ->. congruence.
    + intros H. assert (E : rename_mib c = c).
      { apply rename_mib_without_G. rewrite H. exact HG. }
      congruence.
  - intros c Hc. apply unit_columns_In in Hc. destruct Hc as [Hs _]. split.
    + intros ->. congruence.
    + intros H. assert (E : rename_mb c = c).
      { apply rename_mb_without_G. rewrite H. exact HG. }
      congruence.
Qed.

Lemma normalizer_leaves_unmarked_column_witness :
  lookup "Speed Mbps" (convert_mib_to_gb Examples.sizes)
  = lookup "Speed Mbps" Examples.sizes
  /\ lookup "VM UUID" (convert_mib_to_gb Examples.sizes)
     = lookup "VM UUID" Examples.sizes.
Proof.
  split.
  - apply (normalizer_leaves_unmarked_column Examples.sizes "Speed Mbps"); reflexivity.
  - apply (normalizer_leaves_unmarked_column Examples.sizes "VM UUID"); reflexivity.
Defined.

(* ================================================================= *)
(** ** Merger: rows of the join *)

Section JoinRows.

Lemma matching_count (k : cell) (keys : list cell) (s : nat) :
  List.length (filter (fun ik : nat * cell => cell_eqb (snd ik) k)
                 (combine (seq s (List.length keys)) keys))
  = count_occ cell_eq_dec keys k.
Proof.
  revert s. induction keys as [|c keys IH]; intros s; simpl; [reflexivity|].
  unfold cell_eqb at 1. destruct (cell_eq_dec c k); simpl; rewrite IH; reflexivity.
Qed.

Lemma matching_rows_length (k : cell) (keys : list cell) :
  List.length (matching_rows k keys) = count_occ cell_eq_dec keys k.
Proof. unfold matching_rows. rewrite length_map. apply matching_count. Qed.

Lemma combine_seq_fst (l : list cell) (s : nat) :
  map fst (combine (seq s (List.length l)) l) = seq s (List.length l).
Proof.
  revert s. induction l as [|c l IH]; intros s; simpl; [reflexivity|].
  rewrite IH. reflexivity.
Qed.

Lemma map_nth_seq (l : list cell) (s : nat) :
  map (fun i => nth (i - s) l None) (seq s (List.length l)) = l.
Proof.
  revert s. induction l as [|c l IH]; intros s; simpl; [reflexivity|].
  rewrite Nat.sub_diag. f_equal. rewrite <- (IH (S s)) at 2.
  apply map_ext_in. intros i Hi. apply in_seq in Hi.
  replace (i - s) with (S (i - S s)) by lia. reflexivity.
Qed.

Lemma flat_map_fst {A B : Type} (f : A * B -> list (A * option A)) (l : list (A * B)) :
  (forall a, map fst (f a) = [fst a]) -> map fst (flat_map f l) = map fst l.
Proof.
  intros H. induction l as [|a l IH]; simpl; [reflexivity|].
  rewrite map_app, H, IH. reflexivity.
Qed.

(** With unique keys on the right, the join has one row for each left row,
    in the order of the left rows. *)
Lemma join_rows_unique (lkeys rkeys : list cell) :
  NoDup rkeys -> map fst (join_rows lkeys rkeys) = seq 0 (List.length lkeys).
Proof.
  intros Hnd. unfold join_rows. rewrite flat_map_fst; [apply combine_seq_fst|].
  intros [i k]. cbn [fst snd].
  pose proof (matching_rows_length k rkeys) as Hlen.
  pose proof (proj1 (NoDup_count_occ cell_eq_dec rkeys) Hnd k) as Hle.
  destruct (matching_rows k rkeys) as [|j [|j' js]]; simpl in *; try reflexivity; lia.
Qed.

Lemma merge_left_unique_keys (left right merged : DataFrame) :
  merge_left left right vm_uuid = Ok merged ->
  NoDup (key_cells right) -> key_cells merged = key_cells left.
Proof.
  intros H Hnd. apply merge_left_key in H.
  destruct H as [lk [rk [El [Er ->]]]]. unfold key_cells in *. rewrite El, Er in *.
  rewrite <- (map_map fst (fun i => nth i (cells_of lk) None)).
  rewrite (join_rows_unique _ _ Hnd).
  transitivity (map (fun i => nth (i - 0) (cells_of lk) None)
                    (seq 0 (List.length (cells_of lk)))).
  - apply map_ext. intros i. rewrite Nat.sub_0_r. reflexivity.
  - apply map_nth_seq.
Qed.

(** Without a null key in the input, the keys of the aggregator's output are
    pairwise distinct. *)
Lemma aggregate_keys_NoDup (df : DataFrame) :
  ~ In None (key_cells df) -> NoDup (key_cells (aggregate_vm_data df)).
Proof.
  intros Hnone. destruct (has_column vm_uuid df) eqn:Hk.
  - rewrite (aggregate_key_cells df Hk). destruct (empty df) eqn:Ee; simpl.
    + rewrite (empty_key_cells df Ee). constructor.
    + destruct (max_count_is_one _) eqn:Em.
      * apply (NoDup_count_occ cell_eq_dec). intros [v|].
        -- apply (max_count_bound _ v Em).
        -- rewrite (proj1 (count_occ_not_In cell_eq_dec _ None) Hnone). lia.
      * apply Finite.Injective_map_NoDup; [|apply group_keys_NoDup].
        intros x y [= ->]. reflexivity.
  - unfold key_cells. rewrite (aggregate_without_key df Hk).
    apply has_column_false in Hk. rewrite Hk. constructor.
Qed.

End JoinRows.

(** X8.  Joining a table whose keys are pairwise distinct keeps the rows of
    the running result as they are: the key column of the join is the key
    column of the left table, row for row. *)
Theorem join_with_unique_keys_keeps_rows (left right merged : DataFrame) :
  merge_left left right vm_uuid = Ok merged ->
  NoDup (key_cells right) ->
  key_cells merged = key_cells left.
Proof. apply merge_left_unique_keys. Qed.

Lemma join_with_unique_keys_keeps_rows_witness :
  exists merged,
    merge_left Examples.cpu Examples.memory vm_uuid = Ok merged
    /\ key_cells merged = key_cells Examples.cpu.
Proof.
  eexists. split; [reflexivity|].
  apply (join_with_unique_keys_keeps_rows Examples.cpu Examples.memory);
    [reflexivity|].
  apply (NoDup_count_occ cell_eq_dec). intros k.
  destruct (cell_eq_dec k (Some (VStr "u1"))) as [->|H1];
    [apply Nat.leb_le; reflexivity|].
  destruct (cell_eq_dec k (Some (VStr "u3"))) as [->|H3];
    [apply Nat.leb_le; reflexivity|].
  rewrite (proj1 (count_occ_not_In cell_eq_dec _ k)); [lia|].
  intros [E|[E|[]]]; congruence.
Defined.

(** X9.  When no source table has a row with a null key, the merged table
    has exactly the rows of the aggregated base table, in its order, and
    one row per VM: its keys are pairwise distinct. *)
Theorem merged_one_row_per_vm (csv_data : list (string * DataFrame))
    (base : DataFrame) :
  (forall item, In item csv_data -> ~ In None (key_cells (snd item))) ->
  base_table csv_data = Some base ->
  key_cells (merge_all_vm_data csv_data) = key_cells base
  /\ NoDup (key_cells (merge_all_vm_data csv_data)).
Proof.
  intros Hnone Hb.
  assert (Hfold : forall b items st,
             (forall item, In item items -> ~ In None (key_cells (snd item))) ->
             key_cells (fst (fold_left (merge_one b) items st)) = key_cells (fst st)).
  { intros b items. induction items as [|item items IH]; intros st Hi; simpl; [reflexivity|].
    rewrite IH by (intros; apply Hi; right; assumption).
    unfold merge_one. destruct st as [result_df merged_count], item as [data_type df].
    destruct (_ || _)%bool; [reflexivity|].
    destruct (empty (aggregate_vm_data df)); [reflexivity|].
    destruct (merge_left _ _ _) as [merged|] eqn:E; [|reflexivity].
    simpl. apply (merge_left_unique_keys _ _ _ E).
    unfold key_cells. rewrite key_cells_prefix.
    apply (aggregate_keys_NoDup df). apply (Hi (data_type, df)). left. reflexivity. }
  assert (Hkeys : key_cells (merge_all_vm_data csv_data) = key_cells base).
  { unfold base_table, merge_all_vm_data in *.
    destruct csv_data as [|item items] eqn:Ecsv; [discriminate|]. rewrite <- Ecsv in *.
    destruct (find_base csv_data) as [b|]; [|discriminate].
    destruct (assoc b csv_data) as [df|]; [|discriminate].
    injection Hb as <-. destruct (empty (aggregate_vm_data df)) eqn:Ee.
    - rewrite (empty_key_cells _ Ee). reflexivity.
    - rewrite (Hfold b csv_data _ Hnone). simpl. unfold key_cells.
      rewrite key_cells_prefix. reflexivity. }
  split; [exact Hkeys|]. rewrite Hkeys.
  unfold base_table in Hb. destruct (find_base csv_data) as [b|]; [|discriminate].
  destruct (assoc b csv_data) as [df|] eqn:Ea; [|discriminate]. injection Hb as <-.
  apply aggregate_keys_NoDup.
  assert (Hin : In (b, df) csv_data).
  { clear -Ea. induction csv_data as [|[k d] l IH]; simpl in *; [discriminate|].
    destruct (String.eqb k b) eqn:E.
    - apply String.eqb_eq in E. injection Ea as ->. left. congruence.
    - right. apply IH, Ea. }
  apply (Hnone (b, df) Hin).
Qed.

Lemma merged_one_row_per_vm_witness :
  key_cells (merge_all_vm_data Examples.export) = [Some (VStr "u1"); Some (VStr "u2")]
  /\ NoDup (key_cells (merge_all_vm_data Examples.export)).
Proof.
  apply (merged_one_row_per_vm Examples.export (aggregate_vm_data Examples.cpu)).
  - intros item Hin. simpl in Hin.
    destruct Hin as [<-|[<-|[<-|[]]]]; vm_compute; intuition discriminate.
  - reflexivity.
Defined.

Section Namespacing.

Lemma prefix_with_tail (p s t : string) :
  prefix p s = true -> prefix p (s ++ t)%string = true.
Proof.
  revert s. induction p as [|a p IH]; intros s H.
  - destruct (s ++ t)%string; reflexivity.
  - destruct s as [|b s]; simpl in *; [discriminate|].
    destruct (ascii_dec a b); [apply IH, H | discriminate].
Qed.

Lemma prefix_category (cat x : string) :
  prefix (cat ++ "_")%string (cat ++ "_" ++ x)%string = true.
Proof.
  induction cat as [|a cat IH]; simpl.
  - destruct x; reflexivity.
  - destruct (ascii_dec a a); [exact IH | congruence].
Qed.

(** A column name of the merged table: the key, or a category's name and an
    underscore followed by more. *)
Definition namespaced (cats : list string) (n : string) : Prop :=
  n = vm_uuid \/ exists cat, In cat cats /\ prefix (cat ++ "_")%string n = true.

Lemma prefix_columns_namespaced (cats : list string) (cat : string) (df : DataFrame) :
  In cat cats -> Forall (namespaced cats) (names (prefix_columns cat df)).
Proof.
  intros Hc. unfold names, prefix_columns. rewrite map_map.
  apply Forall_forall. intros n Hn. apply in_map_iff in Hn.
  destruct Hn as [c [<- _]]. destruct (String.eqb (cname c) vm_uuid) eqn:E.
  - left. apply String.eqb_eq, E.
  - right. exists cat. split; [exact Hc | apply prefix_category].
Qed.

Lemma suffixed_namespaced (cats other : list string) (suffix n : string) :
  namespaced cats n -> namespaced cats (suffixed vm_uuid suffix other n).
Proof.
  intros [->|[cat [Hc Hp]]].
  - left. apply suffixed_key.
  - unfold suffixed. destruct (_ && _)%bool; right; exists cat; split; auto.
    apply prefix_with_tail, Hp.
Qed.

Lemma merge_left_namespaced (cats : list string) (left right merged : DataFrame) :
  merge_left left right vm_uuid = Ok merged ->
  Forall (namespaced cats) (names left) ->
  Forall (namespaced cats) (names right) ->
  Forall (namespaced cats) (names merged).
Proof.
  intros H Hl Hr. rewrite (merge_left_names _ _ _ H).
  rewrite Forall_forall in *. intros n Hn. apply in_app_iff in Hn.
  destruct Hn as [Hn|Hn]; apply in_map_iff in Hn; destruct Hn as [m [<- Hm]];
    apply suffixed_namespaced.
  - apply Hl, Hm.
  - apply Hr. rewrite names_drop in Hm. apply filter_In in Hm. tauto.
Qed.

Lemma assoc_In {A : Type} (k : string) (l : list (string * A)) (a : A) :
  assoc k l = Some a -> In k (map fst l).
Proof.
  induction l as [|[k' a'] l IH]; simpl; [discriminate|].
  destruct (String.eqb k' k) eqn:E.
  - intros _. left. apply String.eqb_eq, E.
  - intros H. right. apply IH, H.
Qed.

End Namespacing.

(** X10.  Every column of the merged table is the Entity Key column or is
    named by a category of the input followed by an underscore: the key is
    never prefixed, every other column is. *)
Theorem merged_columns_namespaced (csv_data : list (string * DataFrame)) (n : string) :
  In n (names (merge_all_vm_data csv_data)) ->
  n = vm_uuid
  \/ exists cat, In cat (map fst csv_data) /\ prefix (cat ++ "_")%string n = true.
Proof.
  set (cats := map fst csv_data).
  assert (Hfold : forall b items st,
             (forall item, In item items -> In (fst item) cats) ->
             Forall (namespaced cats) (names (fst st)) ->
             Forall (namespaced cats)
                    (names (fst (fold_left (merge_one b) items st)))).
  { intros b items. induction items as [|item items IH]; intros st Hi Hst; simpl;
      [exact Hst|].
    apply IH; [intros; apply Hi; right; assumption|].
    unfold merge_one. destruct st as [result_df merged_count], item as [data_type df].
    destruct (_ || _)%bool; [exact Hst|].
    destruct (empty (aggregate_vm_data df)); [exact Hst|].
    destruct (merge_left _ _ _) as [merged|] eqn:E; [|exact Hst].
    simpl. apply (merge_left_namespaced cats _ _ _ E Hst).
    apply prefix_columns_namespaced. apply (Hi (data_type, df)). left. reflexivity. }
  intros Hn. unfold merge_all_vm_data in Hn.
  destruct csv_data as [|item items] eqn:Ecsv; [destruct Hn|]. rewrite <- Ecsv in *.
  destruct (find_base csv_data) as [b|]; [|destruct Hn].
  destruct (assoc b csv_data) as [df|] eqn:Ea; [|destruct Hn].
  destruct (empty (aggregate_vm_data df)); [destruct Hn|].
  assert (H : Forall (namespaced cats)
                 (names (fst (fold_left (merge_one b) csv_data
                                (prefix_columns b (aggregate_vm_data df), 1))))).
  { apply Hfold.
    - intros it Hit. unfold cats. rewrite <- Ecsv. apply in_map, Hit.
    - apply prefix_columns_namespaced. unfold cats. rewrite <- Ecsv.
      apply (assoc_In _ _ _ Ea). }
  rewrite Forall_forall in H. exact (H n Hn).
Qed.

Lemma merged_columns_namespaced_witness :
  "memory_Size GB" = vm_uuid
  \/ exists cat, In cat (map fst Examples.export)
                 /\ prefix (cat ++ "_")%string "memory_Size GB" = true.
Proof.
  apply (merged_columns_namespaced Examples.export "memory_Size GB").
  vm_compute. tauto.
Defined.

Section OuterJoin.

Lemma flat_map_singletons {A B : Type} (f : A -> list B) (g : A -> B) (l : list A) :
  (forall a, f a = [g a]) -> flat_map f l = map g l.
Proof.
  intros H. induction l as [|a l IH]; simpl; [reflexivity|].
  rewrite H, IH. reflexivity.
Qed.

Lemma join_rows_unique_rows (lkeys rkeys : list cell) :
  NoDup rkeys ->
  join_rows lkeys rkeys
  = map (fun ik => (fst ik, hd_error (matching_rows (snd ik) rkeys)))
        (combine (seq 0 (List.length lkeys)) lkeys).
Proof.
  intros Hnd. unfold join_rows. apply flat_map_singletons.
  intros [i k]. cbn [fst snd].
  pose proof (matching_rows_length k rkeys) as Hlen.
  pose proof (proj1 (NoDup_count_occ cell_eq_dec rkeys) Hnd k) as Hle.
  destruct (matching_rows k rkeys) as [|j [|j' js]]; simpl in *; try reflexivity; lia.
Qed.

Lemma nth_error_combine_seq (l : list cell) (s i : nat) (k : cell) :
  nth_error l i = Some k ->
  nth_error (combine (seq s (List.length l)) l) i = Some (s + i, k).
Proof.
  revert s i. induction l as [|c l IH]; intros s [|i]; simpl; try discriminate.
  - intros [= ->]. rewrite Nat.add_0_r. reflexivity.
  - intros H. rewrite (IH (S s) i H). f_equal. f_equal. lia.
Qed.

Lemma unique_names_lookup (df : DataFrame) (n : string) (d : coldata) :
  NoDup (names df) -> In (mkcol n d) df -> lookup n df = Some d.
Proof.
  unfold names. induction df as [|c df IH]; simpl; [tauto|].
  intros Hnd [->|Hin].
  - simpl. rewrite String.eqb_refl. reflexivity.
  - inversion Hnd as [|? ? Hc Hdf]; subst.
    destruct (String.eqb (cname c) n) eqn:E; [|apply IH; assumption].
    apply String.eqb_eq in E. exfalso. apply Hc. rewrite E.
    apply (in_map cname _ _ Hin).
Qed.

End OuterJoin.

(** X11.  Left-outer join: the columns of the joined table, its key column
    left out, come after the columns of the running result, in their order
    and under their suffixed names.  When the joined table has pairwise
    distinct keys, row [i] of the running result stays row [i], and if its
    key is not a key of the joined table, every column that comes from the
    joined table is null in that row. *)
Theorem left_join_fills_nulls (left right merged : DataFrame) (i j : nat)
    (k : cell) (c : column) :
  merge_left left right vm_uuid = Ok merged ->
  NoDup (key_cells right) ->
  nth_error (key_cells left) i = Some k ->
  ~ In k (key_cells right) ->
  nth_error (drop vm_uuid right) j = Some c ->
  nth_error (key_cells merged) i = Some k
  /\ exists c', nth_error merged (List.length left + j) = Some c'
                /\ cname c' = suffixed vm_uuid "_y" (names left) (cname c)
                /\ nth_error (cells_of (cdata c')) i = Some None.
Proof.
  intros Hm Hnd Hi Hk Hc. split.
  - rewrite (merge_left_unique_keys _ _ _ Hm Hnd). exact Hi.
  - unfold merge_left in Hm. unfold key_cells in Hnd, Hi, Hk.
    destruct (lookup vm_uuid left) as [lk|]; [|discriminate].
    destruct (lookup vm_uuid right) as [rk|]; [|discriminate].
    destruct (negb _); [discriminate|].
    destruct (orb _ _); [discriminate|]. injection Hm as <-.
    eexists. split; [|split].
    + rewrite nth_error_app2 by (rewrite length_map; lia).
      rewrite length_map, Nat.add_comm, Nat.add_sub, nth_error_map, Hc. reflexivity.
    + reflexivity.
    + cbn [cdata].
      rewrite cells_of_take_rows, (join_rows_unique_rows _ _ Hnd), !map_map.
      rewrite nth_error_map, (nth_error_combine_seq _ 0 i k Hi). cbn [option_map fst snd].
      assert (E : matching_rows k (cells_of rk) = []).
      { pose proof (matching_rows_length k (cells_of rk)) as Hl.
        rewrite (proj1 (count_occ_not_In cell_eq_dec _ k) Hk) in Hl.
        destruct (matching_rows k (cells_of rk)); [reflexivity | discriminate]. }
      rewrite E. reflexivity.
Qed.

Lemma left_join_fills_nulls_witness :
  match merge_left Examples.cpu Examples.memory vm_uuid with
  | Ok merged => exists c', nth_error merged 4 = Some c'
                            /\ cname c' = "Size MiB"
                            /\ nth_error (cells_of (cdata c')) 1 = Some None
  | Raise => False
  end.
Proof.
  destruct (merge_left Examples.cpu Examples.memory vm_uuid) as [merged|] eqn:Hm;
    [|vm_compute in Hm; discriminate].
  apply (left_join_fills_nulls Examples.cpu Examples.memory merged 1 0
           (Some (VStr "u2"))
           (mkcol "Size MiB" (Examples.nums [2048%Z; 4096%Z])) Hm).
  - apply (NoDup_count_occ cell_eq_dec). intros k.
    destruct (cell_eq_dec k (Some (VStr "u1"))) as [->|H1];
      [apply Nat.leb_le; reflexivity|].
    destruct (cell_eq_dec k (Some (VStr "u3"))) as [->|H3];
      [apply Nat.leb_le; reflexivity|].
    rewrite (proj1 (count_occ_not_In cell_eq_dec _ k)); [lia|].
    intros [E|[E|[]]]; congruence.
  - reflexivity.
  - vm_compute. intros [E|[E|[]]]; discriminate.
  - reflexivity.
Defined.

(* ================================================================= *)
(** ** Power filter *)

Section PowerFilter.

Lemma keep_rows_nil {A : Type} (mask : list bool) : keep_rows mask (@nil A) = [].
Proof. destruct mask; reflexivity. Qed.

Lemma keep_rows_selected (l : list cell) :
  Forall (fun c => powered_on c = true) (keep_rows (map powered_on l) l).
Proof.
  induction l as [|c l IH]; simpl; [constructor|].
  destruct (powered_on c) eqn:E; [constructor; assumption | exact IH].
Qed.

(** Filtering again by the state of the rows that were kept changes no
    column. *)
Lemma keep_rows_again {A : Type} (l : list cell) (l0 : list A) :
  keep_rows (map powered_on (keep_rows (map powered_on l) l))
            (keep_rows (map powered_on l) l0)
  = keep_rows (map powered_on l) l0.
Proof.
  revert l0. induction l as [|c l IH]; intros [|x l0]; simpl; try reflexivity.
  - apply keep_rows_nil.
  - destruct (powered_on c) eqn:E; simpl; [|apply IH].
    rewrite E, IH. reflexivity.
Qed.

Lemma filter_rows_again (l : list cell) (df : DataFrame) :
  filter_rows (map powered_on (keep_rows (map powered_on l) l))
              (filter_rows (map powered_on l) df)
  = filter_rows (map powered_on l) df.
Proof.
  unfold filter_rows. rewrite map_map. apply map_ext. intros c. simpl. f_equal.
  destruct (cdata c); simpl; rewrite keep_rows_again; reflexivity.
Qed.

(** The rows that are kept hold strings. *)
Lemma string_values_kept (l : list cell) :
  string_values (keep_rows (map powered_on l) l) = true.
Proof.
  unfold string_values. pose proof (keep_rows_selected l) as H.
  destruct (keep_rows (map powered_on l) l) as [|c kept]; [reflexivity|].
  inversion H as [|? ? Hc _]; subst. destruct c as [[q|s]|]; try discriminate.
  reflexivity.
Qed.

End PowerFilter.

(** X12.  With the power filter on, and a column whose lower-case name has
    ['powerstate'], the output has the same columns and in the first such
    column only values that are ['poweredon'] up to case: rows with another
    state, or without one, are gone. *)
Theorem power_filter_keeps_powered_on (df out : DataFrame) (power_col : string) :
  apply_power_filter false df = Ok out ->
  empty df = false ->
  find (fun col => contains "powerstate" (lower col)) (names df) = Some power_col ->
  names out = names df
  /\ exists l, lookup power_col out = Some (ObjCol l)
               /\ Forall (fun c => powered_on c = true) l.
Proof.
  intros H He Hf. split; [apply (power_filter_names false df out H)|].
  unfold apply_power_filter in H. rewrite He, Hf in H. simpl in H.
  destruct (lookup power_col df) as [[l|l]|] eqn:El; try discriminate.
  destruct (string_values l); [|discriminate].
  injection H as <-. exists (keep_rows (map powered_on l) l). split.
  - rewrite lookup_filter_rows, El. reflexivity.
  - apply keep_rows_selected.
Qed.

Lemma power_filter_keeps_powered_on_witness :
  match apply_power_filter false Examples.cpu with
  | Ok out => names out = names Examples.cpu
              /\ exists l, lookup "Powerstate" out = Some (ObjCol l)
                           /\ Forall (fun c => powered_on c = true) l
  | Raise => False
  end.
Proof.
  destruct (apply_power_filter false Examples.cpu) as [out|] eqn:H;
    [|vm_compute in H; discriminate].
  apply (power_filter_keeps_powered_on Examples.cpu out "Powerstate" H); reflexivity.
Defined.

(** X13.  The power filter is idempotent: applied to its own output it
    returns that output. *)
Theorem power_filter_idempotent (include_all : bool) (df out : DataFrame) :
  apply_power_filter include_all df = Ok out ->
  apply_power_filter include_all out = Ok out.
Proof.
  intros H. pose proof (power_filter_names _ _ _ H) as Hn.
  unfold apply_power_filter in *.
  destruct (include_all || empty df)%bool eqn:E1; [injection H as <-; rewrite E1; reflexivity|].
  apply orb_false_iff in E1. destruct E1 as [-> _]. simpl.
  destruct (empty out); [reflexivity|]. rewrite Hn.
  destruct (find _ (names df)) as [power_col|];
    [|injection H as <-; reflexivity].
  destruct (lookup power_col df) as [[l|l]|] eqn:El; try discriminate.
  destruct (string_values l); [|discriminate].
  injection H as <-. rewrite lookup_filter_rows, El. simpl.
  rewrite string_values_kept, filter_rows_again. reflexivity.
Qed.

Lemma power_filter_idempotent_witness :
  match apply_power_filter false Examples.cpu with
  | Ok out => apply_power_filter false out = Ok out
  | Raise => False
  end.
Proof.
  destruct (apply_power_filter false Examples.cpu) as [out|] eqn:H;
    [|vm_compute in H; discriminate].
  apply (power_filter_idempotent false Examples.cpu out H).
Defined.

(* ================================================================= *)
(** ** Column filter and the whole run *)

Section ColumnFilter.

Lemma dedup_NoDup (l : list string) : NoDup (dedup l).
Proof.
  induction l as [|x l IH]; simpl; constructor.
  - rewrite filter_In. intros [_ H]. rewrite String.eqb_refl in H. discriminate.
  - apply NoDup_filter, IH.
Qed.

Lemma NoDup_firstn {A : Type} (n : nat) (l : list A) : NoDup l -> NoDup (firstn n l).
Proof.
  intros H. rewrite <- (firstn_skipn n l) in H. apply (NoDup_app_remove_r _ _ H).
Qed.

Lemma fallback_NoDup (cols patterns acc : list string) :
  NoDup cols -> NoDup acc -> NoDup (fold_left (add_fallback cols) patterns acc).
Proof.
  intros Hc. revert acc. induction patterns as [|p patterns IH]; intros acc Ha; simpl;
    [exact Ha|].
  apply IH. unfold add_fallback. apply NoDup_app; [exact Ha | |].
  - apply NoDup_firstn, NoDup_filter, Hc.
  - intros x Hx Hx'. apply firstn_subset, filter_In in Hx'.
    destruct Hx' as [_ H]. apply andb_true_iff in H. destruct H as [_ H].
    apply negb_true_iff in H.
    assert (E : existsb (String.eqb x) acc = true); [|congruence].
    apply existsb_exists. exists x. split; [exact Hx | apply String.eqb_refl].
Qed.

Lemma essential_NoDup (cols : list string) : NoDup cols -> NoDup (essential_columns cols).
Proof.
  intros H. unfold essential_columns. destruct (_ <? 5).
  - apply fallback_NoDup; [exact H | apply dedup_NoDup].
  - apply dedup_NoDup.
Qed.

Lemma select_columns_lookup (cols : list string) (df : DataFrame) (n : string)
    (d : coldata) :
  lookup n (select_columns cols df) = Some d -> lookup n df = Some d.
Proof.
  unfold select_columns. induction cols as [|c cols IH]; simpl; [discriminate|].
  rewrite lookup_app. destruct (lookup c df) as [d'|] eqn:E; simpl; [|exact IH].
  destruct (String.eqb c n) eqn:En; [|exact IH].
  apply String.eqb_eq in En. subst c. congruence.
Qed.

Lemma filter_output_lookup (comprehensive_output : bool) (df : DataFrame)
    (n : string) (d : coldata) :
  lookup n (filter_output_columns comprehensive_output df) = Some d ->
  lookup n df = Some d.
Proof.
  unfold filter_output_columns. destruct comprehensive_output; [auto|].
  apply select_columns_lookup.
Qed.

Lemma keep_rows_In {A : Type} (mask : list bool) (l : list A) (x : A) :
  In x (keep_rows mask l) -> In x l.
Proof.
  revert l. induction mask as [|b mask IH]; intros [|y l]; simpl; try tauto.
  destruct b; simpl; intros H; [destruct H as [H|H]; [auto|]|]; right; apply IH, H.
Qed.

Lemma power_filter_keys (include_all : bool) (df out : DataFrame) (k : cell) :
  apply_power_filter include_all df = Ok out ->
  In k (key_cells out) -> In k (key_cells df).
Proof.
  unfold apply_power_filter. destruct (_ || _)%bool; [intros [= <-]; auto|].
  destruct (find _ _) as [power_col|]; [|intros [= <-]; auto].
  destruct (lookup power_col df) as [[l|l]|]; try discriminate.
  destruct (string_values l); [|discriminate].
  intros [= <-]. unfold key_cells. rewrite lookup_filter_rows.
  destruct (lookup vm_uuid df) as [d|]; simpl; [|tauto].
  rewrite cells_of_keep_data. apply keep_rows_In.
Qed.

(** The keys of the merged table are keys of the aggregated base table. *)
Lemma merged_keys_from_base (csv_data : list (string * DataFrame)) (base : DataFrame)
    (k : cell) :
  base_table csv_data = Some base ->
  In k (key_cells (merge_all_vm_data csv_data)) -> In k (key_cells base).
Proof.
  unfold base_table, merge_all_vm_data.
  destruct csv_data as [|item items] eqn:Ecsv; [discriminate|]. rewrite <- Ecsv.
  destruct (find_base csv_data) as [b|]; [|discriminate].
  destruct (assoc b csv_data) as [df|]; [|discriminate].
  intros [= <-]. destruct (empty (aggregate_vm_data df)); [intros []|].
  rewrite merge_fold_keys. simpl. unfold key_cells.
  rewrite key_cells_prefix. auto.
Qed.

End ColumnFilter.

(** X14.  The column filter selects columns of its input and returns them
    with their contents; on a table with unique column names it selects no
    column twice. *)
Theorem column_filter_selects_columns (df : DataFrame) :
  (forall n d, lookup n (filter_output_columns false df) = Some d ->
               lookup n df = Some d)
  /\ (forall n, In n (names (filter_output_columns false df)) -> In n (names df))
  /\ (NoDup (names df) -> NoDup (names (filter_output_columns false df))).
Proof.
  split; [|split].
  - intros n d. apply filter_output_lookup.
  - intros n. rewrite filter_output_names. apply essential_In.
  - intros H. rewrite filter_output_names. apply essential_NoDup, H.
Qed.

Lemma column_filter_selects_columns_witness :
  NoDup (names (filter_output_columns false (merge_all_vm_data Examples.export))).
Proof.
  apply (column_filter_selects_columns (merge_all_vm_data Examples.export)).
  apply distinct_NoDup. reflexivity.
Defined.

(** X15.  Whatever the switches, every Entity Key of the output of a run is
    a key of the aggregated base table: neither the joins nor the filters
    bring in a VM that the base table does not have. *)
Theorem output_keys_from_base (include_all comprehensive_output : bool)
    (csv_data : list (string * DataFrame)) (out base : DataFrame) (k : cell) :
  process include_all comprehensive_output csv_data = Some out ->
  base_table csv_data = Some base ->
  In k (key_cells out) -> In k (key_cells base).
Proof.
  unfold process. destruct csv_data as [|item items] eqn:Ecsv; [discriminate|].
  rewrite <- Ecsv. destruct (empty (merge_all_vm_data csv_data)); [discriminate|].
  destruct (apply_power_filter include_all (merge_all_vm_data csv_data))
    as [filtered|] eqn:Ep; [|discriminate].
  intros [= <-] Hb Hk. apply (merged_keys_from_base csv_data base k Hb).
  apply (power_filter_keys include_all _ filtered k Ep).
  unfold key_cells in *.
  destruct (lookup vm_uuid (filter_output_columns comprehensive_output filtered))
    as [d|] eqn:E; [|destruct Hk].
  rewrite (filter_output_lookup _ _ _ _ E). exact Hk.
Qed.

Lemma output_keys_from_base_witness :
  In (Some (VStr "u1")) (key_cells (aggregate_vm_data Examples.cpu)).
Proof.
  apply (output_keys_from_base false false Examples.export
           (filter_output_columns false
              (filter_rows [true; false] (merge_all_vm_data Examples.export)))
           (aggregate_vm_data Examples.cpu) (Some (VStr "u1")));
    [reflexivity | reflexivity |].
  vm_compute. auto.
Defined.

(** X16.  A run fails, and writes nothing, when no category of the base list
    is present, not empty and keyed, whatever other tables were loaded. *)
Theorem run_fails_without_base (include_all comprehensive_output : bool)
    (csv_data : list (string * DataFrame)) :
  (forall x, In x base_options -> ~ usable csv_data x) ->
  process include_all comprehensive_output csv_data = None.
Proof.
  intros H. pose proof (find_none csv_data base_options H) as Hn.
  unfold process, merge_all_vm_data. fold (find_base csv_data) in Hn. rewrite Hn.
  destruct csv_data; reflexivity.
Qed.

Lemma run_fails_without_base_witness :
  process true true Examples.only_nic = None.
Proof.
  apply (run_fails_without_base true true Examples.only_nic).
  intros x Hx [df [Ha _]]. simpl in Hx.
  repeat (destruct Hx as [<-|Hx]; [discriminate Ha|]). exact Hx.
Defined.

(* ================================================================= *)
(** ** Source loader *)

Section Loader.

Lemma dict_set_In {A : Type} (k : string) (v : A) (d : list (string * A))
    (p : string * A) :
  In p (dict_set k v d) -> p = (k, v) \/ In p d.
Proof.
  induction d as [|[k' v'] d IH]; simpl.
  - intros [<-|[]]. left. reflexivity.
  - destruct (String.eqb k' k); simpl; intros [<-|H]; auto.
    destruct (IH H); auto.
Qed.

Lemma dict_set_keys {A : Type} (k : string) (v : A) (d : list (string * A)) :
  map fst (dict_set k v d)
  = if existsb (String.eqb k) (map fst d) then map fst d else map fst d ++ [k].
Proof.
  induction d as [|[k' v'] d IH]; simpl; [reflexivity|].
  rewrite (String.eqb_sym k k'). destruct (String.eqb k' k) eqn:E; simpl.
  - apply String.eqb_eq in E. subst. reflexivity.
  - rewrite IH. destruct (existsb _ _); reflexivity.
Qed.

Lemma dict_set_NoDup {A : Type} (k : string) (v : A) (d : list (string * A)) :
  NoDup (map fst d) -> NoDup (map fst (dict_set k v d)).
Proof.
  intros H. rewrite dict_set_keys. destruct (existsb _ _) eqn:E; [exact H|].
  apply NoDup_app; [exact H | repeat constructor; simpl; tauto|].
  intros x Hx [<-|[]].
  assert (existsb (String.eqb k) (map fst d) = true); [|congruence].
  apply existsb_exists. exists k. split; [exact Hx | apply String.eqb_refl].
Qed.

Lemma assoc_dict_set_same {A : Type} (k : string) (v : A) (d : list (string * A)) :
  assoc k (dict_set k v d) = Some v.
Proof.
  induction d as [|[k' v'] d IH]; simpl.
  - rewrite String.eqb_refl. reflexivity.
  - destruct (String.eqb k' k) eqn:E; simpl.
    + rewrite String.eqb_refl. reflexivity.
    + rewrite E. exact IH.
Qed.

Lemma assoc_dict_set_other {A : Type} (k k0 : string) (v : A) (d : list (string * A)) :
  k0 <> k -> assoc k0 (dict_set k v d) = assoc k0 d.
Proof.
  intros Hne. induction d as [|[k' v'] d IH]; simpl.
  - destruct (String.eqb k k0) eqn:E; [|reflexivity].
    apply String.eqb_eq in E. congruence.
  - destruct (String.eqb k' k) eqn:E; simpl.
    + apply String.eqb_eq in E. subst k'.
      destruct (String.eqb k k0) eqn:E0; [|reflexivity].
      apply String.eqb_eq in E0. congruence.
    + destruct (String.eqb k' k0); [reflexivity | exact IH].
Qed.

Lemma assoc_In_pair {A : Type} (k : string) (l : list (string * A)) (a : A) :
  assoc k l = Some a -> In (k, a) l.
Proof.
  induction l as [|[k' a'] l IH]; simpl; [discriminate|].
  destruct (String.eqb k' k) eqn:E.
  - intros [= ->]. apply String.eqb_eq in E. subst. left. reflexivity.
  - intros H. right. apply IH, H.
Qed.

Lemma assoc_None_keys {A : Type} (k : string) (l : list (string * A)) :
  assoc k l = None <-> existsb (String.eqb k) (map fst l) = false.
Proof.
  induction l as [|[k' a'] l IH]; simpl; [tauto|].
  rewrite (String.eqb_sym k k'). destruct (String.eqb k' k); simpl; [|exact IH].
  split; discriminate.
Qed.

(** What the loop keeps true of [csv_data]. *)
Definition loaded_ok (csv_data : list (string * DataFrame)) : Prop :=
  NoDup (map fst csv_data)
  /\ forall cat df, In (cat, df) csv_data ->
                    has_column vm_uuid df = true /\ empty df = false.

Lemma load_file_ok (csv_data : list (string * DataFrame))
    (file : string * result DataFrame) :
  loaded_ok csv_data -> loaded_ok (load_file csv_data file).
Proof.
  intros [Hnd Hall]. unfold load_file.
  destruct (endswith ".csv" (fst file)); [|split; assumption].
  destruct (snd file) as [parsed|]; [|split; assumption].
  destruct (has_column vm_uuid (strip_columns parsed)) eqn:Hk; simpl; [|split; assumption].
  destruct (empty (strip_columns parsed)) eqn:He; [split; assumption|].
  assert (H : forall k, loaded_ok (dict_set k (strip_columns parsed) csv_data)).
  { intros k. split; [apply dict_set_NoDup, Hnd|].
    intros cat df Hin. apply dict_set_In in Hin. destruct Hin as [[= -> ->]|Hin].
    - split; assumption.
    - apply (Hall cat df Hin). }
  destruct (file_key _); apply H.
Qed.

Lemma load_files_ok (files : list (string * result DataFrame)) :
  loaded_ok (load_files files).
Proof.
  unfold load_files.
  assert (H : forall csv_data, loaded_ok csv_data ->
                               loaded_ok (fold_left load_file files csv_data)).
  { induction files as [|f files IH]; intros csv_data Hok; simpl; [exact Hok|].
    apply IH, load_file_ok, Hok. }
  apply H. split; [constructor | intros cat df []].
Qed.

End Loader.

(** X17.  Whatever the files are, the loaded mapping has each category once,
    and every table in it has the Entity Key column and at least one row:
    unreadable files, files without the key and files without rows are left
    out. *)
Theorem loader_keeps_keyed_tables (files : list (string * result DataFrame)) :
  NoDup (map fst (load_files files))
  /\ forall cat df, In (cat, df) (load_files files) ->
                    has_column vm_uuid df = true /\ empty df = false.
Proof. apply load_files_ok. Qed.

(** X18.  On a loaded mapping a category qualifies as base as soon as it is
    present: the base of the merge is the first category of the base list
    for which a file was loaded. *)
Theorem base_of_loaded_mapping (files : list (string * result DataFrame)) :
  find_base (load_files files)
  = find (fun opt => existsb (String.eqb opt) (map fst (load_files files)))
         base_options.
Proof.
  unfold find_base. destruct (load_files_ok files) as [_ Hall].
  generalize base_options as options. intros options.
  induction options as [|opt options IH]; simpl; [reflexivity|].
  rewrite IH. unfold qualifies.
  destruct (assoc opt (load_files files)) as [df|] eqn:Ea.
  - destruct (Hall opt df (assoc_In_pair _ _ _ Ea)) as [-> ->]. simpl.
    destruct (existsb _ _) eqn:E; [reflexivity|].
    apply assoc_None_keys in E. congruence.
  - apply assoc_None_keys in Ea. rewrite Ea. reflexivity.
Qed.

(** X19.  A later file of a category replaces the table loaded earlier for
    it, and leaves the tables of the other categories alone. *)
Theorem loader_last_file_wins (files : list (string * result DataFrame))
    (file cat : string) (parsed : DataFrame) :
  endswith ".csv" file = true ->
  has_column vm_uuid (strip_columns parsed) = true ->
  empty (strip_columns parsed) = false ->
  file_key (lower file) = Some cat ->
  assoc cat (load_files (files ++ [(file, Ok parsed)])) = Some (strip_columns parsed)
  /\ forall other, other <> cat ->
                   assoc other (load_files (files ++ [(file, Ok parsed)]))
                   = assoc other (load_files files).
Proof.
  intros He Hk Hn Hf. unfold load_files. rewrite fold_left_app. simpl.
  unfold load_file at 1 3. simpl. rewrite He, Hk, Hn, Hf. simpl. split.
  - apply assoc_dict_set_same.
  - intros other Ho. apply assoc_dict_set_other, Ho.
Qed.

Lemma loader_last_file_wins_witness :
  assoc "cpu" (load_files [("RVTools_tabvCPU.csv", Ok Examples.memory);
                           ("export_tabvcpu.csv", Ok Examples.cpu)])
  = Some (strip_columns Examples.cpu).
Proof.
  apply (loader_last_file_wins [("RVTools_tabvCPU.csv", Ok Examples.memory)]
           "export_tabvcpu.csv" "cpu" Examples.cpu); reflexivity.
Defined.

Lemma loader_keeps_keyed_tables_witness :
  has_column vm_uuid (strip_columns Examples.cpu) = true
  /\ empty (strip_columns Examples.cpu) = false.
Proof.
  apply (proj2 (loader_keeps_keyed_tables
                  [("notes.txt", Ok Examples.disk);
                   ("RVTools_tabvCPU.csv", Ok Examples.cpu);
                   ("RVTools_tabvHost.csv", Raise)])
               "cpu" (strip_columns Examples.cpu)).
  vm_compute. left. reflexivity.
Defined.

(* ================================================================= *)
(** ** Cost report: OCPUs, operating systems, columns *)

Section BomFacts.

Lemma lower_ascii_idempotent (c : ascii) : lower_ascii (lower_ascii c) = lower_ascii c.
Proof. destruct c as [[] [] [] [] [] [] [] []]; reflexivity. Qed.

Lemma lower_idempotent (s : string) : lower (lower s) = lower s.
Proof.
  induction s as [|c s IH]; simpl; [reflexivity|].
  rewrite lower_ascii_idempotent, IH. reflexivity.
Qed.

Lemma half_up_bounds (n : Z) :
  (n <= 2 * ((n + 1) / 2) <= n + 1)%Z.
Proof.
  pose proof (Z.div_mod (n + 1) 2 ltac:(lia)) as H.
  pose proof (Z.mod_pos_bound (n + 1) 2 ltac:(lia)) as Hb. lia.
Qed.

Lemma mapping_has_target (fields : list string) (mapping : list (string * string))
    (target : string) :
  (In target (map fst mapping)
   \/ exists field, In field fields /\ Bom.field_target field = Some target) ->
  In target
     (map fst (fold_left (fun mapping field =>
                            match Bom.field_target field with
                            | Some t => dict_set t field mapping
                            | None => mapping
                            end) fields mapping)).
Proof.
  revert mapping. induction fields as [|f fields IH]; intros mapping H; simpl.
  - destruct H as [H|[field [[] _]]]. exact H.
  - apply IH. destruct H as [H|[field [[<-|Hin] Ht]]].
    + left. destruct (Bom.field_target f); [|exact H].
      rewrite dict_set_keys. destruct (existsb _ _); [exact H|].
      apply in_or_app. left. exact H.
    + left. rewrite Ht, dict_set_keys.
      destruct (existsb (String.eqb target) (map fst mapping)) eqn:E.
      * apply existsb_exists in E. destruct E as [x [Hx E]].
        apply String.eqb_eq in E. subst x. exact Hx.
      * apply in_or_app. right. left. reflexivity.
    + right. exists field. split; assumption.
Qed.

End BomFacts.

(** X20.  For a positive number of vCPUs the OCPU count is that number
    halved and rounded up, and at least 1: twice the count covers the vCPUs
    and exceeds them by at most one. *)
Theorem ocpu_count_is_half_rounded_up (cpu_cpus : Z) :
  (0 < cpu_cpus)%Z ->
  (1 <= Bom.calculate_ocpu_count cpu_cpus)%Z
  /\ (cpu_cpus <= 2 * Bom.calculate_ocpu_count cpu_cpus <= cpu_cpus + 1)%Z.
Proof.
  intros H. unfold Bom.calculate_ocpu_count.
  destruct (cpu_cpus <=? 0)%Z eqn:E0; [apply Z.leb_le in E0; lia|].
  destruct (cpu_cpus =? 1)%Z eqn:E1; [apply Z.eqb_eq in E1; lia|].
  pose proof (half_up_bounds cpu_cpus). lia.
Qed.

Lemma ocpu_count_is_half_rounded_up_witness :
  (1 <= Bom.calculate_ocpu_count 3)%Z
  /\ (3 <= 2 * Bom.calculate_ocpu_count 3 <= 3 + 1)%Z.
Proof. apply (ocpu_count_is_half_rounded_up 3). lia. Defined.

(** X21.  The OCPU count never decreases when vCPUs are added, and is 0
    exactly for a count of vCPUs that is not positive. *)
Theorem ocpu_count_monotone (a b : Z) :
  (a <= b)%Z ->
  (Bom.calculate_ocpu_count a <= Bom.calculate_ocpu_count b)%Z
  /\ (Bom.calculate_ocpu_count a = 0 <-> a <= 0)%Z.
Proof.
  intros H. unfold Bom.calculate_ocpu_count.
  pose proof (half_up_bounds a). pose proof (half_up_bounds b).
  destruct (a <=? 0)%Z eqn:Ea0; destruct (b <=? 0)%Z eqn:Eb0;
    destruct (a =? 1)%Z eqn:Ea1; destruct (b =? 1)%Z eqn:Eb1;
    rewrite ?Z.leb_le, ?Z.leb_gt, ?Z.eqb_eq, ?Z.eqb_neq in *; lia.
Qed.

Lemma ocpu_count_monotone_witness :
  (Bom.calculate_ocpu_count 2 <= Bom.calculate_ocpu_count 5)%Z.
Proof. apply (ocpu_count_monotone 2 5). lia. Defined.

(** X22.  The detection of the operating system ignores the case of the
    description, and Windows wins: a description with ['windows'] or
    ['microsoft'] is a Windows one even when it names Linux as well. *)
Theorem os_detection_ignores_case (os_config : string) :
  Bom.detect_os_type (lower os_config) = Bom.detect_os_type os_config
  /\ (contains "windows" (lower os_config) = true
      \/ contains "microsoft" (lower os_config) = true <->
      Bom.detect_os_type os_config = "windows").
Proof.
  unfold Bom.detect_os_type. rewrite lower_idempotent. split; [reflexivity|].
  set (w := contains "windows" (lower os_config)).
  set (m := contains "microsoft" (lower os_config)).
  set (l := existsb _ Bom.linux_names).
  destruct w, m, l; simpl; split; intros H;
    try reflexivity; try discriminate; auto; destruct H; discriminate.
Qed.

(** X23.  The cost report reads the output of the extractor: when the
    header has, up to case and surrounding blanks, the five priority columns
    of the column filter, no required field is missing. *)
Theorem bom_reads_essential_columns (fieldnames : list string) :
  (forall pattern, In pattern priority_patterns ->
                   exists field, In field fieldnames
                                 /\ lower (strip field) = pattern) ->
  Bom.missing (Bom.column_mapping fieldnames) = [].
Proof.
  intros H.
  assert (Ht : forall pattern target,
             In pattern priority_patterns ->
             (forall f, lower f = pattern -> Bom.field_target f = Some target) ->
             In target (map fst (Bom.column_mapping fieldnames))).
  { intros pattern target Hp Hf. destruct (H pattern Hp) as [field [Hin Hl]].
    unfold Bom.column_mapping. apply mapping_has_target. right.
    exists (strip field). split; [apply in_map, Hin | apply Hf, Hl]. }
  assert (He : forall target, In target (map fst (Bom.column_mapping fieldnames)) ->
                              existsb (String.eqb target)
                                      (map fst (Bom.column_mapping fieldnames)) = true).
  { intros target Hin. apply existsb_exists. exists target.
    split; [exact Hin | apply String.eqb_refl]. }
  unfold Bom.missing, Bom.required. cbn [filter].
  rewrite (He "vm_name"), (He "os_config"), (He "cpu_cpus"), (He "mem_size_gb"),
    (He "disk_total_capacity_gb"); [reflexivity| | | | |].
  - apply (Ht "disk_capacity gb"); [simpl; tauto|].
    intros f Hf. unfold Bom.field_target. rewrite Hf. reflexivity.
  - apply (Ht "memory_size gb"); [simpl; tauto|].
    intros f Hf. unfold Bom.field_target. rewrite Hf. reflexivity.
  - apply (Ht "cpu_cpus"); [simpl; tauto|].
    intros f Hf. unfold Bom.field_target. rewrite Hf. reflexivity.
  - apply (Ht "cpu_os according to the configuration file"); [simpl; tauto|].
    intros f Hf. unfold Bom.field_target. rewrite Hf. reflexivity.
  - apply (Ht "cpu_vm"); [simpl; tauto|].
    intros f Hf. unfold Bom.field_target. rewrite Hf. reflexivity.
Qed.

Lemma bom_reads_essential_columns_witness :
  Bom.missing (Bom.column_mapping
                 ["VM UUID"; "cpu_VM"; "cpu_CPUs"; "memory_Size GB"; "disk_Capacity GB";
                  "cpu_OS according to the configuration file"; "cpu_Powerstate"])
  = [].
Proof.
  apply bom_reads_essential_columns. intros pattern Hp. simpl in Hp.
  destruct Hp as [<-|[<-|[<-|[<-|[<-|[]]]]]].
  - exists "cpu_VM". split; [simpl; tauto | reflexivity].
  - exists "cpu_CPUs". split; [simpl; tauto | reflexivity].
  - exists "memory_Size GB". split; [simpl; tauto | reflexivity].
  - exists "disk_Capacity GB". split; [simpl; tauto | reflexivity].
  - exists "cpu_OS according to the configuration file".
    split; [simpl; tauto | reflexivity].
Defined.

(* ================================================================= *)
(** ** When the grouped aggregation raises *)

(** A cell of a column read from a CSV file with dtype object: a string or
    a null. *)
Definition text_cell (c : cell) : Prop :=
  match c with
  | Some (VNum _) => False
  | _ => True
  end.

Definition number_cell (c : cell) : Prop :=
  match c with
  | Some (VStr _) => False
  | _ => True
  end.

(** The names whose rule joins strings. *)
Definition join_rule_names : list string :=
  ["Network"; "MAC Address"; "IP Address"; "Disk Path"; "Datastore"].

Section NoRaise.

Lemma map_result_ok {A B : Type} (f : A -> result B) (l : list A) :
  (forall x, In x l -> exists y, f x = Ok y) -> exists ys, map_result f l = Ok ys.
Proof.
  induction l as [|x l IH]; intros H; simpl; [eauto|].
  destruct (H x (or_introl eq_refl)) as [y ->].
  destruct IH as [ys ->]; [intros; apply H; right; assumption|]. simpl. eauto.
Qed.

Lemma group_cells_In (g : value) (keys cells : list cell) (c : cell) :
  In c (group_cells g keys cells) -> In c cells.
Proof.
  unfold group_cells. intros H. apply in_map_iff in H.
  destruct H as [[k c'] [<- H]]. apply filter_In in H. destruct H as [H _].
  apply (in_combine_r _ _ _ _ H).
Qed.

Lemma sum_from_numbers (l : list value) (q : Q) :
  (forall v, In v l -> number_cell (Some v)) -> exists v, sum_from (VNum q) l = Ok v.
Proof.
  revert q. induction l as [|[p|s] l IH]; intros q H; simpl; [eauto| |].
  - apply IH. intros v Hv. apply H. right. exact Hv.
  - destruct (H (VStr s) (or_introl eq_refl)).
Qed.

Lemma sum_from_strings (l : list value) (s : string) :
  (forall v, In v l -> text_cell (Some v)) -> exists v, sum_from (VStr s) l = Ok v.
Proof.
  revert s. induction l as [|[p|t] l IH]; intros s H; simpl; [eauto| |].
  - destruct (H (VNum p) (or_introl eq_refl)).
  - apply IH. intros v Hv. apply H. right. exact Hv.
Qed.

Lemma all_numbers_ok (l : list value) :
  (forall v, In v l -> number_cell (Some v)) -> exists qs, all_numbers l = Ok qs.
Proof.
  induction l as [|[p|s] l IH]; intros H; simpl; [eauto| |].
  - destruct IH as [qs ->]; [intros; apply H; right; assumption|]. simpl. eauto.
  - destruct (H (VStr s) (or_introl eq_refl)).
Qed.

Lemma all_strings_ok (l : list value) :
  (forall v, In v l -> text_cell (Some v)) -> exists ss, all_strings l = Ok ss.
Proof.
  induction l as [|[p|s] l IH]; intros H; simpl; [eauto| |].
  - destruct (H (VNum p) (or_introl eq_refl)).
  - destruct IH as [ss ->]; [intros; apply H; right; assumption|]. simpl. eauto.
Qed.

(** On numbers, every operation but the join of strings succeeds. *)
Lemma agg_group_numbers (op : agg_op) (x : list cell) :
  op <> AggJoinUnique -> op <> AggJoinDefault ->
  (forall c, In c x -> number_cell c) -> exists r, agg_group op x = Ok r.
Proof.
  intros H1 H2 Hx.
  assert (Hd : forall v, In v (dropna x) -> number_cell (Some v)).
  { intros v Hv. apply Hx, dropna_In, Hv. }
  destruct op; simpl; try congruence; eauto.
  - unfold sum_values. destruct (dropna x) as [|[q|s] l] eqn:E; simpl; [eauto| |].
    + destruct (sum_from_numbers l (Qred q)) as [v ->]; [|simpl; eauto].
      intros v Hv. apply Hd. right. exact Hv.
    + destruct (Hd (VStr s) (or_introl eq_refl)).
  - destruct (all_numbers_ok _ Hd) as [qs ->]. simpl. eauto.
Qed.

(** On strings, every operation the rules give to a text column succeeds. *)
Lemma agg_group_strings (op : agg_op) (x : list cell) :
  op <> AggMean ->
  (forall c, In c x -> text_cell c) -> exists r, agg_group op x = Ok r.
Proof.
  intros H1 Hx.
  assert (Hd : forall v, In v (dropna x) -> text_cell (Some v)).
  { intros v Hv. apply Hx, dropna_In, Hv. }
  assert (Hj : exists r, join_values (unique (dropna x)) = Ok r).
  { unfold join_values. destruct (all_strings_ok (unique (dropna x))) as [ss ->].
    - intros v Hv. apply Hd, unique_In, Hv.
    - simpl. eauto. }
  destruct op; simpl; try congruence; eauto.
  - unfold sum_values. destruct (dropna x) as [|[q|s] l] eqn:E; simpl; [eauto| |].
    + destruct (Hd (VNum q) (or_introl eq_refl)).
    + destruct (sum_from_strings l s) as [v ->]; [|simpl; eauto].
      intros v Hv. apply Hd. right. exact Hv.
  - destruct (0 <? _); eauto.
  - destruct (1 <? _); [exact Hj|]. destruct (0 <? _); eauto.
Qed.

Lemma numeric_rule_cases (col : string) :
  ~ In col join_rule_names ->
  numeric_rule col <> AggJoinUnique /\ numeric_rule col <> AggJoinDefault.
Proof.
  intros Hn. unfold numeric_rule.
  destruct (assoc col aggregation_rules) as [op|] eqn:E.
  - apply assoc_In_pair in E. simpl in E.
    repeat (destruct E as [E|E];
            [injection E as <- <-; split; try discriminate;
             try (exfalso; apply Hn; simpl; tauto)|]).
    destruct E.
  - destruct (existsb _ _); split; discriminate.
Qed.

Lemma text_rule_cases (col : string) : text_rule col <> AggMean.
Proof.
  unfold text_rule. destruct (assoc col aggregation_rules) as [op|] eqn:E.
  - apply assoc_In_pair in E. simpl in E.
    repeat (destruct E as [E|E]; [injection E as <- <-; discriminate|]).
    destruct E.
  - destruct (existsb _ _); discriminate.
Qed.

Lemma remove_first_In (x y : string) (l : list string) :
  In y (remove_first x l) -> In y l.
Proof.
  induction l as [|z l IH]; simpl; [tauto|].
  destruct (String.eqb z x); [auto|]. intros [H|H]; auto.
Qed.

End NoRaise.

(** X24.  The grouped aggregation raises no error, and the aggregator does
    not fall back to the first values per key, on a table with the key
    column in which every column of dtype object holds strings and nulls
    only, column names are unique, and no numeric column is named
    'Network', 'MAC Address', 'IP Address', 'Disk Path' or 'Datastore'. *)
Theorem aggregation_raises_only_on_numeric_join (df : DataFrame) :
  has_column vm_uuid df = true ->
  NoDup (names df) ->
  (forall n l, In (mkcol n (ObjCol l)) df -> Forall text_cell l) ->
  (forall n l, In (mkcol n (NumCol l)) df -> ~ In n join_rule_names) ->
  exists r, aggregate_grouped df vm_uuid = Ok r.
Proof.
  intros Hk Hnd Htext Hnum. unfold aggregate_grouped.
  destruct (agg_dict df vm_uuid) as [|p dict] eqn:Ed.
  - destruct (groupby_first_total df vm_uuid Hk) as [r ->]. simpl. eauto.
  - rewrite <- Ed. clear p dict Ed. unfold groupby_agg.
    destruct (lookup vm_uuid df) as [kd|] eqn:Ekd;
      [|apply has_column_lookup in Hk; congruence].
    match goal with
    | |- context [map_result ?f ?l] =>
        destruct (map_result_ok f l) as [cols ->]; [|simpl; eauto]
    end.
    intros [col op] Hin. cbn [fst snd].
    unfold agg_dict in Hin. apply in_app_iff in Hin.
    destruct Hin as [Hin|Hin]; apply in_map_iff in Hin;
      destruct Hin as [c [[= <- <-] Hc]]; apply remove_first_In in Hc;
      apply in_map_iff in Hc; destruct Hc as [[n d] [<- Hc]];
      apply filter_In in Hc; destruct Hc as [Hc Hd]; simpl in Hd; simpl;
      rewrite (unique_names_lookup df n d Hnd Hc).
    + destruct d as [l|l]; [|discriminate].
      destruct (numeric_rule_cases n (Hnum n l Hc)) as [H1 H2].
      unfold agg_column.
      match goal with
      | |- context [map_result ?f ?l] =>
          destruct (map_result_ok f l) as [cells ->]; [|simpl; eauto]
      end.
      intros g _. apply agg_group_numbers; try assumption.
      intros c Hc'. apply group_cells_In in Hc'. simpl in Hc'.
      apply in_map_iff in Hc'. destruct Hc' as [[q|] [<- _]]; exact I.
    + destruct d as [l|l]; [discriminate|].
      unfold agg_column.
      match goal with
      | |- context [map_result ?f ?l] =>
          destruct (map_result_ok f l) as [cells ->]; [|simpl; eauto]
      end.
      intros g _. apply agg_group_strings; [apply text_rule_cases|].
      intros c Hc'. apply group_cells_In in Hc'. simpl in Hc'.
      pose proof (Htext n l Hc) as Hf. rewrite Forall_forall in Hf. apply Hf, Hc'.
Qed.

Lemma aggregation_raises_only_on_numeric_join_witness :
  exists r, aggregate_grouped Examples.disk vm_uuid = Ok r.
Proof.
  apply (aggregation_raises_only_on_numeric_join Examples.disk).
  - reflexivity.
  - apply distinct_NoDup. reflexivity.
  - intros n l [H|[H|[]]]; [|discriminate]. injection H as _ <-.
    repeat constructor.
  - intros n l [H|[H|[]]]; [discriminate|]. injection H as <- _.
    simpl. intuition discriminate.
Defined.

(* ================================================================= *)
(** ** Tables stay rectangular *)

(** Every column has [n] cells. *)
Definition rectangular (n : nat) (df : DataFrame) : Prop :=
  forall c, In c df -> List.length (cells_of (cdata c)) = n.

Section Rectangular.

Lemma make_column_length (b : bool) (cells : list cell) :
  List.length (cells_of (make_column b cells)) = List.length cells.
Proof. destruct b; simpl; rewrite ?length_map; reflexivity. Qed.

Lemma shape_column_length (op : agg_op) (d : coldata) (cells : list cell) :
  List.length (cells_of (shape_column op d cells)) = List.length cells.
Proof.
  destruct op; try apply make_column_length;
    (destruct cells; [reflexivity | apply make_column_length]).
Qed.

Lemma map_result_length {A B : Type} (f : A -> result B) (l : list A) (ys : list B) :
  map_result f l = Ok ys -> List.length ys = List.length l.
Proof.
  revert ys. induction l as [|x l IH]; simpl; intros ys.
  - intros [= <-]. reflexivity.
  - destruct (f x); [|discriminate]. destruct (map_result f l); [|discriminate].
    simpl. intros [= <-]. simpl. f_equal. apply IH. reflexivity.
Qed.

Lemma map_result_In {A B : Type} (f : A -> result B) (l : list A) (ys : list B) (y : B) :
  map_result f l = Ok ys -> In y ys -> exists x, In x l /\ f x = Ok y.
Proof.
  revert ys. induction l as [|x l IH]; simpl; intros ys.
  - intros [= <-] [].
  - destruct (f x) as [b|] eqn:E; [|discriminate].
    destruct (map_result f l) as [bs|]; [|discriminate].
    simpl. intros [= <-] [<-|H]; [eauto|].
    destruct (IH bs eq_refl H) as [x' [H1 H2]]. eauto.
Qed.

Lemma key_column_length (kd : coldata) (gkeys : list value) :
  List.length (cells_of (key_column kd gkeys)) = List.length gkeys.
Proof. unfold key_column. rewrite make_column_length. apply length_map. Qed.

Lemma groupby_agg_rectangular (df r : DataFrame) (key : string)
    (dict : list (string * agg_op)) (kd : coldata) :
  lookup key df = Some kd -> groupby_agg df key dict = Ok r ->
  rectangular (List.length (group_keys (cells_of kd))) r.
Proof.
  intros Hk. unfold groupby_agg. rewrite Hk.
  destruct (map_result _ dict) as [cols|] eqn:E; [|discriminate].
  intros [= <-] c [<-|Hc]; [apply key_column_length|].
  destruct (map_result_In _ _ _ _ E Hc) as [co [_ Hco]].
  destruct (lookup (fst co) df) as [d|]; [|discriminate].
  unfold agg_column in Hco.
  destruct (map_result _ (group_keys _)) as [cells|] eqn:Ec; [|discriminate].
  injection Hco as <-. simpl. rewrite shape_column_length.
  apply (map_result_length _ _ _ Ec).
Qed.

Lemma groupby_first_rectangular (df r : DataFrame) (key : string) (kd : coldata) :
  lookup key df = Some kd -> groupby_first df key = Ok r ->
  rectangular (List.length (group_keys (cells_of kd))) r.
Proof.
  intros Hk. unfold groupby_first. rewrite Hk.
  intros [= <-] c [<-|Hc]; [apply key_column_length|].
  apply in_map_iff in Hc. destruct Hc as [c' [<- _]]. simpl.
  rewrite make_column_length. apply length_map.
Qed.

Lemma set_column_In (n : string) (d : coldata) (df : DataFrame) (c : column) :
  In c (set_column n d df) -> c = mkcol n d \/ In c df.
Proof.
  unfold set_column. destruct (has_column n df).
  - intros H. apply in_map_iff in H. destruct H as [c' [<- Hc']].
    destruct (String.eqb (cname c') n); auto.
  - intros H. apply in_app_iff in H. destruct H as [H|[<-|[]]]; auto.
Qed.

Lemma convert_column_rectangular (rename : string -> string) (d : Z) (n : nat)
    (df : DataFrame) (col : string) :
  rectangular n df -> rectangular n (convert_column rename d df col).
Proof.
  intros H. unfold convert_column.
  destruct (lookup col df) as [[vs|l]|] eqn:E; try exact H.
  intros c Hc. unfold drop in Hc. apply filter_In in Hc. destruct Hc as [Hc _].
  apply set_column_In in Hc. destruct Hc as [->|Hc]; [|apply H, Hc].
  simpl. rewrite !length_map. apply lookup_In in E.
  specialize (H _ E). simpl in H. rewrite length_map in H. exact H.
Qed.

Lemma convert_rectangular (n : nat) (df : DataFrame) :
  rectangular n df -> rectangular n (convert_mib_to_gb df).
Proof.
  assert (Hp : forall sel rename d df0,
             rectangular n df0 -> rectangular n (convert_pass sel rename d df0)).
  { intros sel rename d df0. unfold convert_pass.
    generalize (unit_columns sel df0) as cs. intros cs. revert df0.
    induction cs as [|c cs IH]; intros df0 H; simpl; [exact H|].
    apply IH, convert_column_rectangular, H. }
  intros H. apply Hp, Hp, H.
Qed.

Lemma take_rows_length (idx : list (option nat)) (d : coldata) :
  List.length (cells_of (take_rows idx d)) = List.length idx.
Proof. rewrite cells_of_take_rows. apply length_map. Qed.

Lemma merge_left_rectangular (left right merged : DataFrame) :
  merge_left left right vm_uuid = Ok merged ->
  rectangular (List.length (key_cells merged)) merged.
Proof.
  intros H. destruct (merge_left_key _ _ _ H) as [lk [rk [El [Er ->]]]].
  rewrite length_map. unfold merge_left in H. rewrite El, Er in H.
  destruct (negb _); [discriminate|]. destruct (orb _ _); [discriminate|].
  injection H as <-. intros c Hc. apply in_app_iff in Hc.
  destruct Hc as [Hc|Hc]; apply in_map_iff in Hc; destruct Hc as [c' [<- _]];
    simpl; rewrite take_rows_length, length_map; reflexivity.
Qed.

Lemma prefix_columns_rectangular (n : nat) (cat : string) (df : DataFrame) :
  rectangular n df -> rectangular n (prefix_columns cat df).
Proof.
  intros H c Hc. unfold prefix_columns in Hc. apply in_map_iff in Hc.
  destruct Hc as [c' [<- Hc']].
  destruct (String.eqb (cname c') vm_uuid); simpl; apply (H c' Hc').
Qed.

End Rectangular.

(** X25.  The aggregator returns a proper table: when every column of the
    input has the same number of cells, every column of the output has one
    cell for each row of the output's key column, whether the rows were
    grouped, taken from the fallback, or passed through. *)
Theorem aggregator_output_rectangular (n : nat) (df : DataFrame) :
  rectangular n df -> has_column vm_uuid df = true ->
  rectangular (List.length (key_cells (aggregate_vm_data df))) (aggregate_vm_data df).
Proof.
  intros Hr Hk.
  destruct (lookup vm_uuid df) as [kd|] eqn:Ekd;
    [|apply has_column_lookup in Hk; congruence].
  assert (Hn : List.length (key_cells df) = n).
  { unfold key_cells. rewrite Ekd. apply (Hr _ (lookup_In _ _ _ Ekd)). }
  assert (Hg : forall r, rectangular (List.length (group_keys (cells_of kd))) r ->
                         key_cells (convert_mib_to_gb r)
                         = map Some (group_keys (key_cells df)) ->
                         rectangular (List.length (key_cells (convert_mib_to_gb r)))
                                     (convert_mib_to_gb r)).
  { intros r H ->. rewrite length_map. unfold key_cells. rewrite Ekd.
    apply convert_rectangular, H. }
  unfold aggregate_vm_data, aggregate_vm_data_on. rewrite Hk. simpl.
  destruct (empty df); [rewrite Hn; exact Hr|].
  destruct (max_count_is_one _).
  - rewrite convert_key_cells, Hn. apply convert_rectangular, Hr.
  - destruct (aggregate_grouped df vm_uuid) as [r|] eqn:E.
    + pose proof (grouped_key_cells df r (or_introl E)) as Hkc.
      unfold aggregate_grouped in E. destruct (agg_dict df vm_uuid) as [|p l].
      * destruct (groupby_first df vm_uuid) as [r'|] eqn:E'; [|discriminate].
        injection E as <-. apply Hg; [|exact Hkc].
        apply (groupby_first_rectangular df r' vm_uuid kd Ekd E').
      * destruct (groupby_agg df vm_uuid (p :: l)) as [r'|] eqn:E'; [|discriminate].
        injection E as <-. apply Hg; [|exact Hkc].
        apply (groupby_agg_rectangular df r' vm_uuid _ kd Ekd E').
    + destruct (groupby_first_total df vm_uuid Hk) as [r' E']. rewrite E'.
      apply Hg.
      * apply (groupby_first_rectangular df r' vm_uuid kd Ekd E').
      * apply (grouped_key_cells df). right. eauto.
Qed.

Lemma aggregator_output_rectangular_witness :
  rectangular (List.length (key_cells (aggregate_vm_data Examples.disk)))
              (aggregate_vm_data Examples.disk).
Proof.
  apply (aggregator_output_rectangular 3 Examples.disk); [|reflexivity].
  intros c [<-|[<-|[]]]; reflexivity.
Defined.

(** X26.  The merged table is a proper table: when the columns of each
    source table have the same number of cells, every column of the merged
    table has one cell for each of its rows. *)
Theorem merged_table_rectangular (csv_data : list (string * DataFrame)) :
  (forall cat df, In (cat, df) csv_data -> exists n, rectangular n df) ->
  rectangular (List.length (key_cells (merge_all_vm_data csv_data)))
              (merge_all_vm_data csv_data).
Proof.
  intros Hrect.
  assert (Hfold : forall b items st,
             rectangular (List.length (key_cells (fst st))) (fst st) ->
             rectangular
               (List.length (key_cells (fst (fold_left (merge_one b) items st))))
               (fst (fold_left (merge_one b) items st))).
  { intros b items. induction items as [|item items IH]; intros st Hst; simpl;
      [exact Hst|].
    apply IH. unfold merge_one.
    destruct st as [result_df merged_count], item as [data_type df].
    destruct (_ || _)%bool; [exact Hst|].
    destruct (empty (aggregate_vm_data df)); [exact Hst|].
    destruct (merge_left _ _ _) as [merged|] eqn:E; [|exact Hst].
    simpl. apply (merge_left_rectangular _ _ _ E). }
  unfold merge_all_vm_data.
  destruct csv_data as [|item items] eqn:Ecsv; [intros c []|]. rewrite <- Ecsv in *.
  destruct (find_base csv_data) as [b|] eqn:Eb; [|intros c []].
  destruct (assoc b csv_data) as [df|] eqn:Ea; [|intros c []].
  destruct (empty (aggregate_vm_data df)); [intros c []|].
  apply Hfold. simpl.
  assert (Hk : has_column vm_uuid df = true).
  { apply find_some in Eb. destruct Eb as [_ Hq]. unfold qualifies in Hq.
    rewrite Ea in Hq. apply andb_true_iff in Hq. tauto. }
  destruct (Hrect b df (assoc_In_pair _ _ _ Ea)) as [n Hn].
  unfold key_cells at 1. rewrite key_cells_prefix.
  apply prefix_columns_rectangular.
  apply (aggregator_output_rectangular n df Hn Hk).
Qed.

Lemma merged_table_rectangular_witness :
  rectangular 2 (merge_all_vm_data Examples.export).
Proof.
  apply (merged_table_rectangular Examples.export).
  intros cat df [H|[H|[H|[]]]]; injection H as _ <-.
  - exists 2. intros c [<-|[<-|[]]]; reflexivity.
  - exists 2. intros c [<-|[<-|[<-|[<-|[]]]]]; reflexivity.
  - exists 3. intros c [<-|[<-|[]]]; reflexivity.
Defined.

(* ================================================================= *)
(** ** Column names stay unique *)

Section UniqueNames.




Lemma NoDup_app_disjoint {A : Type} (l l' : list A) (a : A) :
  NoDup (l ++ l') -> In a l -> ~ In a l'.
Proof.
  induction l as [|x l IH]; simpl; [tauto|].
  intros H. inversion H as [|? ? Hx Hl]; subst. intros [->|Ha] Ha'.
  - apply Hx, in_or_app. right. exact Ha'.
  - apply (IH Hl Ha Ha').
Qed.














End UniqueNames.



(* ================================================================= *)
(** ** Stability of the column filter *)

Section FilterStability.

Lemma dedup_In_iff (l : list string) (x : string) : In x (dedup l) <-> In x l.
Proof.
  split; [apply dedup_In|].
  induction l as [|y l IH]; simpl; [tauto|].
  destruct (string_dec y x) as [->|Hne]; [auto|].
  intros [H|H]; [congruence|]. right. apply filter_In. split; [apply IH, H|].
  apply negb_true_iff, String.eqb_neq, Hne.
Qed.

Lemma dedup_NoDup_id (l : list string) : NoDup l -> dedup l = l.
Proof.
  induction 1 as [|x l Hx Hl IH]; simpl; [reflexivity|].
  rewrite IH. f_equal. apply filter_all. intros y Hy.
  apply negb_true_iff, String.eqb_neq. congruence.
Qed.

Lemma filter_comm {A : Type} (f g : A -> bool) (l : list A) :
  filter f (filter g l) = filter g (filter f l).
Proof.
  induction l as [|x l IH]; simpl; [reflexivity|].
  destruct (f x) eqn:Ef; destruct (g x) eqn:Eg; simpl;
    rewrite ?Ef, ?Eg, IH; reflexivity.
Qed.

Lemma filter_dedup (f : string -> bool) (l : list string) :
  filter f (dedup l) = dedup (filter f l).
Proof.
  induction l as [|x l IH]; simpl; [reflexivity|].
  destruct (f x) eqn:E; simpl.
  - rewrite filter_comm, IH. reflexivity.
  - rewrite filter_comm, IH. apply filter_all. intros y Hy.
    apply dedup_In, filter_In in Hy. destruct Hy as [_ Hy].
    apply negb_true_iff, String.eqb_neq. intros ->. congruence.
Qed.

Lemma filter_none {A : Type} (f : A -> bool) (l : list A) :
  (forall x, In x l -> f x = false) -> filter f l = [].
Proof.
  induction l as [|x l IH]; intros H; simpl; [reflexivity|].
  rewrite (H x (or_introl eq_refl)). apply IH. intros y Hy. apply H. right. exact Hy.
Qed.

Lemma flat_map_ext_In {A B : Type} (f g : A -> list B) (l : list A) :
  (forall x, In x l -> f x = g x) -> flat_map f l = flat_map g l.
Proof.
  induction l as [|x l IH]; intros H; simpl; [reflexivity|].
  rewrite (H x (or_introl eq_refl)), IH; [reflexivity|].
  intros y Hy. apply H. right. exact Hy.
Qed.

Variable cols : list string.
Hypothesis cols_unique : NoDup cols.

Let matches (pattern col : string) : bool := String.eqb (lower col) (lower pattern).
Let exact (pattern : string) : list string := filter (matches pattern) cols.

Lemma exact_other (p : string) (ps : list string) :
  ~ In (lower p) (map lower ps) ->
  filter (matches p) (flat_map exact ps) = [].
Proof.
  intros H. apply filter_none. intros x Hx. apply in_flat_map in Hx.
  destruct Hx as [p' [Hp' Hx]]. apply filter_In in Hx. destruct Hx as [_ Hx].
  unfold matches in *. apply String.eqb_eq in Hx. apply String.eqb_neq.
  intros E. apply H. rewrite <- E, Hx. apply in_map, Hp'.
Qed.

Lemma exact_same (p : string) (ps : list string) :
  NoDup (map lower ps) -> In p ps ->
  filter (matches p) (flat_map exact ps) = exact p.
Proof.
  induction ps as [|p0 ps IH]; simpl; [tauto|].
  intros Hnd Hin. inversion Hnd as [|? ? H0 Hps]; subst. rewrite filter_app.
  destruct (string_dec (lower p0) (lower p)) as [E|Hne].
  - rewrite exact_other by (rewrite <- E; exact H0). rewrite app_nil_r.
    unfold exact, matches. rewrite E. apply filter_all.
    intros x Hx. apply filter_In in Hx. tauto.
  - destruct Hin as [->|Hin]; [congruence|]. rewrite (IH Hps Hin).
    replace (filter (matches p) (exact p0)) with (@nil string); [reflexivity|].
    symmetry. apply filter_none. intros x Hx. apply filter_In in Hx.
    destruct Hx as [_ Hx]. unfold matches in *. apply String.eqb_eq in Hx.
    apply String.eqb_neq. congruence.
Qed.

Lemma firstn_short {A : Type} (n : nat) (l : list A) :
  List.length (firstn n l) < n -> firstn n l = l.
Proof.
  intros H. rewrite length_firstn in H. apply firstn_all2. lia.
Qed.

(** One step of the fallback loop gives the same columns on a table [T]
    that has the final selection. *)
Lemma fallback_step_stable (T acc rest : list string) (p : string) :
  T = add_fallback cols acc p ++ rest ->
  NoDup T -> (forall x, In x T -> In x cols) ->
  add_fallback T acc p = add_fallback cols acc p.
Proof.
  unfold add_fallback.
  set (q := fun col => (contains p (lower col)
                        && negb (existsb (String.eqb col) acc))%bool).
  set (A := firstn 2 (filter q cols)).
  intros -> Hnd Hsub. f_equal. rewrite <- app_assoc, !filter_app.
  assert (Hacc : filter q acc = []).
  { apply filter_none. intros x Hx. unfold q.
    assert (E : existsb (String.eqb x) acc = true).
    { apply existsb_exists. exists x. split; [exact Hx | apply String.eqb_refl]. }
    rewrite E. apply andb_false_r. }
  assert (HA : filter q A = A).
  { apply filter_all. intros x Hx. apply firstn_subset, filter_In in Hx. tauto. }
  rewrite Hacc, HA, app_nil_l.
  destruct (Nat.lt_ge_cases (List.length A) 2) as [Hlt|Hge].
  - assert (EA : filter q cols = A) by (symmetry; apply firstn_short, Hlt).
    replace (filter q rest) with (@nil string).
    + rewrite app_nil_r. apply firstn_all2. lia.
    + symmetry. apply filter_none. intros x Hx.
      destruct (q x) eqn:Eq; [|reflexivity]. exfalso.
      assert (HxA : In x A).
      { rewrite <- EA. apply filter_In. split; [|exact Eq].
        apply Hsub. apply in_or_app. right. exact Hx. }
      rewrite <- app_assoc in Hnd. apply NoDup_app_remove_l in Hnd.
      apply (NoDup_app_disjoint _ _ x Hnd HxA Hx).
  - rewrite firstn_app.
    assert (El : List.length A = 2).
    { pose proof (firstn_le_length 2 (filter q cols)). fold A in H. lia. }
    rewrite El, Nat.sub_diag, firstn_O, app_nil_r. apply firstn_all2. lia.
Qed.

Lemma fallback_extends (ps acc : list string) :
  exists rest, fold_left (add_fallback cols) ps acc = acc ++ rest.
Proof.
  revert acc. induction ps as [|p ps IH]; intros acc; simpl.
  - exists []. symmetry. apply app_nil_r.
  - destruct (IH (add_fallback cols acc p)) as [rest ->].
    unfold add_fallback. rewrite <- app_assoc. eauto.
Qed.

Lemma fallback_stable (ps acc : list string) :
  NoDup acc -> (forall x, In x acc -> In x cols) ->
  fold_left (add_fallback (fold_left (add_fallback cols) ps acc)) ps acc
  = fold_left (add_fallback cols) ps acc.
Proof.
  intros Hnd Hsub.
  assert (H : forall ps acc T,
             NoDup T -> (forall x, In x T -> In x cols) ->
             T = fold_left (add_fallback cols) ps acc ->
             fold_left (add_fallback T) ps acc = T).
  { clear ps acc Hnd Hsub. induction ps as [|p ps IH]; intros acc T HT HsT E; simpl in *;
      [congruence|].
    destruct (fallback_extends ps (add_fallback cols acc p)) as [rest Er].
    rewrite (fallback_step_stable T acc rest p); try assumption; [|congruence].
    apply IH; assumption. }
  apply H; [apply fallback_NoDup; assumption | | reflexivity].
  intros x Hx. apply (fallback_In _ _ _ _ Hsub Hx).
Qed.

Let key_part (c : list string) : list string :=
  if existsb (String.eqb vm_uuid) c then [vm_uuid] else [].

Let found_in (c : list string) : list string :=
  dedup (key_part c ++ exact_matches c priority_patterns
                    ++ exact_matches c secondary_patterns).

Let exact_patterns : list string := priority_patterns ++ secondary_patterns.

Lemma exact_patterns_distinct : NoDup (map lower exact_patterns).
Proof. apply distinct_NoDup. reflexivity. Qed.

Lemma key_is_no_pattern (p : string) :
  In p exact_patterns -> matches p vm_uuid = false.
Proof.
  intros Hp. simpl in Hp.
  repeat (destruct Hp as [<-|Hp]; [reflexivity|]). destruct Hp.
Qed.

Lemma found_in_cols (x : string) : In x (found_in cols) -> In x cols.
Proof.
  unfold found_in, key_part. intros H. apply dedup_In in H. rewrite !in_app_iff in H.
  destruct H as [H|[H|H]]; try (eapply exact_matches_In; eassumption).
  destruct (existsb (String.eqb vm_uuid) cols) eqn:E; [|destruct H].
  destruct H as [<-|[]]. apply existsb_exists in E. destruct E as [z [Hz E]].
  apply String.eqb_eq in E. congruence.
Qed.

Lemma exact_in_found (p x : string) :
  In p exact_patterns -> In x cols -> matches p x = true -> In x (found_in cols).
Proof.
  intros Hp Hx Hm. unfold found_in. apply dedup_In_iff. apply in_or_app. right.
  apply in_app_or in Hp. apply in_or_app.
  destruct Hp as [Hp|Hp]; [left|right]; unfold exact_matches; apply in_flat_map;
    exists p; (split; [exact Hp|]); apply filter_In; split; assumption.
Qed.

Lemma found_filter (p : string) :
  In p exact_patterns -> filter (matches p) (found_in cols) = exact p.
Proof.
  intros Hp. unfold found_in. rewrite filter_dedup, filter_app.
  assert (Hk : filter (matches p) (key_part cols) = []).
  { unfold key_part. destruct (existsb (String.eqb vm_uuid) cols); [|reflexivity].
    cbn [filter]. rewrite (key_is_no_pattern p Hp). reflexivity. }
  rewrite Hk, app_nil_l.
  change (exact_matches cols priority_patterns ++ exact_matches cols secondary_patterns)
    with (flat_map exact priority_patterns ++ flat_map exact secondary_patterns).
  rewrite <- flat_map_app.
  change (priority_patterns ++ secondary_patterns) with exact_patterns.
  rewrite (exact_same p _ exact_patterns_distinct Hp).
  apply dedup_NoDup_id, NoDup_filter, cols_unique.
Qed.

(** The exact-match stage finds the same columns on a table that holds them
    and, besides, only columns that match no exact pattern. *)
Lemma found_stable (T rest : list string) :
  T = found_in cols ++ rest -> NoDup T -> (forall x, In x T -> In x cols) ->
  found_in T = found_in cols.
Proof.
  intros ET Hnd Hsub.
  assert (HK : key_part T = key_part cols).
  { unfold key_part. destruct (existsb (String.eqb vm_uuid) cols) eqn:E.
    - assert (H : In vm_uuid T).
      { rewrite ET. apply in_or_app. left. unfold found_in, key_part. rewrite E.
        apply dedup_In_iff. left. reflexivity. }
      replace (existsb (String.eqb vm_uuid) T) with true; [reflexivity|].
      symmetry. apply existsb_exists. exists vm_uuid. split; [exact H|apply String.eqb_refl].
    - destruct (existsb (String.eqb vm_uuid) T) eqn:E'; [|reflexivity].
      apply existsb_exists in E'. destruct E' as [z [Hz Ez]].
      apply String.eqb_eq in Ez. subst z.
      assert (existsb (String.eqb vm_uuid) cols = true); [|congruence].
      apply existsb_exists. exists vm_uuid. split; [apply Hsub, Hz|apply String.eqb_refl]. }
  assert (HE : forall ps, (forall p, In p ps -> In p exact_patterns) ->
                          exact_matches T ps = exact_matches cols ps).
  { intros ps Hps. unfold exact_matches. apply flat_map_ext_In. intros p Hp.
    change (filter (matches p) T = exact p).
    rewrite ET, filter_app, (found_filter p (Hps p Hp)).
    replace (filter (matches p) rest) with (@nil string); [apply app_nil_r|].
    symmetry. apply filter_none. intros x Hx.
    destruct (matches p x) eqn:Em; [|reflexivity]. exfalso.
    assert (Hc : In x cols) by (apply Hsub; rewrite ET; apply in_or_app; right; exact Hx).
    rewrite ET in Hnd.
    apply (NoDup_app_disjoint _ _ x Hnd (exact_in_found p x (Hps p Hp) Hc Em) Hx). }
  unfold found_in. rewrite HK, !HE; [reflexivity| |];
    intros p Hp; apply in_or_app; [right|left]; exact Hp.
Qed.

Lemma essential_columns_stable :
  essential_columns (essential_columns cols) = essential_columns cols.
Proof.
  assert (Hf : NoDup (found_in cols)) by apply dedup_NoDup.
  change (essential_columns cols)
    with (if List.length (found_in cols) <? 5
          then fold_left (add_fallback cols) fallback_patterns (found_in cols)
          else found_in cols).
  destruct (List.length (found_in cols) <? 5) eqn:E.
  - set (T := fold_left (add_fallback cols) fallback_patterns (found_in cols)).
    destruct (fallback_extends fallback_patterns (found_in cols)) as [rest Er].
    fold T in Er.
    assert (HT : NoDup T) by (apply fallback_NoDup; assumption).
    assert (Hs : forall x, In x T -> In x cols).
    { intros x Hx. apply (fallback_In _ _ _ _ found_in_cols Hx). }
    change (essential_columns T)
      with (if List.length (found_in T) <? 5
            then fold_left (add_fallback T) fallback_patterns (found_in T)
            else found_in T).
    rewrite (found_stable T rest Er HT Hs), E.
    apply (fallback_stable fallback_patterns (found_in cols) Hf found_in_cols).
  - change (essential_columns (found_in cols))
      with (if List.length (found_in (found_in cols)) <? 5
            then fold_left (add_fallback (found_in cols)) fallback_patterns
                           (found_in (found_in cols))
            else found_in (found_in cols)).
    rewrite (found_stable (found_in cols) []); [rewrite E; reflexivity | | exact Hf |].
    + symmetry. apply app_nil_r.
    + exact found_in_cols.
Qed.






End FilterStability.

(** The column filter is idempotent on the columns of a table. *)
Lemma filter_output_columns_idempotent (df : DataFrame) :
  NoDup (names df) ->
  filter_output_columns false (filter_output_columns false df)
  = filter_output_columns false df.
Proof.
  intros Hnd.
  assert (Hn : names (filter_output_columns false df) = essential_columns (names df))
    by apply filter_output_names.
  set (L := essential_columns (names df)) in *.
  assert (HS : filter_output_columns false df = select_columns L df).
  { unfold filter_output_columns. fold L. f_equal. apply filter_all.
    intros x Hx. apply has_column_lookup, lookup_names. apply (essential_In _ _ Hx). }
  set (S := filter_output_columns false df) in *.
  unfold filter_output_columns at 1. rewrite Hn. unfold L at 1.
  rewrite (essential_columns_stable (names df) Hnd). fold L.
  assert (Hall : filter (fun col => has_column col S) L = L).
  { apply filter_all. intros x Hx. apply has_column_lookup, lookup_names.
    rewrite Hn. exact Hx. }
  rewrite Hall, HS. unfold select_columns at 1 3. apply flat_map_ext_In.
  intros col Hc. rewrite <- HS.
  assert (Hin : lookup col S <> None) by (apply lookup_names; rewrite Hn; exact Hc).
  destruct (lookup col S) as [d|] eqn:El; [|congruence].
  rewrite (filter_output_lookup false df col d El). reflexivity.
Qed.

(** X28.  Running the column filter on its own output changes nothing: on
    a table with unique column names the filter selects from its result the
    same columns, in the same order and with the same contents; the chosen
    column names are a fixed point of the selection. *)
Theorem column_filter_idempotent (df : DataFrame) :
  NoDup (names df) ->
  essential_columns (essential_columns (names df)) = essential_columns (names df)
  /\ filter_output_columns false (filter_output_columns false df)
     = filter_output_columns false df.
Proof.
  intros H. split.
  - apply essential_columns_stable, H.
  - apply filter_output_columns_idempotent, H.
Qed.

Lemma column_filter_idempotent_witness :
  filter_output_columns false
    (filter_output_columns false (merge_all_vm_data Examples.export))
  = filter_output_columns false (merge_all_vm_data Examples.export).
Proof.
  apply (column_filter_idempotent (merge_all_vm_data Examples.export)).
  apply distinct_NoDup. reflexivity.
Defined.

(* ================================================================= *)
(** ** Column order of the output *)

Section KeyPosition.







Variable rename : string -> string.
Variable d : Z.



End KeyPosition.




